(** * CineData ETL pipeline: a shallow embedding of [scripts/etl.py]

    The development follows the stages of [CineDataEtl]: validation and
    de-duplication ([cleanup_data]), shaping into three frames
    ([filter_data]) and the incremental load ([load_data_to_db]).  Python
    objects, [datetime.strptime], the pandas operations the script relies
    on and the relational store are modelled first; the statements about
    the script come last. *)

From Stdlib Require Import ZArith List String Ascii Bool Lia.
Import ListNotations.
Local Open Scope string_scope.
Local Open Scope list_scope.
Set Warnings "-register-all".

(** ** Python objects, as they come out of [response.json()] *)

Module Py.

(** A Python [float]: a finite dyadic number [m * 2^e], an infinity or NaN.
    The script performs no float arithmetic; it only observes the type of
    a number and whether two numbers are equal. *)
Inductive pyfloat : Type :=
| FFin (m e : Z)
| FInf (negative : bool)
| FNaN.

(** The objects JSON decodes to.  A [str] is given by its UTF-8 encoding,
    one [ascii] per byte: two texts are equal when their bytes are, and
    what depends on characters ([strip], [iter], [\d] in [strptime]) reads
    the bytes as the code points they encode. *)
Inductive value : Type :=
| VNone
| VBool (b : bool)
| VInt (n : Z)
| VFloat (f : pyfloat)
| VStr (s : string)
| VList (l : list value)
| VDict (d : list (string * value)).

(** A [dict] with string keys, in insertion order. *)
Definition dict : Type := list (string * value).

Inductive exn : Type :=
| KeyError (k : string)
| TypeError
| ValueError
| AttributeError
| DatabaseError.

Inductive result (A : Type) : Type :=
| Ok (a : A)
| Raise (e : exn).
Arguments Ok {A} a.
Arguments Raise {A} e.

Definition bind {A B} (r : result A) (k : A -> result B) : result B :=
  match r with
  | Ok a => k a
  | Raise e => Raise e
  end.

(** The first binding of [k] in [d], if any. *)
Fixpoint lookup (k : string) (d : dict) : option value :=
  match d with
  | [] => None
  | (k', v) :: d' => if String.eqb k k' then Some v else lookup k d'
  end.

(** [d.get(k, default)] *)
Definition get_default (k : string) (default : value) (d : dict) : value :=
  match lookup k d with
  | Some v => v
  | None => default
  end.

(** [d.get(k)], whose default is [None]. *)
Definition get (k : string) (d : dict) : value := get_default k VNone d.

(** [d[k]] *)
Definition getitem (k : string) (d : dict) : result value :=
  match lookup k d with
  | Some v => Ok v
  | None => Raise (KeyError k)
  end.

(** [d[k] = v]: an existing key keeps its place, a new key goes last. *)
Fixpoint setitem (k : string) (v : value) (d : dict) : dict :=
  match d with
  | [] => [(k, v)]
  | (k', v') :: d' =>
      if String.eqb k k' then (k', v) :: d' else (k', v') :: setitem k v d'
  end.

(** [bool(v)] *)
Definition truthy (v : value) : bool :=
  match v with
  | VNone => false
  | VBool b => b
  | VInt n => negb (n =? 0)%Z
  | VFloat (FFin m _) => negb (m =? 0)%Z
  | VFloat _ => true
  | VStr EmptyString => false
  | VStr _ => true
  | VList [] => false
  | VList _ => true
  | VDict [] => false
  | VDict _ => true
  end.

(** [isinstance(v, (int, float))]; [bool] is a subclass of [int]. *)
Definition isinstance_int_float (v : value) : bool :=
  match v with
  | VBool _ | VInt _ | VFloat _ => true
  | _ => false
  end.

(** Lists and dicts cannot be hashed. *)
Definition hashable (v : value) : bool :=
  match v with
  | VList _ | VDict _ => false
  | _ => true
  end.

(** Numbers as [==] sees them: [False] and [True] are 0 and 1. *)
Definition as_number (v : value) : option pyfloat :=
  match v with
  | VBool b => Some (FFin (if b then 1 else 0) 0)
  | VInt n => Some (FFin n 0)
  | VFloat f => Some f
  | _ => None
  end.

Definition float_eqb (x y : pyfloat) : bool :=
  match x, y with
  | FFin m1 e1, FFin m2 e2 =>
      if (e1 <=? e2)%Z then (m1 =? m2 * 2 ^ (e2 - e1))%Z
      else (m1 * 2 ^ (e1 - e2) =? m2)%Z
  | FInf a, FInf b => Bool.eqb a b
  | _, _ => false
  end.

(** [a == b] on hashable objects; NaN differs from everything. *)
Definition py_eqb (a b : value) : bool :=
  match as_number a, as_number b with
  | Some x, Some y => float_eqb x y
  | None, None =>
      match a, b with
      | VNone, VNone => true
      | VStr s, VStr t => String.eqb s t
      | _, _ => false
      end
  | _, _ => false
  end.

(** What [x in s] compares an element of the set with: the same object,
    or an equal one.  The objects here are those JSON decodes to, and
    every [NaN] that [json] decodes is one object, so that [NaN] is found
    in a set that holds it although it equals nothing. *)
Definition same_element (a b : value) : bool :=
  py_eqb a b
  || match a, b with
     | VFloat FNaN, VFloat FNaN => true
     | _, _ => false
     end.

(** [x in s] for a [set] kept as the list of its elements. *)
Definition set_contains (s : list value) (x : value) : result bool :=
  if hashable x then Ok (existsb (same_element x) s) else Raise TypeError.

(** A byte that continues a character: [10xxxxxx]. *)
Definition continues (c : ascii) : bool :=
  let n := N_of_ascii c in ((128 <=? n) && (n <=? 191))%N.

(** The characters at the front of [s] that continue the one before, and
    the characters that follow, each with its own bytes. *)
Fixpoint split_chars (s : string) : string * list string :=
  match s with
  | EmptyString => (EmptyString, [])
  | String c s' =>
      let (tail, rest) := split_chars s' in
      if continues c then (String c tail, rest)
      else (EmptyString, String c tail :: rest)
  end.

(** The characters of a text, in order. *)
Definition chars (s : string) : list string :=
  match split_chars s with
  | (EmptyString, rest) => rest
  | (stray, rest) => stray :: rest
  end.

(** [for x in v]: the elements of a list, the characters of a string, the
    keys of a dict; nothing else the script meets can be iterated. *)
Definition iter (v : value) : result (list value) :=
  match v with
  | VList l => Ok l
  | VStr s => Ok (map VStr (chars s))
  | VDict d => Ok (map (fun kv => VStr (fst kv)) d)
  | _ => Raise TypeError
  end.

(** The characters [str.strip()] removes, by their encodings.  Of one
    byte: U+0009 to U+000D and U+001C to U+0020. *)
Definition space1 (a : ascii) : bool :=
  let n := N_of_ascii a in
  ((9 <=? n) && (n <=? 13) || (28 <=? n) && (n <=? 32))%N.

(** Of two bytes: U+0085 and U+00A0. *)
Definition space2 (a b : ascii) : bool :=
  let m := N_of_ascii a in
  let n := N_of_ascii b in
  ((m =? 194) && ((n =? 133) || (n =? 160)))%N.

(** Of three bytes: U+1680, U+2000 to U+200A, U+2028, U+2029, U+202F,
    U+205F and U+3000. *)
Definition space3 (a b c : ascii) : bool :=
  let l := N_of_ascii a in
  let m := N_of_ascii b in
  let n := N_of_ascii c in
  ((l =? 225) && (m =? 154) && (n =? 128)
   || (l =? 226) && (m =? 128)
      && ((128 <=? n) && (n <=? 138) || (n =? 168) || (n =? 169)
          || (n =? 175))
   || (l =? 226) && (m =? 129) && (n =? 159)
   || (l =? 227) && (m =? 128) && (n =? 128))%N.

(** What follows one such character at the front of [s]. *)
Definition space_prefix (s : string) : option string :=
  match s with
  | EmptyString => None
  | String a s1 =>
      if space1 a then Some s1
      else
        match s1 with
        | EmptyString => None
        | String b s2 =>
            if space2 a b then Some s2
            else
              match s2 with
              | EmptyString => None
              | String c s3 => if space3 a b c then Some s3 else None
              end
        end
  end.

Fixpoint lstrip (s : string) : string :=
  match s with
  | EmptyString => EmptyString
  | String a s1 =>
      if space1 a then lstrip s1
      else
        match s1 with
        | EmptyString => s
        | String b s2 =>
            if space2 a b then lstrip s2
            else
              match s2 with
              | EmptyString => s
              | String c s3 => if space3 a b c then lstrip s3 else s
              end
        end
  end.

(** [s.rstrip()]: the tail is stripped first; when what is left of the
    text is one of those characters alone, nothing is left. *)
Fixpoint rstrip (s : string) : string :=
  match s with
  | EmptyString => EmptyString
  | String a s' =>
      match space_prefix (String a (rstrip s')) with
      | Some EmptyString => EmptyString
      | _ => String a (rstrip s')
      end
  end.

(** [s.strip()] *)
Definition strip (s : string) : string := rstrip (lstrip s).

(** The character at the front of a text: its code point and the bytes
    after it; nothing when the bytes encode no character. *)
Definition decode_char (s : list ascii) : option (N * list ascii) :=
  let more (c : ascii) : option N :=
    if continues c then Some (N_of_ascii c - 128)%N else None in
  match s with
  | [] => None
  | a :: s1 =>
      let n := N_of_ascii a in
      if (n <? 128)%N then Some (n, s1)
      else if ((194 <=? n) && (n <=? 223))%N then
        match s1 with
        | b :: s2 =>
            match more b with
            | Some x => Some ((n - 192) * 64 + x, s2)%N
            | None => None
            end
        | _ => None
        end
      else if ((224 <=? n) && (n <=? 239))%N then
        match s1 with
        | b :: c :: s3 =>
            match more b, more c with
            | Some x, Some y =>
                let p := ((n - 224) * 4096 + x * 64 + y)%N in
                if ((2048 <=? p) && negb ((55296 <=? p) && (p <=? 57343)))%N
                then Some (p, s3) else None
            | _, _ => None
            end
        | _ => None
        end
      else if ((240 <=? n) && (n <=? 244))%N then
        match s1 with
        | b :: c :: d :: s4 =>
            match more b, more c, more d with
            | Some x, Some y, Some z =>
                let p := ((n - 240) * 262144 + x * 4096 + y * 64 + z)%N in
                if ((65536 <=? p) && (p <=? 1114111))%N
                then Some (p, s4) else None
            | _, _, _ => None
            end
        | _ => None
        end
      else None
  end.

End Py.
Import Py.

(** ** [datetime.strptime(s, '%Y-%m-%d')] *)

Module Strptime.

(** The decimal digits of Unicode 14.0 (the characters [\d] matches and
    [int] reads) come in runs of ten, from the digit zero to the digit
    nine; these are the code points of the zeros, from U+0030 to
    U+1FBF0. *)
Definition decimal_zeros : list N :=
  [48; 1632; 1776; 1984; 2406; 2534; 2662; 2790; 2918; 3046; 3174; 3302;
   3430; 3558; 3664; 3792; 3872; 4160; 4240; 6112; 6160; 6470; 6608; 6784;
   6800; 6992; 7088; 7232; 7248; 42528; 43216; 43264; 43472; 43504; 43600;
   44016; 65296; 66720; 68912; 69734; 69872; 69942; 70096; 70384; 70736;
   70864; 71248; 71360; 71472; 71904; 72016; 72784; 73040; 73120; 92768;
   92864; 93008; 120782; 120792; 120802; 120812; 120822; 123200; 123632;
   125264; 130032]%N.

(** The value of a decimal digit. *)
Definition decimal_value (p : N) : option Z :=
  match find (fun zero => (zero <=? p) && (p <? zero + 10))%N decimal_zeros with
  | Some zero => Some (Z.of_N (p - zero))
  | None => None
  end.

(** [\d]: one decimal digit, of any script. *)
Definition decimal (s : list ascii) : option (Z * list ascii) :=
  match decode_char s with
  | Some (p, rest) =>
      match decimal_value p with
      | Some d => Some (d, rest)
      | None => None
      end
  | None => None
  end.

(** [[lo-hi]]: one of the digits from [lo] to [hi], below ten. *)
Definition digit_in (lo hi : Z) (c : ascii) : option Z :=
  let d := (Z.of_N (N_of_ascii c) - 48)%Z in
  if ((lo <=? d) && (d <=? hi))%Z then Some d else None.

(** One alternative of a directive's pattern: the value it reads and the
    rest of the input. *)
Definition alternative : Type := list ascii -> option (Z * list ascii).

(** Two characters: a fixed first one, then a digit within [lo..hi]. *)
Definition lead_then (lead : ascii) (tens lo hi : Z) : alternative :=
  fun s =>
    match s with
    | a :: b :: rest =>
        if Ascii.eqb a lead then
          match digit_in lo hi b with
          | Some d => Some (tens + d, rest)%Z
          | None => None
          end
        else None
    | _ => None
    end.

(** A fixed first character, then [\d]. *)
Definition lead_then_decimal (lead : ascii) (tens : Z) : alternative :=
  fun s =>
    match s with
    | a :: rest =>
        if Ascii.eqb a lead then
          match decimal rest with
          | Some (d, rest') => Some (tens + d, rest')%Z
          | None => None
          end
        else None
    | _ => None
    end.

(** A single digit within [1..9]. *)
Definition one_digit : alternative :=
  fun s =>
    match s with
    | a :: rest =>
        match digit_in 1 9 a with
        | Some d => Some (d, rest)
        | None => None
        end
    | _ => None
    end.

(** [%Y] is [\d\d\d\d]. *)
Definition year_pattern : alternative :=
  fun s =>
    match decimal s with
    | Some (x, s1) =>
        match decimal s1 with
        | Some (y, s2) =>
            match decimal s2 with
            | Some (z, s3) =>
                match decimal s3 with
                | Some (w, rest) =>
                    Some (1000 * x + 100 * y + 10 * z + w, rest)%Z
                | None => None
                end
            | None => None
            end
        | None => None
        end
    | None => None
    end.

(** [%m] is [1[0-2]|0[1-9]|[1-9]]. *)
Definition month_pattern : list alternative :=
  [ lead_then "1" 10 0 2; lead_then "0" 0 1 9; one_digit ].

(** [%d] is [3[0-1]|[1-2]\d|0[1-9]|[1-9]| [1-9]]. *)
Definition day_pattern : list alternative :=
  [ lead_then "3" 30 0 1; lead_then_decimal "1" 10; lead_then_decimal "2" 20;
    lead_then "0" 0 1 9; one_digit; lead_then " " 0 1 9 ].

(** Ordered choice with backtracking: the first alternative after which
    the rest of the pattern, [k], also matches. *)
Fixpoint first_match {R} (alts : list alternative)
    (k : Z -> list ascii -> option R) (s : list ascii) : option R :=
  match alts with
  | [] => None
  | alt :: alts' =>
      match alt s with
      | Some (v, rest) =>
          match k v rest with
          | Some r => Some r
          | None => first_match alts' k s
          end
      | None => first_match alts' k s
      end
  end.

Definition expect (c : ascii) (s : list ascii) : option (list ascii) :=
  match s with
  | a :: rest => if Ascii.eqb a c then Some rest else None
  | [] => None
  end.

(** The compiled format, matched at the start of the input: year, month,
    day and what is left over. *)
Definition format_regex (s : list ascii) : option (Z * Z * Z * list ascii) :=
  match year_pattern s with
  | Some (y, s1) =>
      match expect "-" s1 with
      | Some s2 =>
          first_match month_pattern
            (fun m s3 =>
               match expect "-" s3 with
               | Some s4 =>
                   first_match day_pattern
                     (fun d s5 => Some (y, m, d, s5)) s4
               | None => None
               end) s2
      | None => None
      end
  | None => None
  end.

Definition is_leap (y : Z) : bool :=
  ((y mod 4 =? 0) && (negb (y mod 100 =? 0) || (y mod 400 =? 0)))%Z.

Definition days_in_month (y m : Z) : Z :=
  if (m =? 2)%Z then (if is_leap y then 29 else 28)
  else if ((m =? 4) || (m =? 6) || (m =? 9) || (m =? 11))%Z then 30
  else 31.

(** The range check of the [date] constructor. *)
Definition valid_date (y m d : Z) : bool :=
  ((1 <=? y) && (y <=? 9999) && (1 <=? m) && (m <=? 12)
   && (1 <=? d) && (d <=? days_in_month y m))%Z.

(** [datetime.strptime(v, '%Y-%m-%d')], keeping the date read. *)
Definition strptime (v : value) : result (Z * Z * Z) :=
  match v with
  | VStr s =>
      match format_regex (list_ascii_of_string s) with
      | Some (y, m, d, []) =>
          if valid_date y m d then Ok (y, m, d) else Raise ValueError
      | Some (_, _, _, _ :: _) => Raise ValueError
      | None => Raise ValueError
      end
  | _ => Raise TypeError
  end.

End Strptime.
Import Strptime.

(** ** The part of pandas the script uses *)

Module Pandas.

(** A frame: its column labels and its rows, each row labelled by the
    columns (the [Series] that [iterrows] yields).  Cells hold the Python
    objects as they are; the unification of numeric dtypes within a
    column is not modelled, and [isin] and [merge] compare cells with
    [pd_eqb], under which [1], [1.0] and [True] are the same key. *)
Record DataFrame : Type := mkDataFrame
  { columns : list string;
    rows : list dict }.

Definition nan : value := VFloat FNaN.

Definition mem (c : string) (cols : list string) : bool :=
  existsb (String.eqb c) cols.

Fixpoint add_keys (cols keys : list string) : list string :=
  match keys with
  | [] => cols
  | k :: keys' => add_keys (if mem k cols then cols else cols ++ [k]) keys'
  end.

(** The union of the records' keys, in order of first appearance. *)
Definition union_keys (records : list dict) : list string :=
  fold_left (fun cols r => add_keys cols (map fst r)) records [].

(** A record completed to the given columns; an absent key reads NaN. *)
Definition fill (cols : list string) (r : dict) : dict :=
  map (fun c => (c, get_default c nan r)) cols.

(** [pd.DataFrame(records)] for a list of dicts. *)
Definition from_records (records : list dict) : DataFrame :=
  let cols := union_keys records in
  {| columns := cols; rows := map (fill cols) records |}.

(** The first label of [cols] that is not a column of the frame. *)
Definition missing_label (have cols : list string) : option string :=
  find (fun c => negb (mem c have)) cols.

(** [df[[c1, ..., cn]]] *)
Definition select_columns (df : DataFrame) (cols : list string)
  : result DataFrame :=
  match missing_label (columns df) cols with
  | Some c => Raise (KeyError c)
  | None =>
      Ok {| columns := cols;
            rows := map (fun r => map (fun c => (c, get c r)) cols) (rows df) |}
  end.

(** [df[c]], as the list of the column's cells. *)
Definition column (df : DataFrame) (c : string) : result (list value) :=
  if mem c (columns df) then Ok (map (get c) (rows df))
  else Raise (KeyError c).

(** [df.iterrows()], without the index. *)
Definition iterrows (df : DataFrame) : list dict := rows df.

Definition is_nan (v : value) : bool :=
  match v with
  | VFloat FNaN => true
  | _ => false
  end.

(** Equality of keys in pandas' hash tables: Python's [==], except that
    NaN matches NaN. *)
Definition pd_eqb (a b : value) : bool :=
  py_eqb a b || (is_nan a && is_nan b).

(** [series.isin(values)] *)
Definition isin (series values : list value) : result (list bool) :=
  if forallb hashable series && forallb hashable values
  then Ok (map (fun x => existsb (pd_eqb x) values) series)
  else Raise TypeError.

(** [~mask] *)
Definition invert (mask : list bool) : list bool := map negb mask.

(** [series == v] *)
Definition series_eq (series : list value) (v : value) : list bool :=
  map (fun x => py_eqb x v) series.

(** [df[mask]]: the rows at which the mask is true. *)
Definition select_rows (df : DataFrame) (mask : list bool) : DataFrame :=
  {| columns := columns df;
     rows := map fst (filter snd (combine (rows df) mask)) |}.

(** [df.empty]: no rows or no columns. *)
Definition empty (df : DataFrame) : bool :=
  match columns df, rows df with
  | [], _ | _, [] => true
  | _, _ => false
  end.

(** [df.drop(columns=cols)] *)
Definition drop_columns (df : DataFrame) (cols : list string)
  : result DataFrame :=
  match missing_label (columns df) cols with
  | Some c => Raise (KeyError c)
  | None =>
      let keep := fun c => negb (mem c cols) in
      Ok {| columns := filter keep (columns df);
            rows := map (filter (fun kv => keep (fst kv))) (rows df) |}
  end.

(** The key of a row for a join on the columns [on]. *)
Definition key_of (on : list string) (r : dict) : list value :=
  map (fun c => get c r) on.

Definition same_key (on : list string) (l r : dict) : bool :=
  forallb (fun c => pd_eqb (get c l) (get c r)) on.

(** Non-key columns present on both sides are renamed with a suffix. *)
Definition suffixed (on other : list string) (suffix c : string) : string :=
  if negb (mem c on) && mem c other then c ++ suffix else c.

Definition relabel (f : string -> string) (r : dict) : dict :=
  map (fun kv => (f (fst kv), snd kv)) r.

(** [left.merge(right, on=on, how='left', indicator=True)]: every row of
    [left], in order, once per row of [right] with the same key (marked
    [both]), or once on its own (marked [left_only]) when there is none. *)
Definition merge_left_indicator (left right : DataFrame) (on : list string)
  : result DataFrame :=
  match missing_label (columns left) on, missing_label (columns right) on with
  | Some c, _ | None, Some c => Raise (KeyError c)
  | None, None =>
      if mem "_merge" (columns left) || mem "_merge" (columns right)
      then Raise ValueError
      else if negb (forallb (fun r => forallb hashable (key_of on r))
                      (rows left ++ rows right))
      then Raise TypeError
      else
        let lname := suffixed on (columns right) "_x" in
        let rname := suffixed on (columns left) "_y" in
        let extra := filter (fun c => negb (mem c on)) (columns right) in
        let joined (l : dict) : list dict :=
          match filter (same_key on l) (rows right) with
          | [] =>
              [relabel lname l ++ map (fun c => (rname c, nan)) extra
                 ++ [("_merge", VStr "left_only")]]
          | matches =>
              map (fun r => relabel lname l
                              ++ map (fun c => (rname c, get c r)) extra
                              ++ [("_merge", VStr "both")]) matches
          end in
        Ok {| columns := map lname (columns left) ++ map rname extra ++ ["_merge"];
              rows := flat_map joined (rows left) |}
  end.

End Pandas.
Import Pandas.

(** ** Logging and the relational store *)

Inductive table : Type := movies | genres | movie_genres.

Inductive level : Type := DEBUG | INFO | WARNING | ERROR.

(** The messages the script logs, with the values they interpolate. *)
Inductive message : Type :=
| Starting_cleanup
| Cleanup_completed
| Duplicate_ignored (id : value)
| Failed_validation (id : value)
| Cleanup_error (id : value) (e : exn)
| Loaded (t : table) (count : nat)
| Nothing_to_load (t : table)
| Load_failed (e : exn).

(** The rows persisted in each table. *)
Record Store : Type := mkStore
  { movies_rows : list dict;
    genres_rows : list dict;
    movie_genres_rows : list dict }.

(** What a load does to the outside: queries, inserts and log records. *)
Inductive event : Type :=
| Query (t : table)
| Insert (t : table) (new_rows : list dict)
| Log (l : level) (m : message).

(** The store, the tables whose reads currently fail, and what has been
    done so far. *)
Record World : Type := mkWorld
  { store : Store;
    unreadable : list table;
    trace : list event }.

Definition table_eqb (a b : table) : bool :=
  match a, b with
  | movies, movies | genres, genres | movie_genres, movie_genres => true
  | _, _ => false
  end.

Definition table_rows (t : table) (s : Store) : list dict :=
  match t with
  | movies => movies_rows s
  | genres => genres_rows s
  | movie_genres => movie_genres_rows s
  end.

Definition append_rows (t : table) (new_rows : list dict) (s : Store) : Store :=
  match t with
  | movies =>
      {| movies_rows := movies_rows s ++ new_rows; genres_rows := genres_rows s;
         movie_genres_rows := movie_genres_rows s |}
  | genres =>
      {| movies_rows := movies_rows s; genres_rows := genres_rows s ++ new_rows;
         movie_genres_rows := movie_genres_rows s |}
  | movie_genres =>
      {| movies_rows := movies_rows s; genres_rows := genres_rows s;
         movie_genres_rows := movie_genres_rows s ++ new_rows |}
  end.

(** The columns a query on [t] selects: [SELECT id FROM movies],
    [SELECT id FROM genres], [SELECT movie_id, genre_id FROM movie_genres]. *)
Definition selected (t : table) : list string :=
  match t with
  | movies | genres => ["id"]
  | movie_genres => ["movie_id"; "genre_id"]
  end.

Definition select (t : table) (s : Store) : DataFrame :=
  {| columns := selected t;
     rows := map (fun r => map (fun c => (c, get c r)) (selected t))
               (table_rows t s) |}.

(** *** The constraints declared by [create_tables] *)

Definition int_of (v : value) : option Z :=
  match v with
  | VInt n => Some n
  | _ => None
  end.

Fixpoint distinct (l : list Z) : bool :=
  match l with
  | [] => true
  | x :: l' => negb (existsb (Z.eqb x) l') && distinct l'
  end.

Fixpoint all_some {A} (l : list (option A)) : option (list A) :=
  match l with
  | [] => Some []
  | Some a :: l' => option_map (cons a) (all_some l')
  | None :: _ => None
  end.

(** An integer primary key: present on every row and never repeated. *)
Definition primary_key_ok (c : string) (all_rows : list dict) : bool :=
  match all_some (map (fun r => int_of (get c r)) all_rows) with
  | Some ids => distinct ids
  | None => false
  end.

Definition pair_of (r : dict) : option (Z * Z) :=
  match int_of (get "movie_id" r), int_of (get "genre_id" r) with
  | Some m, Some g => Some (m, g)
  | _, _ => None
  end.

Fixpoint distinct_pairs (l : list (Z * Z)) : bool :=
  match l with
  | [] => true
  | (m, g) :: l' =>
      negb (existsb (fun p => (fst p =? m)%Z && (snd p =? g)%Z) l')
      && distinct_pairs l'
  end.

Definition references (ids : list dict) (k : Z) : bool :=
  existsb (fun r => match int_of (get "id" r) with
                    | Some i => (i =? k)%Z
                    | None => false
                    end) ids.

(** Whether the store takes [new_rows] into [t]: the primary keys, the
    unique index [Idx_movie_genre] and the two foreign keys. *)
Definition schema_accepts (t : table) (s : Store) (new_rows : list dict) : bool :=
  match t with
  | movies => primary_key_ok "id" (movies_rows s ++ new_rows)
  | genres => primary_key_ok "id" (genres_rows s ++ new_rows)
  | movie_genres =>
      match all_some (map pair_of (movie_genres_rows s ++ new_rows)) with
      | Some pairs =>
          distinct_pairs pairs
          && forallb (fun p => references (movies_rows s) (fst p)
                               && references (genres_rows s) (snd p)) pairs
      | None => false
      end
  end.

(** ** [CineDataEtl] *)

Notation "x <- c1 ;; c2" := (Py.bind c1 (fun x => c2))
  (at level 61, c1 at next level, right associativity).

(** *** Validation and de-duplication *)

Definition check_essential_fields (movie : dict) : bool :=
  let essential_fields := ["title"; "release_date"] in
  forallb (fun field => truthy (get field movie)) essential_fields.

Definition check_release_date (movie : dict) : result bool :=
  match strptime (get "release_date" movie) with
  | Ok _ => Ok true
  | Raise TypeError | Raise ValueError => Ok false
  | Raise e => Raise e
  end.

Definition check_numeric_fields (movie : dict) : bool :=
  let numeric_fields := ["vote_average"; "vote_count"; "popularity"] in
  forallb (fun field => isinstance_int_float (get field movie)) numeric_fields.

Definition clean_overview (movie : dict) : result value :=
  let text := get_default "overview" (VStr EmptyString) movie in
  if truthy text then
    match text with
    | VStr s => Ok (VStr (strip s))
    | _ => Raise AttributeError
    end
  else Ok (VStr EmptyString).

Record cleanup_state : Type := mkCleanup
  { cleaned_data : list dict;
    seen_ids : list value;
    cleanup_log : list (level * message) }.

Definition logged (l : level) (m : message) (st : cleanup_state) : cleanup_state :=
  {| cleaned_data := cleaned_data st; seen_ids := seen_ids st;
     cleanup_log := cleanup_log st ++ [(l, m)] |}.

(** The [try] block of the loop, for one [dataset]. *)
Definition cleanup_try (st : cleanup_state) (dataset : dict)
  : result cleanup_state :=
  id <- getitem "id" dataset ;;
  duplicate <- set_contains (seen_ids st) id ;;
  if duplicate then Ok (logged DEBUG (Duplicate_ignored id) st)
  else
    valid_date <- check_release_date dataset ;;
    if negb (forallb (fun b => b)
               [check_essential_fields dataset; valid_date;
                check_numeric_fields dataset])
    then Ok (logged WARNING (Failed_validation id) st)
    else
      overview <- clean_overview dataset ;;
      let dataset := setitem "overview" overview dataset in
      Ok {| cleaned_data := cleaned_data st ++ [dataset];
            seen_ids := seen_ids st ++ [id];
            cleanup_log := cleanup_log st |}.

(** One turn of the loop: the [try] block, or the [except] branch. *)
Definition cleanup_step (st : cleanup_state) (dataset : dict) : cleanup_state :=
  match cleanup_try st dataset with
  | Ok st' => st'
  | Raise e =>
      logged ERROR
        (Cleanup_error (get_default "id" (VStr "Unknown") dataset) e) st
  end.

Definition cleanup_run (raw_data : list dict) : cleanup_state :=
  let st := {| cleaned_data := []; seen_ids := [];
               cleanup_log := [(INFO, Starting_cleanup)] |} in
  logged INFO Cleanup_completed (fold_left cleanup_step raw_data st).

Definition cleanup_data (raw_data : list dict) : list dict :=
  cleaned_data (cleanup_run raw_data).

(** *** Shaping *)

Definition movie_columns : list string :=
  ["id"; "title"; "overview"; "release_date"; "popularity"; "vote_average";
   "vote_count"].

(** The inner loop: one link per genre id of [row]. *)
Fixpoint append_links (row : dict) (genre_ids : list value)
    (movie_genres_list : list dict) : result (list dict) :=
  match genre_ids with
  | [] => Ok movie_genres_list
  | genre_id :: genre_ids' =>
      movie_id <- getitem "id" row ;;
      append_links row genre_ids'
        (movie_genres_list ++ [[("movie_id", movie_id); ("genre_id", genre_id)]])
  end.

(** The outer loop over [df_movies.iterrows()]. *)
Fixpoint collect_links (movie_rows : list dict) (movie_genres_list : list dict)
  : result (list dict) :=
  match movie_rows with
  | [] => Ok movie_genres_list
  | row :: movie_rows' =>
      cell <- getitem "genre_ids" row ;;
      genre_ids <- iter cell ;;
      movie_genres_list <- append_links row genre_ids movie_genres_list ;;
      collect_links movie_rows' movie_genres_list
  end.

Definition filter_data (cleaned_data genres_list : list dict)
  : result (DataFrame * DataFrame * DataFrame) :=
  let df_movies := from_records cleaned_data in
  df_movies_filtered <- select_columns df_movies movie_columns ;;
  let df_genres := from_records genres_list in
  movie_genres_list <- collect_links (iterrows df_movies) [] ;;
  let df_movie_genres := from_records movie_genres_list in
  Ok (df_movies_filtered, df_genres, df_movie_genres).

(** *** Loading *)

(** A computation that reads and writes the store, logs, and may raise;
    what it did before raising stays done. *)
Definition Load (A : Type) : Type := World -> result A * World.

Definition ret {A} (a : A) : Load A := fun w => (Ok a, w).

Definition and_then {A B} (c : Load A) (k : A -> Load B) : Load B :=
  fun w =>
    match c w with
    | (Ok a, w') => k a w'
    | (Raise e, w') => (Raise e, w')
    end.

Definition lift {A} (r : result A) : Load A := fun w => (r, w).

Definition emit (e : event) (w : World) : World :=
  {| store := store w; unreadable := unreadable w; trace := trace w ++ [e] |}.

Definition logging (l : level) (m : message) : Load unit :=
  fun w => (Ok tt, emit (Log l m) w).

Declare Scope load_scope.
Delimit Scope load_scope with load.
Notation "x <- c1 ;; c2" := (and_then c1 (fun x => c2))
  (at level 61, c1 at next level, right associativity) : load_scope.
Notation "c1 ;; c2" := (and_then c1 (fun _ => c2))
  (at level 61, right associativity) : load_scope.

(** [pd.read_sql] of the key columns of [t]. *)
Definition read_sql (t : table) : Load DataFrame :=
  fun w =>
    let w := emit (Query t) w in
    if existsb (table_eqb t) (unreadable w)
    then (Raise DatabaseError, w)
    else (Ok (select t (store w)), w).

Section Loading.

(** Whether the store takes an insert; [schema_accepts] is the answer of
    a store created by [create_tables]. *)
Variable accepts : table -> Store -> list dict -> bool.

(** [df.to_sql(t, engine, if_exists='append', index=False)]: one
    transaction, so a refused insert leaves the table as it was. *)
Definition to_sql (df : DataFrame) (t : table) : Load unit :=
  fun w =>
    let w := emit (Insert t (rows df)) w in
    if accepts t (store w) (rows df)
    then (Ok tt, {| store := append_rows t (rows df) (store w);
                    unreadable := unreadable w; trace := trace w |})
    else (Raise DatabaseError, w).

(** The [try] block of [load_data_to_db]. *)
Definition load_try (movies_df genres_df movie_genres_df : DataFrame)
  : Load unit :=
  (existing <- read_sql movies ;;
   existing_movie_ids <- lift (column existing "id") ;;
   ids <- lift (column movies_df "id") ;;
   known <- lift (isin ids existing_movie_ids) ;;
   let new_movies_df := select_rows movies_df (invert known) in
   (if negb (empty new_movies_df) then
      to_sql new_movies_df movies ;;
      logging INFO (Loaded movies (List.length (rows new_movies_df)))
    else logging INFO (Nothing_to_load movies)) ;;
   existing <- read_sql genres ;;
   existing_genre_ids <- lift (column existing "id") ;;
   ids <- lift (column genres_df "id") ;;
   known <- lift (isin ids existing_genre_ids) ;;
   let new_genres_df := select_rows genres_df (invert known) in
   (if negb (empty new_genres_df) then
      to_sql new_genres_df genres ;;
      logging INFO (Loaded genres (List.length (rows new_genres_df)))
    else logging INFO (Nothing_to_load genres)) ;;
   existing_movie_genres <- read_sql movie_genres ;;
   new_movie_genres_df <-
     lift (merge_left_indicator movie_genres_df existing_movie_genres
             ["movie_id"; "genre_id"]) ;;
   marks <- lift (column new_movie_genres_df "_merge") ;;
   let new_movie_genres_df :=
     select_rows new_movie_genres_df (series_eq marks (VStr "left_only")) in
   new_movie_genres_df <- lift (drop_columns new_movie_genres_df ["_merge"]) ;;
   if negb (empty new_movie_genres_df) then
     to_sql new_movie_genres_df movie_genres ;;
     logging INFO (Loaded movie_genres (List.length (rows new_movie_genres_df)))
   else logging INFO (Nothing_to_load movie_genres))%load.

(** [load_data_to_db]: the [try] block, and the [except] branch that logs
    whatever it raised. *)
Definition load_data_to_db (movies_df genres_df movie_genres_df : DataFrame)
    (w : World) : World :=
  match load_try movies_df genres_df movie_genres_df w with
  | (Ok _, w') => w'
  | (Raise e, w') => emit (Log ERROR (Load_failed e)) w'
  end.

End Loading.

(** ** Notions used in the statements *)

(** [l] is [l'] with some elements left out, the others in their order. *)
Inductive subseq {A : Type} : list A -> list A -> Prop :=
| subseq_nil : subseq [] []
| subseq_keep x l l' : subseq l l' -> subseq (x :: l) (x :: l')
| subseq_drop x l l' : subseq l l' -> subseq l (x :: l').

(** Every row of the frame carries exactly the frame's columns. *)
Definition wf_frame (df : DataFrame) : Prop :=
  Forall (fun r => map fst r = columns df) (rows df).

(** *** Validation, in the words of the specification *)

(** A number in the strict sense: an integer or a float, not a boolean. *)
Definition strictly_numeric (v : value) : bool :=
  match v with
  | VInt _ | VFloat _ => true
  | _ => false
  end.

(** One of the digits from 0 to 9, and its value. *)
Definition ascii_digit (c : ascii) : option Z :=
  let n := Z.of_N (N_of_ascii c) in
  if ((48 <=? n) && (n <=? 57))%Z then Some (n - 48)%Z else None.

(** The form YYYY-MM-DD: four digits, a hyphen, two digits, a hyphen and
    two digits; the year, month and day a text of that form writes. *)
Definition yyyy_mm_dd (s : string) : option (Z * Z * Z) :=
  match list_ascii_of_string s with
  | [y1; y2; y3; y4; h1; m1; m2; h2; d1; d2] =>
      match ascii_digit y1, ascii_digit y2, ascii_digit y3, ascii_digit y4,
            ascii_digit m1, ascii_digit m2, ascii_digit d1, ascii_digit d2
      with
      | Some a, Some b, Some c, Some d, Some e, Some f, Some g, Some h =>
          if Ascii.eqb h1 "-" && Ascii.eqb h2 "-"
          then Some (1000 * a + 100 * b + 10 * c + d, 10 * e + f,
                     10 * g + h)%Z
          else None
      | _, _, _, _, _, _, _, _ => None
      end
  | _ => None
  end.

(** The record as [cleanup_data] keeps it: [overview] normalised. *)
Definition normalized (dataset : dict) : dict :=
  match clean_overview dataset with
  | Ok overview => setitem "overview" overview dataset
  | Raise _ => dataset
  end.

(** A record that gets through the checks of [cleanup_data], whatever has
    been seen before it: its id can be read and hashed, the three checks
    pass and its overview can be cleaned. *)
Definition acceptable (dataset : dict) : bool :=
  match getitem "id" dataset with
  | Ok id =>
      hashable id
      && check_essential_fields dataset
      && match check_release_date dataset with Ok b => b | Raise _ => false end
      && check_numeric_fields dataset
      && match clean_overview dataset with Ok _ => true | Raise _ => false end
  | Raise _ => false
  end.

(** Keeping the first record of every identifier: a record is dropped
    when its identifier is one kept before it, as [in] finds it. *)
Fixpoint keep_first (seen : list value) (records : list dict) : list dict :=
  match records with
  | [] => []
  | r :: records' =>
      if existsb (same_element (get "id" r)) seen then keep_first seen records'
      else r :: keep_first (seen ++ [get "id" r]) records'
  end.

(** *** Shaping, in the words of the specification *)

Definition has_key (k : string) (r : dict) : bool :=
  match lookup k r with
  | Some _ => true
  | None => false
  end.

(** The genre ids attached to a movie record. *)
Definition genre_list (r : dict) : list value :=
  match get "genre_ids" r with
  | VList l => l
  | _ => []
  end.

(** A record with the seven movie attributes and a list of genre ids. *)
Definition shapeable (r : dict) : bool :=
  forallb (fun c => has_key c r) movie_columns
  && match lookup "genre_ids" r with
     | Some (VList _) => true
     | _ => false
     end.

(** One link row per genre id of the movie, in the order of its list. *)
Definition links_of (r : dict) : list dict :=
  map (fun g => [("movie_id", get "id" r); ("genre_id", g)]) (genre_list r).

(** *** Reconciliation, in the words of the specification *)

(** The identifiers persisted in [t]. *)
Definition persisted_ids (t : table) (s : Store) : list value :=
  map (get "id") (table_rows t s).

(** [df[~df['id'].isin(existing_ids)]], the delta of the movies and of the
    genres. *)
Definition new_by_id (df : DataFrame) (existing_ids : list value)
  : result DataFrame :=
  ids <- column df "id" ;;
  known <- isin ids existing_ids ;;
  Ok (select_rows df (invert known)).

Definition link_key : list string := ["movie_id"; "genre_id"].

(** The delta of the links: the merge with the persisted pairs, the rows
    marked [left_only], the marker column dropped. *)
Definition new_by_pair (df existing : DataFrame) : result DataFrame :=
  merged <- merge_left_indicator df existing link_key ;;
  marks <- column merged "_merge" ;;
  drop_columns (select_rows merged (series_eq marks (VStr "left_only")))
    ["_merge"].

(** A candidate row whose pair is not among the persisted rows. *)
Definition pair_is_new (persisted : list dict) (r : dict) : bool :=
  negb (existsb (same_key link_key r) persisted).

(** The keys [merge] hashes: those of the candidates and those of the
    persisted rows. *)
Definition keys_hashable (df : DataFrame) (persisted : list dict) : bool :=
  forallb (fun r => forallb hashable (key_of link_key r))
    (rows df ++ persisted).

(** The rows of the merged frame that come from the candidate [l]. *)
Definition marked (persisted : list dict) (l : dict) : list dict :=
  match filter (same_key link_key l) persisted with
  | [] => [l ++ [("_merge", VStr "left_only")]]
  | matches => map (fun _ : dict => l ++ [("_merge", VStr "both")]) matches
  end.

(** A candidate row whose identifier is not among the persisted ones. *)
Definition id_is_new (existing_ids : list value) (r : dict) : bool :=
  negb (existsb (pd_eqb (get "id" r)) existing_ids).

(** [reconcile]: the new rows of table [t] against the store [s]. *)
Definition reconcile (movies_df genres_df movie_genres_df : DataFrame)
    (t : table) (s : Store) : result DataFrame :=
  match t with
  | movies => new_by_id movies_df (persisted_ids movies s)
  | genres => new_by_id genres_df (persisted_ids genres s)
  | movie_genres => new_by_pair movie_genres_df (select movie_genres s)
  end.

(** The read of the keys of [t] succeeds. *)
Definition readable (t : table) (w : World) : bool :=
  negb (existsb (table_eqb t) (unreadable w)).

(** The position of a table in the order of the load. *)
Definition rank (t : table) : nat :=
  match t with
  | movies => 0
  | genres => 1
  | movie_genres => 2
  end.

(** The inserts into [t] among some events. *)
Definition inserts_into (t : table) (evs : list event) : list (list dict) :=
  flat_map (fun e => match e with
                     | Insert t' new_rows =>
                         if table_eqb t t' then [new_rows] else []
                     | _ => []
                     end) evs.

(** *** The load, table by table *)

Section Stages.

Variable accepts : table -> Store -> list dict -> bool.
Variables movies_df genres_df movie_genres_df : DataFrame.

(** The block of [load_try] for table [t] as one step: query the keys,
    reconcile, insert what is new. *)
Definition sync (t : table) : Load unit :=
  fun w =>
    let w := emit (Query t) w in
    if existsb (table_eqb t) (unreadable w) then (Raise DatabaseError, w)
    else
      match reconcile movies_df genres_df movie_genres_df t (store w) with
      | Raise e => (Raise e, w)
      | Ok new_df =>
          if negb (empty new_df) then
            (to_sql accepts new_df t ;;
             logging INFO (Loaded t (List.length (rows new_df))))%load w
          else logging INFO (Nothing_to_load t) w
      end.

(** The five ways the block of table [t] can go from the world [w]. *)
Inductive sync_outcome (t : table) (w : World) : result unit * World -> Prop :=
| sync_unreadable :
    existsb (table_eqb t) (unreadable w) = true ->
    sync_outcome t w (Raise DatabaseError, emit (Query t) w)
| sync_raised e :
    existsb (table_eqb t) (unreadable w) = false ->
    reconcile movies_df genres_df movie_genres_df t (store w) = Raise e ->
    sync_outcome t w (Raise e, emit (Query t) w)
| sync_nothing new_df :
    existsb (table_eqb t) (unreadable w) = false ->
    reconcile movies_df genres_df movie_genres_df t (store w) = Ok new_df ->
    empty new_df = true ->
    sync_outcome t w
      (Ok tt, emit (Log INFO (Nothing_to_load t)) (emit (Query t) w))
| sync_refused new_df :
    existsb (table_eqb t) (unreadable w) = false ->
    reconcile movies_df genres_df movie_genres_df t (store w) = Ok new_df ->
    empty new_df = false ->
    accepts t (store w) (rows new_df) = false ->
    sync_outcome t w
      (Raise DatabaseError, emit (Insert t (rows new_df)) (emit (Query t) w))
| sync_loaded new_df :
    existsb (table_eqb t) (unreadable w) = false ->
    reconcile movies_df genres_df movie_genres_df t (store w) = Ok new_df ->
    empty new_df = false ->
    accepts t (store w) (rows new_df) = true ->
    sync_outcome t w
      (Ok tt,
       {| store := append_rows t (rows new_df) (store w);
          unreadable := unreadable w;
          trace := trace w
                   ++ [Query t; Insert t (rows new_df);
                       Log INFO (Loaded t (List.length (rows new_df)))] |}).

(** What a run from [w] to [w'], with the events [evs], did to table [t]:
    nothing, or one insert of the rows reconciled against [w], which the
    store took or refused. *)
Definition table_effect (t : table) (w w' : World) (evs : list event) : Prop :=
  (table_rows t (store w') = table_rows t (store w)
   /\ inserts_into t evs = [])
  \/ exists new_df,
       reconcile movies_df genres_df movie_genres_df t (store w) = Ok new_df
       /\ empty new_df = false
       /\ inserts_into t evs = [rows new_df]
       /\ (table_rows t (store w') = table_rows t (store w) ++ rows new_df
           \/ table_rows t (store w') = table_rows t (store w)).

(** The run from [w] to [w'] has gone through the tables before position
    [k] and has not touched the others. *)
Definition loaded_upto (k : nat) (w w' : World) : Prop :=
  unreadable w' = unreadable w
  /\ exists evs,
       trace w' = trace w ++ evs
       /\ forall t,
            table_effect t w w' evs
            /\ (k <= rank t ->
                table_rows t (store w') = table_rows t (store w)
                /\ inserts_into t evs = []).

End Stages.

(** ** Sample data *)

Definition sample_movie (id : Z) (release_date overview vote_average : value)
    (genre_ids : list Z) : dict :=
  [("adult", VBool false); ("genre_ids", VList (map VInt genre_ids));
   ("id", VInt id); ("overview", overview);
   ("popularity", VFloat (FFin 4321 (-5))); ("release_date", release_date);
   ("title", VStr "Heat"); ("vote_average", vote_average);
   ("vote_count", VInt 812)].

Definition sample_genres : list dict :=
  [[("id", VInt 10); ("name", VStr "Action")];
   [("id", VInt 20); ("name", VStr "Drama")]].

Definition link (movie_id genre_id : Z) : dict :=
  [("movie_id", VInt movie_id); ("genre_id", VInt genre_id)].

Definition links_frame (pairs : list (Z * Z)) : DataFrame :=
  {| columns := link_key;
     rows := map (fun p => link (fst p) (snd p)) pairs |}.

Definition fresh_cleanup : cleanup_state :=
  {| cleaned_data := []; seen_ids := []; cleanup_log := [] |}.

Definition empty_store : Store :=
  {| movies_rows := []; genres_rows := []; movie_genres_rows := [] |}.


(** ** Extraction: [build_url], [extract_data], [collect_data] *)

From Stdlib Require DecimalString DecimalZ.

(** What a call into [requests] can raise: a [requests.RequestException]
    (or an instance of one of its subclasses), which [extract_data]
    catches, or anything else, which it lets through. *)
Inductive raised : Type :=
| RequestException
| Other (e : exn).

Inductive attempt (A : Type) : Type :=
| Returned (a : A)
| Raised (r : raised).
Arguments Returned {A} a.
Arguments Raised {A} r.

(** A response: its status code and what [response.json()] does. *)
Record response : Type := mkResponse
  { status_code : Z;
    json : attempt value }.

(** The messages of the extraction, with the values they interpolate; the
    duration in the response-time message is left out. *)
Inductive fetch_message : Type :=
| Status_ok
| Not_found
| Server_error
| Unexpected_status (code : Z)
| Response_time (url : string)
| Extracted (url : string)
| Network_error (url : string)
| Collecting (first_page last_page : Z)
| Collected (page : Z)
| Nothing_collected (page : Z).

(** What the extraction does to the outside: requests and log records. *)
Inductive fetch_event : Type :=
| Request (url : string)
| Note (l : level) (m : fetch_message).

Definition base_url : string := "https://api.themoviedb.org/3".

(** [str(n)] for an [int]. *)
Definition str_of_int (n : Z) : string :=
  DecimalString.NilZero.string_of_int (Z.to_int n).

(** [range(first_page, last_page + 1)] *)
Definition pages (first_page last_page : Z) : list Z :=
  map (fun i => (first_page + Z.of_nat i)%Z)
    (seq 0 (Z.to_nat (last_page + 1 - first_page))).

(** [v.get(k, default)]: only a dict, among the objects JSON decodes to,
    has a [get]. *)
Definition method_get (v : value) (k : string) (default : value)
  : result value :=
  match v with
  | VDict d => Ok (get_default k default d)
  | _ => Raise AttributeError
  end.

(** [v[k]] for a string [k]: the lookup of a dict; [None], numbers, strings
    and lists take no string index. *)
Definition subscript (v : value) (k : string) : result value :=
  match v with
  | VDict d => getitem k d
  | _ => Raise TypeError
  end.

(** The requests among some events, in order. *)
Definition requests (evs : list fetch_event) : list string :=
  flat_map (fun e => match e with
                     | Request url => [url]
                     | Note _ _ => []
                     end) evs.

Section Extraction.

(** The remote end: its state, and [requests.get], which may change it. *)
Variable server : Type.
Variable requests_get : string -> server -> attempt response * server.

(** [self.api_key], that is [os.getenv('API_KEY')]: [None] when unset. *)
Variable api_key : option string.

(** The remote end and what has been done so far. *)
Record Net : Type := mkNet
  { remote : server;
    fetch_log : list fetch_event }.

Definition Fetch (A : Type) : Type := Net -> result A * Net.

Definition note (l : level) (m : fetch_message) (n : Net) : Net :=
  {| remote := remote n; fetch_log := fetch_log n ++ [Note l m] |}.

Definition check_status_code (response : response) (n : Net) : bool * Net :=
  if (status_code response =? 200)%Z then (true, note INFO Status_ok n)
  else if (status_code response =? 404)%Z then (false, note ERROR Not_found n)
  else if (status_code response =? 500)%Z then
    (false, note ERROR Server_error n)
  else (false, note ERROR (Unexpected_status (status_code response)) n).

(** [page] is an [int], as [collect_data] passes it, or [None]. *)
Definition build_url (endpoint : string) (page : option Z) : string :=
  let url :=
    (base_url ++ endpoint ++ "?api_key="
       ++ match api_key with
          | Some key => key
          | None => "None"
          end)%string in
  match page with
  | Some page => (url ++ "&page=" ++ str_of_int page)%string
  | None => url
  end.

(** [extract_data]; its result is [None] when it has nothing to return. *)
Definition extract_data (endpoint : string) (page : option Z) : Fetch value :=
  fun n =>
    let url := build_url endpoint page in
    let (reply, remote') := requests_get url (remote n) in
    let n := {| remote := remote';
                fetch_log := fetch_log n ++ [Request url] |} in
    match reply with
    | Raised RequestException => (Ok VNone, note ERROR (Network_error url) n)
    | Raised (Other e) => (Raise e, n)
    | Returned response =>
        let n := note DEBUG (Response_time url) n in
        let (ok, n) := check_status_code response n in
        if ok then
          let n := note INFO (Extracted url) n in
          match json response with
          | Returned body => (Ok body, n)
          | Raised RequestException =>
              (Ok VNone, note ERROR (Network_error url) n)
          | Raised (Other e) => (Raise e, n)
          end
        else (Ok VNone, n)
    end.

(** The loop of [collect_data] over the pages left. *)
Fixpoint collect_pages (endpoint : string) (todo : list Z) (data : list value)
  : Fetch (list value) :=
  fun n =>
    match todo with
    | [] => (Ok data, n)
    | page :: todo' =>
        match extract_data endpoint (Some page) n with
        | (Raise e, n) => (Raise e, n)
        | (Ok response, n) =>
            if truthy response then
              let n := note INFO (Collected page) n in
              match (items <- method_get response "results" (VList []) ;;
                     iter items) with
              | Raise e => (Raise e, n)
              | Ok items => collect_pages endpoint todo' (data ++ items) n
              end
            else
              collect_pages endpoint todo' data
                (note WARNING (Nothing_collected page) n)
        end
    end.

Definition collect_data (endpoint : string) (first_page last_page : Z)
  : Fetch (list value) :=
  fun n =>
    collect_pages endpoint (pages first_page last_page) []
      (note INFO (Collecting first_page last_page) n).

(** The two extraction statements of the script: the popular movies of
    pages 1 to 25, then the genre catalogue. *)
Definition extract_stage : Fetch (list value * value) :=
  fun n =>
    match collect_data "/movie/popular" 1 25 n with
    | (Raise e, n) => (Raise e, n)
    | (Ok popular, n) =>
        match extract_data "/genre/movie/list" None n with
        | (Raise e, n) => (Raise e, n)
        | (Ok catalogue, n) =>
            (genres_list <- subscript catalogue "genres" ;;
             Ok (popular, genres_list), n)
        end
    end.

End Extraction.

Arguments remote {server} n.
Arguments fetch_log {server} n.

(** ** Further notions used in the statements *)

(** The tables queried among some events, in order. *)
Definition queries (evs : list event) : list table :=
  flat_map (fun e => match e with
                     | Query t => [t]
                     | _ => []
                     end) evs.

(** The failures of a load logged among some events. *)
Definition failures (evs : list event) : list exn :=
  flat_map (fun e => match e with
                     | Log ERROR (Load_failed e) => [e]
                     | _ => []
                     end) evs.

(** What [extract_data] returns, by the reply it gets. *)
Definition outcome (reply : attempt response) : result value :=
  match reply with
  | Raised RequestException => Ok VNone
  | Raised (Other e) => Raise e
  | Returned response =>
      if (status_code response =? 200)%Z then
        match json response with
        | Returned body => Ok body
        | Raised RequestException => Ok VNone
        | Raised (Other e) => Raise e
        end
      else Ok VNone
  end.

(** A reply after which [extract_data] returns and [collect_data] goes
    on: no exception other than a [RequestException], and a body with
    status 200 that is falsy, or a dict whose [results], if any, can be
    iterated. *)
Definition harmless (reply : attempt response) : bool :=
  match reply with
  | Raised RequestException => true
  | Raised (Other _) => false
  | Returned response =>
      if (status_code response =? 200)%Z then
        match json response with
        | Raised RequestException => true
        | Raised (Other _) => false
        | Returned body =>
            negb (truthy body)
            || match body with
               | VDict d =>
                   match iter (get_default "results" (VList []) d) with
                   | Ok _ => true
                   | Raise _ => false
                   end
               | _ => false
               end
        end
      else true
  end.

(** ** Sample remote ends *)

(** One that answers no request. *)
Definition unreachable (url : string) (s : unit) : attempt response * unit :=
  (Raised RequestException, s).

(** One that counts the requests it gets: the second fails, every other
    one is answered with one record. *)
Definition flaky (url : string) (served : nat) : attempt response * nat :=
  (if Nat.eqb served 1 then Raised RequestException
   else Returned {| status_code := 200;
                    json := Returned
                              (VDict [("results",
                                       VList [VInt (Z.of_nat served)])]) |},
   S served).

(** One that answers every request with a JSON array. *)
Definition listing (url : string) (s : unit) : attempt response * unit :=
  (Returned {| status_code := 200; json := Returned (VList [VInt 1]) |}, s).

(** * Properties *)
(** ** Python objects *)

Lemma float_eqb_refl (m e : Z) : float_eqb (FFin m e) (FFin m e) = true.
Proof.
  simpl. rewrite Z.leb_refl, Z.sub_diag. simpl.
  apply Z.eqb_eq. lia.
Qed.

Lemma pd_eqb_refl (v : value) : hashable v = true -> pd_eqb v v = true.
Proof.
  destruct v as [| b | n | [m e | s |] | s | l | d];
    cbv [pd_eqb py_eqb as_number hashable is_nan]; intros H;
    try discriminate; try rewrite float_eqb_refl; try reflexivity.
  - destruct s; reflexivity.
  - rewrite String.eqb_refl. reflexivity.
Qed.

Lemma lookup_setitem_same (k : string) (v : value) (d : dict) :
  lookup k (setitem k v d) = Some v.
Proof.
  induction d as [| [k' v'] d IH]; simpl.
  - rewrite String.eqb_refl. reflexivity.
  - destruct (String.eqb k k') eqn:E; simpl; rewrite E; auto.
Qed.

Lemma lookup_setitem_other (k k' : string) (v : value) (d : dict) :
  String.eqb k' k = false -> lookup k' (setitem k v d) = lookup k' d.
Proof.
  intros Hne. induction d as [| [k0 v0] d IH]; simpl.
  - rewrite Hne. reflexivity.
  - destruct (String.eqb k k0) eqn:E; simpl.
    + apply String.eqb_eq in E. subst k0. rewrite Hne. reflexivity.
    + rewrite IH. reflexivity.
Qed.

Lemma get_setitem_other (k k' : string) (v : value) (d : dict) :
  String.eqb k' k = false -> get k' (setitem k v d) = get k' d.
Proof.
  intros H. unfold get, get_default. rewrite lookup_setitem_other by exact H.
  reflexivity.
Qed.

Lemma getitem_get (k : string) (d : dict) (v : value) :
  getitem k d = Ok v -> get k d = v.
Proof.
  unfold getitem, get, get_default. destruct (lookup k d); congruence.
Qed.

(** ** [cleanup_data] *)

Lemma check_release_date_total (movie : dict) :
  exists b, check_release_date movie = Ok b.
Proof.
  unfold check_release_date, strptime.
  destruct (get "release_date" movie); eauto.
  destruct (format_regex _) as [[[[y m] d] [| c rest]] |]; eauto.
  destruct (valid_date y m d); eauto.
Qed.

(** What one turn of the loop does to the records kept and the ids seen. *)
Lemma cleanup_step_kept (st : cleanup_state) (dataset : dict) :
  acceptable dataset = true ->
  existsb (same_element (get "id" dataset)) (seen_ids st) = false ->
  cleanup_step st dataset =
    {| cleaned_data := cleaned_data st ++ [normalized dataset];
       seen_ids := seen_ids st ++ [get "id" dataset];
       cleanup_log := cleanup_log st |}.
Proof.
  unfold acceptable, cleanup_step, cleanup_try, normalized, set_contains.
  destruct (getitem "id" dataset) as [id |] eqn:Hid; [| discriminate].
  rewrite (getitem_get _ _ _ Hid). simpl.
  destruct (hashable id); [| discriminate]. simpl.
  intros Hacc Hseen. rewrite Hseen.
  destruct (check_release_date dataset) as [b |]; simpl.
  - destruct (check_essential_fields dataset); [| discriminate].
    destruct b; [| discriminate].
    destruct (check_numeric_fields dataset); [| discriminate].
    simpl in *.
    destruct (clean_overview dataset); [reflexivity | discriminate].
  - rewrite andb_false_r in Hacc. discriminate.
Qed.

Lemma cleanup_step_dropped (st : cleanup_state) (dataset : dict) :
  acceptable dataset = false \/
  existsb (same_element (get "id" dataset)) (seen_ids st) = true ->
  cleaned_data (cleanup_step st dataset) = cleaned_data st /\
  seen_ids (cleanup_step st dataset) = seen_ids st.
Proof.
  unfold acceptable, cleanup_step, cleanup_try, set_contains.
  destruct (getitem "id" dataset) as [id |] eqn:Hid; simpl; [| auto].
  rewrite (getitem_get _ _ _ Hid).
  destruct (hashable id); simpl; [| auto].
  destruct (existsb (same_element id) (seen_ids st)); simpl; [auto |].
  destruct (check_release_date dataset) as [b |]; simpl; [| auto].
  destruct (check_essential_fields dataset); simpl; [| auto].
  destruct b; simpl; [| auto].
  destruct (check_numeric_fields dataset); simpl; [| auto].
  destruct (clean_overview dataset); simpl; [| auto].
  intros [H | H]; discriminate.
Qed.

(** The loop keeps the first acceptable record of each identifier. *)
Lemma cleanup_loop (raw_data : list dict) : forall st,
  cleaned_data (fold_left cleanup_step raw_data st) =
    cleaned_data st
    ++ map normalized (keep_first (seen_ids st) (filter acceptable raw_data)).
Proof.
  induction raw_data as [| d raw IH]; intros st; simpl.
  - rewrite app_nil_r. reflexivity.
  - rewrite IH. destruct (acceptable d) eqn:Hacc; simpl.
    + destruct (existsb (same_element (get "id" d)) (seen_ids st)) eqn:Hseen.
      * destruct (cleanup_step_dropped st d (or_intror Hseen)) as [-> ->].
        reflexivity.
      * rewrite (cleanup_step_kept st d Hacc Hseen). simpl.
        rewrite <- app_assoc. reflexivity.
    + destruct (cleanup_step_dropped st d (or_introl Hacc)) as [-> ->].
      reflexivity.
Qed.

Lemma cleanup_data_keep_first (raw_data : list dict) :
  cleanup_data raw_data =
    map normalized (keep_first [] (filter acceptable raw_data)).
Proof.
  unfold cleanup_data, cleanup_run. simpl. rewrite cleanup_loop. reflexivity.
Qed.

(** *** Keeping the first record of each identifier *)

Lemma get_id_normalized (r : dict) : get "id" (normalized r) = get "id" r.
Proof.
  unfold normalized. destruct (clean_overview r); [| reflexivity].
  apply get_setitem_other. reflexivity.
Qed.

Lemma keep_first_fresh (records : list dict) : forall seen r,
  In r (keep_first seen records) ->
  existsb (same_element (get "id" r)) seen = false.
Proof.
  induction records as [| r0 records IH]; intros seen r; simpl; [tauto |].
  destruct (existsb (same_element (get "id" r0)) seen) eqn:E; [apply IH |].
  intros [<- | Hin]; [exact E |].
  apply IH in Hin. rewrite existsb_app in Hin.
  apply orb_false_iff in Hin. tauto.
Qed.

Lemma keep_first_later_differs (records : list dict) : forall seen r0 r,
  In r (keep_first (seen ++ [get "id" r0]) records) ->
  same_element (get "id" r) (get "id" r0) = false.
Proof.
  intros seen r0 r Hin. apply keep_first_fresh in Hin.
  rewrite existsb_app in Hin. apply orb_false_iff in Hin.
  destruct Hin as [_ Hin]. simpl in Hin. rewrite orb_false_r in Hin.
  exact Hin.
Qed.

Lemma keep_first_distinct (records : list dict) : forall seen,
  ForallOrdPairs (fun a b => same_element (get "id" b) (get "id" a) = false)
    (keep_first seen records).
Proof.
  induction records as [| r0 records IH]; intros seen; simpl.
  - constructor.
  - destruct (existsb (same_element (get "id" r0)) seen); [apply IH |].
    constructor; [| apply IH].
    apply Forall_forall. intros r. apply keep_first_later_differs.
Qed.

Lemma keep_first_In (records : list dict) : forall seen r,
  In r (keep_first seen records) -> In r records.
Proof.
  induction records as [| r0 records IH]; intros seen r; simpl; [tauto |].
  destruct (existsb (same_element (get "id" r0)) seen).
  - intros H. right. eapply IH, H.
  - intros [H | H]; [left; exact H | right; eapply IH, H].
Qed.

Lemma keep_first_app (l1 : list dict) : forall seen l2,
  keep_first seen (l1 ++ l2) =
    keep_first seen l1
    ++ keep_first (seen ++ map (get "id") (keep_first seen l1)) l2.
Proof.
  induction l1 as [| r l1 IH]; intros seen l2; simpl.
  - rewrite app_nil_r. reflexivity.
  - destruct (existsb (same_element (get "id" r)) seen); [apply IH |].
    simpl. rewrite IH, <- app_assoc. reflexivity.
Qed.

Lemma ForallOrdPairs_map {A B} (f : A -> B) (R : B -> B -> Prop) (l : list A) :
  ForallOrdPairs (fun a b => R (f a) (f b)) l -> ForallOrdPairs R (map f l).
Proof.
  induction 1 as [| a l Ha _ IH]; simpl; constructor; [| exact IH].
  apply Forall_map. exact Ha.
Qed.

Lemma subseq_refl {A} (l : list A) : subseq l l.
Proof. induction l; constructor; assumption. Qed.

Lemma subseq_filter {A} (f : A -> bool) (l : list A) : subseq (filter f l) l.
Proof.
  induction l as [| x l IH]; simpl; [constructor |].
  destruct (f x); constructor; exact IH.
Qed.

Lemma subseq_trans {A} (l1 l2 l3 : list A) :
  subseq l1 l2 -> subseq l2 l3 -> subseq l1 l3.
Proof.
  intros H12 H23. revert l1 H12.
  induction H23 as [| x l2 l3 _ IH | x l2 l3 _ IH]; intros l1 H12.
  - exact H12.
  - inversion H12; subst; constructor; apply IH; assumption.
  - constructor. apply IH. exact H12.
Qed.

Lemma keep_first_subseq (records : list dict) : forall seen,
  subseq (keep_first seen records) records.
Proof.
  induction records as [| r records IH]; intros seen; simpl; [constructor |].
  destruct (existsb (same_element (get "id" r)) seen); constructor; apply IH.
Qed.

(** C7: [cleanup_data] returns, with their overviews normalised, the
    acceptable records of the batch with later repetitions of an
    identifier left out, an identifier being repeated when [in] finds it
    among those seen (the same object, as a [NaN] decoded twice, or an
    equal one): no two records of the result have the same identifier;
    the result lists records of the batch in the order of the batch; the
    first acceptable record of an identifier is kept, with the result of
    the records before it in front of it and no record of its identifier
    behind it; so when the record at position 0 is acceptable and has
    identifier 5, it is the only record of identifier 5 that survives,
    whatever stands at position 3. *)
Theorem cleanup_data_keeps_first_of_identifier (raw_data : list dict) :
  cleanup_data raw_data
    = map normalized (keep_first [] (filter acceptable raw_data))
  /\ ForallOrdPairs (fun a b => same_element (get "id" b) (get "id" a) = false)
       (cleanup_data raw_data)
  /\ (exists kept, subseq kept raw_data
                   /\ cleanup_data raw_data = map normalized kept)
  /\ (forall before r after,
        raw_data = before ++ r :: after ->
        acceptable r = true ->
        (forall r', In r' before -> acceptable r' = true ->
                    same_element (get "id" r) (get "id" r') = false) ->
        exists behind,
          cleanup_data raw_data
            = cleanup_data before ++ normalized r :: behind
          /\ Forall (fun r' => same_element (get "id" r') (get "id" r) = false)
               behind)
  /\ (forall first rest n,
        raw_data = first :: rest ->
        acceptable first = true ->
        get "id" first = VInt n ->
        filter (fun r => py_eqb (get "id" r) (VInt n)) (cleanup_data raw_data)
          = [normalized first]).
Proof.
  assert (Hfirst : forall before r after,
        raw_data = before ++ r :: after ->
        acceptable r = true ->
        (forall r', In r' before -> acceptable r' = true ->
                    same_element (get "id" r) (get "id" r') = false) ->
        exists behind,
          cleanup_data raw_data
            = cleanup_data before ++ normalized r :: behind
          /\ Forall (fun r' => same_element (get "id" r') (get "id" r) = false)
               behind).
  { intros before r after -> Hacc Hnew.
    rewrite !cleanup_data_keep_first, filter_app. simpl. rewrite Hacc.
    rewrite keep_first_app. simpl.
    set (kept := keep_first [] (filter acceptable before)).
    assert (Hfresh :
              existsb (same_element (get "id" r)) (map (get "id") kept)
              = false).
    { apply not_true_is_false. intros Hex.
      apply existsb_exists in Hex. destruct Hex as [k [Hk Heq]].
      apply in_map_iff in Hk. destruct Hk as [r' [<- Hr']].
      apply keep_first_In, filter_In in Hr'. destruct Hr' as [Hin Hacc'].
      rewrite (Hnew r' Hin Hacc') in Heq. discriminate. }
    rewrite Hfresh, map_app. simpl.
    eexists. split; [reflexivity |].
    apply Forall_forall. intros r' Hin.
    apply in_map_iff in Hin. destruct Hin as [r0 [<- Hin]].
    rewrite get_id_normalized.
    eapply keep_first_later_differs, Hin. }
  split; [apply cleanup_data_keep_first |].
  split.
  { rewrite cleanup_data_keep_first. apply ForallOrdPairs_map.
    eapply ForallOrdPairs_ind with
      (P := fun l => ForallOrdPairs
                       (fun a b => same_element (get "id" (normalized b))
                                     (get "id" (normalized a)) = false) l);
      [constructor | | apply (keep_first_distinct _ [])].
    intros a l Ha _ IH. constructor; [| exact IH].
    eapply Forall_impl; [| exact Ha]. intros b Hb.
    rewrite !get_id_normalized. exact Hb. }
  split.
  { exists (keep_first [] (filter acceptable raw_data)).
    split; [| apply cleanup_data_keep_first].
    eapply subseq_trans; [apply keep_first_subseq | apply subseq_filter]. }
  split; [exact Hfirst |].
  intros first rest n Hraw Hacc Hid.
  destruct (Hfirst [] first rest Hraw Hacc) as [behind [Hout Hbehind]];
    [intros r' [] |].
  rewrite Hout. unfold cleanup_data at 1. simpl.
  rewrite get_id_normalized, Hid.
  assert (Hn : py_eqb (VInt n) (VInt n) = true).
  { cbv [py_eqb as_number]. apply float_eqb_refl. }
  rewrite Hn. f_equal.
  rewrite Hid in Hbehind. clear - Hbehind.
  induction Hbehind as [| r' l Hr' _ IH]; simpl; [reflexivity |].
  apply orb_false_iff in Hr'. destruct Hr' as [Hr' _].
  rewrite Hr'. exact IH.
Qed.

(** The batch of the example: identifier 5 at positions 0 and 3. *)
Lemma cleanup_data_keeps_first_of_identifier_witness :
  filter (fun r => py_eqb (get "id" r) (VInt 5))
    (cleanup_data
       [sample_movie 5 (VStr "2024-01-02") VNone (VInt 7) [10%Z];
        sample_movie 6 (VStr "2024-01-03") VNone (VInt 7) [];
        sample_movie 7 (VStr "2024-01-04") VNone (VInt 7) [];
        sample_movie 5 (VStr "2024-01-05") (VStr "again") (VInt 8) [20%Z]])
  = [normalized (sample_movie 5 (VStr "2024-01-02") VNone (VInt 7) [10%Z])].
Proof.
  refine (proj2 (proj2 (proj2 (proj2
    (cleanup_data_keeps_first_of_identifier _)))) _ _ 5%Z eq_refl _ _);
    reflexivity.
Defined.

(** Two records whose identifier is [NaN]: the second is found among the
    identifiers seen and dropped. *)
Example nan_identifier_kept_once :
  let first := setitem "id" (VFloat FNaN)
                 (sample_movie 1 (VStr "2024-01-02") VNone (VInt 7) []) in
  let second := setitem "id" (VFloat FNaN)
                  (sample_movie 2 (VStr "2024-01-03") VNone (VInt 7) []) in
  cleanup_data [first; second] = [normalized first].
Proof. vm_compute. reflexivity. Qed.

(** *** Validation *)

Lemma truthy_get_present (k : string) (d : dict) :
  truthy (get k d) = true -> has_key k d = true.
Proof.
  unfold get, get_default, has_key. destruct (lookup k d); [reflexivity |].
  discriminate.
Qed.

Lemma get_setitem_same (k : string) (v : value) (d : dict) :
  get k (setitem k v d) = v.
Proof. unfold get, get_default. rewrite lookup_setitem_same. reflexivity. Qed.

Lemma cleanup_step_appends (st : cleanup_state) (movie kept : dict) :
  cleaned_data (cleanup_step st movie) = cleaned_data st ++ [kept] ->
  acceptable movie = true /\ kept = normalized movie.
Proof.
  intros H.
  destruct (acceptable movie) eqn:Hacc.
  - destruct (existsb (same_element (get "id" movie)) (seen_ids st)) eqn:Hseen.
    + destruct (cleanup_step_dropped st movie (or_intror Hseen)) as [E _].
      rewrite E in H. apply (f_equal (@List.length _)) in H.
      rewrite length_app in H. simpl in H. lia.
    + rewrite (cleanup_step_kept st movie Hacc Hseen) in H. simpl in H.
      apply app_inv_head in H. split; congruence.
  - destruct (cleanup_step_dropped st movie (or_introl Hacc)) as [E _].
    rewrite E in H. apply (f_equal (@List.length _)) in H.
    rewrite length_app in H. simpl in H. lia.
Qed.

Lemma acceptable_checks (movie : dict) :
  acceptable movie = true ->
  check_essential_fields movie = true
  /\ check_release_date movie = Ok true
  /\ check_numeric_fields movie = true.
Proof.
  unfold acceptable. destruct (getitem "id" movie); [| discriminate].
  intros H. repeat (apply andb_prop in H; destruct H as [H ?]).
  destruct (check_release_date movie) as [[|] |]; try discriminate.
  auto.
Qed.

Lemma check_release_date_parses (movie : dict) :
  check_release_date movie = Ok true ->
  exists s y m d,
    get "release_date" movie = VStr s
    /\ format_regex (list_ascii_of_string s) = Some (y, m, d, [])
    /\ valid_date y m d = true.
Proof.
  unfold check_release_date, strptime.
  destruct (get "release_date" movie) as [| | | | s | |]; try discriminate.
  destruct (format_regex (list_ascii_of_string s))
    as [[[[y m] d] [| c rest]] |] eqn:E; try discriminate.
  destruct (valid_date y m d) eqn:V; try discriminate.
  intros _. exists s, y, m, d. auto.
Qed.

Lemma not_acceptable_dropped (st : cleanup_state) (movie : dict) :
  acceptable movie = false ->
  cleaned_data (cleanup_step st movie) = cleaned_data st.
Proof. intros H. apply (cleanup_step_dropped st movie (or_introl H)). Qed.

Lemma failed_check_not_acceptable (movie : dict) :
  check_essential_fields movie = false
  \/ check_release_date movie = Ok false
  \/ check_numeric_fields movie = false ->
  acceptable movie = false.
Proof.
  intros H. destruct (acceptable movie) eqn:Hacc; [| reflexivity].
  apply acceptable_checks in Hacc. destruct Hacc as [H1 [H2 H3]].
  destruct H as [H | [H | H]]; congruence.
Qed.

(** What the format matches is not empty. *)
Lemma format_regex_nonempty (s : string) (y m d : Z) (rest : list ascii) :
  format_regex (list_ascii_of_string s) = Some (y, m, d, rest) ->
  truthy (VStr s) = true.
Proof. destruct s; [discriminate | reflexivity]. Qed.

Lemma check_release_date_accepts (movie : dict) (s : string) (y m d : Z) :
  get "release_date" movie = VStr s ->
  format_regex (list_ascii_of_string s) = Some (y, m, d, []) ->
  valid_date y m d = true ->
  check_release_date movie = Ok true.
Proof.
  intros Hs Hf Hv. unfold check_release_date, strptime.
  rewrite Hs, Hf, Hv. reflexivity.
Qed.

(** *** Dates in the form YYYY-MM-DD *)

Lemma ascii_digit_cases (c : ascii) (a : Z) :
  ascii_digit c = Some a ->
  In (c, a)
    [("0"%char, 0%Z); ("1"%char, 1%Z); ("2"%char, 2%Z); ("3"%char, 3%Z);
     ("4"%char, 4%Z); ("5"%char, 5%Z); ("6"%char, 6%Z); ("7"%char, 7%Z);
     ("8"%char, 8%Z); ("9"%char, 9%Z)].
Proof.
  destruct c as [[] [] [] [] [] [] [] []]; vm_compute; intros H;
    try discriminate; injection H as <-;
    repeat first [left; reflexivity | right].
Qed.

Ltac each_digit H :=
  apply ascii_digit_cases in H; simpl in H;
  repeat (destruct H as [H | H]); try contradiction; injection H as <- <-.

(** [\d] reads a digit from 0 to 9 as its value. *)
Lemma decimal_ascii_digit (c : ascii) (a : Z) (rest : list ascii) :
  ascii_digit c = Some a -> decimal (c :: rest) = Some (a, rest).
Proof. intros H. each_digit H; reflexivity. Qed.

Lemma year_of_digits (c1 c2 c3 c4 : ascii) (a b c d : Z) (rest : list ascii) :
  ascii_digit c1 = Some a -> ascii_digit c2 = Some b ->
  ascii_digit c3 = Some c -> ascii_digit c4 = Some d ->
  year_pattern (c1 :: c2 :: c3 :: c4 :: rest)
  = Some (1000 * a + 100 * b + 10 * c + d, rest)%Z.
Proof.
  intros H1 H2 H3 H4. unfold year_pattern.
  rewrite (decimal_ascii_digit _ _ _ H1), (decimal_ascii_digit _ _ _ H2),
    (decimal_ascii_digit _ _ _ H3), (decimal_ascii_digit _ _ _ H4).
  reflexivity.
Qed.

Lemma expect_same (c : ascii) (rest : list ascii) :
  expect c (c :: rest) = Some rest.
Proof. unfold expect. rewrite Ascii.eqb_refl. reflexivity. Qed.

(** Two digits and a hyphen: [%m] takes them when they write a month. *)
Lemma month_of_digits {R} (k : Z -> list ascii -> option R) (c1 c2 : ascii)
    (e f : Z) (rest : list ascii) :
  ascii_digit c1 = Some e -> ascii_digit c2 = Some f ->
  first_match month_pattern
    (fun m s3 => match expect "-" s3 with
                 | Some s4 => k m s4
                 | None => None
                 end) (c1 :: c2 :: "-"%char :: rest)
  = if ((1 <=? 10 * e + f) && (10 * e + f <=? 12))%Z
    then k (10 * e + f)%Z rest else None.
Proof.
  intros H1 H2. each_digit H1; each_digit H2; cbn; try reflexivity;
    destruct (k _ rest); reflexivity.
Qed.

Lemma valid_date_ranges (y m d : Z) :
  valid_date y m d = true -> (1 <= m <= 12 /\ 1 <= d <= 31)%Z.
Proof.
  unfold valid_date, days_in_month. intros H.
  repeat (apply andb_prop in H; destruct H as [H ?]).
  repeat match goal with
         | H : (_ <=? _)%Z = true |- _ => apply Z.leb_le in H
         end.
  destruct (m =? 2)%Z; [destruct (is_leap y); lia |].
  destruct ((m =? 4) || (m =? 6) || (m =? 9) || (m =? 11))%Z; lia.
Qed.

(** Two digits at the end: [%d] takes them when they write a day. *)
Lemma day_of_digits (y m : Z) (c1 c2 : ascii) (g h : Z) :
  ascii_digit c1 = Some g -> ascii_digit c2 = Some h ->
  match first_match day_pattern (fun d s5 => Some (y, m, d, s5)) [c1; c2] with
  | Some (y', m', d', []) =>
      if valid_date y' m' d' then Ok (y', m', d') else Raise ValueError
  | _ => Raise ValueError
  end
  = if valid_date y m (10 * g + h) then Ok (y, m, 10 * g + h)%Z
    else Raise ValueError.
Proof.
  intros H1 H2.
  assert (Hout : forall d, (d <= 0 \/ 32 <= d)%Z -> valid_date y m d = false).
  { intros d Hd. destruct (valid_date y m d) eqn:E; [| reflexivity].
    apply valid_date_ranges in E. lia. }
  each_digit H1; each_digit H2;
    first [ reflexivity
          | rewrite Hout by (cbn; lia); reflexivity ].
Qed.

(** A text in the form YYYY-MM-DD parses exactly when it names a day of
    the calendar, as the date it writes. *)
Lemma strptime_yyyy_mm_dd (s : string) (y m d : Z) :
  yyyy_mm_dd s = Some (y, m, d) ->
  strptime (VStr s)
  = if valid_date y m d then Ok (y, m, d) else Raise ValueError.
Proof.
  unfold yyyy_mm_dd, strptime.
  destruct (list_ascii_of_string s)
    as [| y1 [| y2 [| y3 [| y4 [| h1 [| m1 [| m2 [| h2 [| d1 [| d2 [| ? ?]]]]]]]]]]];
    try discriminate.
  destruct (ascii_digit y1) as [a |] eqn:Y1; [| discriminate].
  destruct (ascii_digit y2) as [b |] eqn:Y2; [| discriminate].
  destruct (ascii_digit y3) as [c |] eqn:Y3; [| discriminate].
  destruct (ascii_digit y4) as [d' |] eqn:Y4; [| discriminate].
  destruct (ascii_digit m1) as [e |] eqn:M1; [| discriminate].
  destruct (ascii_digit m2) as [f |] eqn:M2; [| discriminate].
  destruct (ascii_digit d1) as [g |] eqn:D1; [| discriminate].
  destruct (ascii_digit d2) as [h |] eqn:D2; [| discriminate].
  destruct (Ascii.eqb h1 "-") eqn:E1; [| discriminate].
  destruct (Ascii.eqb h2 "-") eqn:E2; [| discriminate].
  apply Ascii.eqb_eq in E1, E2. subst h1 h2.
  intros H. cbn [andb] in H.
  assert (Hy : y = (1000 * a + 100 * b + 10 * c + d')%Z) by congruence.
  assert (Hm : m = (10 * e + f)%Z) by congruence.
  assert (Hd : d = (10 * g + h)%Z) by congruence.
  subst y m d. clear H.
  unfold format_regex. rewrite (year_of_digits _ _ _ _ _ _ _ _ _ Y1 Y2 Y3 Y4).
  rewrite expect_same, (month_of_digits _ _ _ _ _ _ M1 M2).
  destruct ((1 <=? 10 * e + f) && (10 * e + f <=? 12))%Z eqn:Hm.
  - apply (day_of_digits _ _ _ _ _ _ D1 D2).
  - match goal with
    | |- context [valid_date ?y ?m ?d] => destruct (valid_date y m d) eqn:V
    end; [| reflexivity].
    apply valid_date_ranges in V.
    apply andb_false_iff in Hm. destruct Hm as [Hm | Hm];
      apply Z.leb_gt in Hm; lia.
Qed.

(** C6, as claimed, fails: the date [2024-1-5], which is not in the form
    YYYY-MM-DD, passes the date check, and a record that carries it is
    kept; so is one with [2024-1- 5]. *)
Lemma one_digit_month_and_day_is_kept :
  let movie := sample_movie 1 (VStr "2024-1-5") VNone (VInt 7) [] in
  let other := sample_movie 2 (VStr "2024-1- 5") VNone (VInt 7) [] in
  yyyy_mm_dd "2024-1-5" = None
  /\ yyyy_mm_dd "2024-1- 5" = None
  /\ check_release_date movie = Ok true
  /\ check_release_date other = Ok true
  /\ cleanup_data [movie; other] = [normalized movie; normalized other].
Proof. vm_compute. repeat split. Qed.

(** C6, amended: a record is kept only if [title] and [release_date] are
    present and truthy and [release_date] is a string that the format
    [%Y-%m-%d] of [strptime] matches in full (four decimal digits, a
    hyphen, a month and a day of one or two digits) and that names a day
    of the calendar; the record kept is the given one with [overview]
    normalised.  A record without [release_date], or with [2024-13-40],
    is not kept.  A string overview is kept stripped of the white space
    around it, so [  nice film  ] becomes [nice film]; a missing or null
    one becomes the empty string.  A record whose identifier is new,
    whose title is truthy, whose date is such a string, whose numeric
    fields are numbers and whose overview is a string, null or missing,
    is kept.  And a date in the form YYYY-MM-DD passes the date check
    exactly when it names a day of the calendar. *)
Theorem validation_gate_and_overview (st : cleanup_state) (movie : dict) :
  (forall kept,
     cleaned_data (cleanup_step st movie) = cleaned_data st ++ [kept] ->
     has_key "title" movie = true
     /\ truthy (get "title" movie) = true
     /\ has_key "release_date" movie = true
     /\ truthy (get "release_date" movie) = true
     /\ (exists s y m d,
           get "release_date" movie = VStr s
           /\ format_regex (list_ascii_of_string s) = Some (y, m, d, [])
           /\ valid_date y m d = true)
     /\ kept = normalized movie)
  /\ (lookup "release_date" movie = None
      \/ get "release_date" movie = VStr "2024-13-40" ->
      cleaned_data (cleanup_step st movie) = cleaned_data st)
  /\ (forall s,
        lookup "overview" movie = Some (VStr s) ->
        get "overview" (normalized movie) = VStr (strip s))
  /\ (lookup "overview" movie = None
      \/ lookup "overview" movie = Some VNone ->
      get "overview" (normalized movie) = VStr EmptyString)
  /\ (forall id s y m d,
        getitem "id" movie = Ok id ->
        set_contains (seen_ids st) id = Ok false ->
        truthy (get "title" movie) = true ->
        get "release_date" movie = VStr s ->
        format_regex (list_ascii_of_string s) = Some (y, m, d, []) ->
        valid_date y m d = true ->
        check_numeric_fields movie = true ->
        lookup "overview" movie = None
        \/ lookup "overview" movie = Some VNone
        \/ (exists text, lookup "overview" movie = Some (VStr text)) ->
        cleaned_data (cleanup_step st movie)
          = cleaned_data st ++ [normalized movie])
  /\ (forall s y m d,
        get "release_date" movie = VStr s ->
        yyyy_mm_dd s = Some (y, m, d) ->
        check_release_date movie = Ok (valid_date y m d))
  /\ strip "  nice film  " = "nice film".
Proof.
  split; [| split; [| split; [| split; [| split; [| split;
                                                   [| reflexivity]]]]]].
  - intros kept Hkept.
    apply cleanup_step_appends in Hkept. destruct Hkept as [Hacc ->].
    apply acceptable_checks in Hacc. destruct Hacc as [Hess [Hdate _]].
    unfold check_essential_fields in Hess. simpl in Hess.
    apply andb_prop in Hess. destruct Hess as [Ht Hr].
    apply andb_prop in Hr. destruct Hr as [Hr _].
    repeat split; auto using truthy_get_present, check_release_date_parses.
  - intros H. apply not_acceptable_dropped, failed_check_not_acceptable.
    destruct H as [H | H].
    + left. unfold check_essential_fields, get, get_default. simpl.
      rewrite H. simpl. apply andb_false_r.
    + right. left. unfold check_release_date. rewrite H. reflexivity.
  - intros s Hs. unfold normalized, clean_overview, get_default.
    rewrite Hs. destruct s as [| c s]; simpl; apply get_setitem_same.
  - intros Hov.
    assert (Hclean : clean_overview movie = Ok (VStr EmptyString)).
    { unfold clean_overview, get_default.
      destruct Hov as [-> | ->]; reflexivity. }
    unfold normalized. rewrite Hclean. apply get_setitem_same.
  - intros id s y m d Hid Hseen Htitle Hs Hf Hv Hnum Hov.
    assert (Hclean : exists text, clean_overview movie = Ok (VStr text)).
    { unfold clean_overview, get_default.
      destruct Hov as [-> | [-> | [text ->]]];
        [exists EmptyString; reflexivity
        | exists EmptyString; reflexivity |].
      destruct text as [| c text]; simpl; eauto. }
    destruct Hclean as [text Hclean].
    assert (Hess : check_essential_fields movie = true).
    { unfold check_essential_fields. simpl.
      rewrite Htitle, Hs, (format_regex_nonempty _ _ _ _ _ Hf). reflexivity. }
    unfold cleanup_step, cleanup_try, normalized.
    rewrite Hid. simpl. rewrite Hseen. simpl.
    rewrite (check_release_date_accepts _ _ _ _ _ Hs Hf Hv). simpl.
    rewrite Hess, Hnum, Hclean. reflexivity.
  - intros s y m d Hs Hform. unfold check_release_date.
    rewrite Hs, (strptime_yyyy_mm_dd s y m d Hform).
    destruct (valid_date y m d); reflexivity.
Qed.

(** The record of the example, with valid fields and an overview in
    spaces, is kept with the overview [nice film]. *)
Lemma validation_gate_and_overview_witness :
  let movie := sample_movie 1 (VStr "2024-01-02") (VStr "  nice film  ")
                 (VInt 7) [] in
  cleaned_data (cleanup_step fresh_cleanup movie)
    = cleaned_data fresh_cleanup ++ [normalized movie]
  /\ get "overview" (normalized movie) = VStr (strip "  nice film  ")
  /\ cleanup_data [movie] = [setitem "overview" (VStr "nice film") movie].
Proof.
  cbv zeta. split; [| split].
  - refine (proj1 (proj2 (proj2 (proj2 (proj2
              (validation_gate_and_overview fresh_cleanup _)))))
              (VInt 1) "2024-01-02" 2024%Z 1%Z 2%Z _ _ _ _ _ _ _ _);
      try reflexivity.
    right. right. eexists. reflexivity.
  - refine (proj1 (proj2 (proj2
              (validation_gate_and_overview fresh_cleanup _))) _ _).
    reflexivity.
  - vm_compute. reflexivity.
Defined.

(** C3, as claimed, fails: a record whose [vote_average] is a boolean,
    which is not a number in the strict sense, passes the numeric check
    and is kept. *)
Lemma boolean_vote_average_is_kept :
  let movie := sample_movie 1 (VStr "2024-01-02") VNone (VBool true) [] in
  strictly_numeric (get "vote_average" movie) = false
  /\ check_numeric_fields movie = true
  /\ cleanup_data [movie] = [normalized movie].
Proof. repeat split. Qed.

(** C3, amended: when one of [vote_average], [vote_count], [popularity]
    is not an instance of [int] or [float] (it is missing or null, a
    string, a list or an object), the numeric check fails and the record
    is neither kept nor remembered; when each of them is an integer, a
    float or a boolean, the numeric check passes. *)
Theorem non_numeric_field_rejects (st : cleanup_state) (movie : dict) :
  (forall field,
     In field ["vote_average"; "vote_count"; "popularity"] ->
     isinstance_int_float (get field movie) = false ->
     check_numeric_fields movie = false
     /\ cleaned_data (cleanup_step st movie) = cleaned_data st
     /\ seen_ids (cleanup_step st movie) = seen_ids st)
  /\ ((forall field,
         In field ["vote_average"; "vote_count"; "popularity"] ->
         strictly_numeric (get field movie) = true
         \/ exists b, get field movie = VBool b) ->
      check_numeric_fields movie = true).
Proof.
  split.
  - intros field Hin Hty.
    assert (Hnum : check_numeric_fields movie = false).
    { unfold check_numeric_fields. apply not_true_is_false. intros Hall.
      rewrite forallb_forall in Hall. rewrite (Hall field Hin) in Hty.
      discriminate. }
    split; [exact Hnum |].
    apply cleanup_step_dropped. left.
    apply failed_check_not_acceptable. auto.
  - intros Hall. unfold check_numeric_fields. apply forallb_forall.
    intros field Hin. destruct (Hall field Hin) as [H | [b ->]].
    + destruct (get field movie); try discriminate; reflexivity.
    + reflexivity.
Qed.

(** A record whose [vote_average] is the string [high]. *)
Lemma non_numeric_field_rejects_witness :
  check_numeric_fields
    (sample_movie 1 (VStr "2024-01-02") VNone (VStr "high") []) = false
  /\ cleaned_data
       (cleanup_step fresh_cleanup
          (sample_movie 1 (VStr "2024-01-02") VNone (VStr "high") []))
     = cleaned_data fresh_cleanup
  /\ seen_ids
       (cleanup_step fresh_cleanup
          (sample_movie 1 (VStr "2024-01-02") VNone (VStr "high") []))
     = seen_ids fresh_cleanup.
Proof.
  apply (proj1 (non_numeric_field_rejects fresh_cleanup _) "vote_average").
  - simpl. auto.
  - reflexivity.
Defined.

(** ** [filter_data] *)

Lemma mem_In (c : string) (cols : list string) :
  mem c cols = true <-> In c cols.
Proof.
  unfold mem. rewrite existsb_exists. split.
  - intros [x [Hin Heq]]. apply String.eqb_eq in Heq. subst. exact Hin.
  - intros Hin. exists c. split; [exact Hin | apply String.eqb_refl].
Qed.

Lemma add_keys_keeps (keys : list string) : forall cols c,
  In c cols -> In c (add_keys cols keys).
Proof.
  induction keys as [| k keys IH]; intros cols c Hin; simpl; [exact Hin |].
  apply IH. destruct (mem k cols); [exact Hin |].
  apply in_or_app. left. exact Hin.
Qed.

Lemma add_keys_adds (keys : list string) : forall cols c,
  In c keys -> In c (add_keys cols keys).
Proof.
  induction keys as [| k keys IH]; intros cols c; simpl; [tauto |].
  intros [<- | Hin]; [| apply IH, Hin].
  apply add_keys_keeps. destruct (mem k cols) eqn:E.
  - apply mem_In, E.
  - apply in_or_app. right. left. reflexivity.
Qed.

Lemma fold_add_keys_keeps (records : list dict) : forall cols c,
  In c cols ->
  In c (fold_left (fun cols r => add_keys cols (map fst r)) records cols).
Proof.
  induction records as [| r records IH]; intros cols c Hin; simpl;
    [exact Hin |].
  apply IH, add_keys_keeps, Hin.
Qed.

Lemma fold_add_keys_adds (records : list dict) : forall cols c r,
  In r records -> In c (map fst r) ->
  In c (fold_left (fun cols r => add_keys cols (map fst r)) records cols).
Proof.
  induction records as [| r0 records IH]; intros cols c r; simpl; [tauto |].
  intros [-> | Hin] Hc.
  - apply fold_add_keys_keeps, add_keys_adds, Hc.
  - eapply IH; eassumption.
Qed.

Lemma add_keys_only (keys : list string) : forall cols c,
  In c (add_keys cols keys) -> In c cols \/ In c keys.
Proof.
  induction keys as [| k keys IH]; intros cols c; simpl; [tauto |].
  intros H. apply IH in H. destruct H as [H | H]; [| tauto].
  destruct (mem k cols); [tauto |].
  apply in_app_or in H. simpl in H. tauto.
Qed.

Lemma fold_add_keys_only (records : list dict) : forall cols c,
  In c (fold_left (fun cols r => add_keys cols (map fst r)) records cols) ->
  In c cols \/ exists r, In r records /\ In c (map fst r).
Proof.
  induction records as [| r0 records IH]; intros cols c; simpl; [tauto |].
  intros H. apply IH in H. destruct H as [H | [r [Hr Hc]]].
  - apply add_keys_only in H. destruct H as [H | H]; [tauto |].
    right. exists r0. tauto.
  - right. exists r. tauto.
Qed.

Lemma has_key_In (k : string) (r : dict) :
  has_key k r = true <-> In k (map fst r).
Proof.
  unfold has_key. induction r as [| [k' v] r IH]; simpl.
  - split; [discriminate | tauto].
  - destruct (String.eqb k k') eqn:E.
    + apply String.eqb_eq in E. subst. tauto.
    + rewrite IH. apply String.eqb_neq in E. split; [tauto |].
      intros [H | H]; [congruence | exact H].
Qed.

(** A key some record has is a column of the frame. *)
Lemma column_of_some_record (records : list dict) (r : dict) (c : string) :
  In r records -> has_key c r = true ->
  mem c (columns (from_records records)) = true.
Proof.
  intros Hr Hc. apply mem_In. simpl. unfold union_keys.
  eapply fold_add_keys_adds; [exact Hr | apply has_key_In, Hc].
Qed.

(** A key no record has is not a column of the frame. *)
Lemma column_of_no_record (records : list dict) (c : string) :
  Forall (fun r => has_key c r = false) records ->
  mem c (columns (from_records records)) = false.
Proof.
  intros Hall. apply not_true_is_false. intros Hmem.
  apply mem_In in Hmem. simpl in Hmem. unfold union_keys in Hmem.
  apply fold_add_keys_only in Hmem. destruct Hmem as [[] | [r [Hr Hc]]].
  rewrite Forall_forall in Hall. apply has_key_In in Hc.
  rewrite (Hall r Hr) in Hc. discriminate.
Qed.

Lemma lookup_fill (cols : list string) (r : dict) (c : string) :
  lookup c (fill cols r) =
    if mem c cols then Some (get_default c nan r) else None.
Proof.
  unfold fill. induction cols as [| c0 cols IH]; simpl; [reflexivity |].
  destruct (String.eqb c c0) eqn:E; simpl; [| exact IH].
  apply String.eqb_eq in E. subst. reflexivity.
Qed.

Lemma missing_label_none (have cols : list string) :
  forallb (fun c => mem c have) cols = true -> missing_label have cols = None.
Proof.
  unfold missing_label. induction cols as [| c cols IH]; simpl;
    [reflexivity |].
  intros H. apply andb_prop in H. destruct H as [Hc H].
  rewrite Hc. simpl. apply IH, H.
Qed.

Lemma missing_label_some (have cols : list string) (c : string) :
  In c cols -> mem c have = false -> exists c', missing_label have cols = Some c'.
Proof.
  unfold missing_label. intros Hin Hc.
  destruct (find (fun c => negb (mem c have)) cols) eqn:E; [eauto |].
  eapply find_none in E; [| exact Hin]. simpl in E. rewrite Hc in E.
  discriminate.
Qed.

Lemma append_links_ok (row : dict) (movie_id : value) (genre_ids : list value) :
  forall acc,
    (genre_ids <> [] -> getitem "id" row = Ok movie_id) ->
    append_links row genre_ids acc =
      Ok (acc ++ map (fun g => [("movie_id", movie_id); ("genre_id", g)])
                     genre_ids).
Proof.
  induction genre_ids as [| g gs IH]; intros acc Hid; simpl.
  - rewrite app_nil_r. reflexivity.
  - rewrite Hid by discriminate. simpl. rewrite IH.
    + rewrite <- app_assoc. reflexivity.
    + intros _. apply Hid. discriminate.
Qed.

(** The links collected from the rows of a frame built from shapeable
    records. *)
Lemma collect_links_shapeable (cols : list string) (records : list dict) :
  mem "genre_ids" cols = true -> mem "id" cols = true ->
  forallb shapeable records = true ->
  forall acc,
    collect_links (map (fill cols) records) acc
      = Ok (acc ++ flat_map links_of records).
Proof.
  intros Hg Hi. induction records as [| r records IH]; simpl.
  - intros _ acc. rewrite app_nil_r. reflexivity.
  - intros H acc. apply andb_prop in H. destruct H as [Hr H].
    unfold shapeable in Hr. apply andb_prop in Hr. destruct Hr as [Hcols Hl].
    simpl in Hcols. apply andb_prop in Hcols. destruct Hcols as [Hid _].
    unfold getitem at 1. rewrite lookup_fill, Hg. simpl.
    unfold links_of at 1, genre_list, get, get_default.
    destruct (lookup "genre_ids" r) as [[| | | | | l |] |]; try discriminate.
    simpl.
    rewrite (append_links_ok _ (get "id" r)).
    + simpl. rewrite IH by exact H. rewrite <- app_assoc. reflexivity.
    + intros _. unfold getitem. rewrite lookup_fill, Hi.
      unfold has_key in Hid. unfold get, get_default.
      destruct (lookup "id" r); [reflexivity | discriminate].
Qed.

(** A frame built from link records has these records as its rows. *)
Lemma from_records_links (l : list dict) :
  Forall (fun r => exists m g, r = [("movie_id", m); ("genre_id", g)]) l ->
  rows (from_records l) = l.
Proof.
  intros Hall. destruct l as [| r0 l]; [reflexivity |].
  assert (Hcols : union_keys (r0 :: l) = link_key).
  { unfold union_keys. simpl.
    inversion Hall as [| ? ? [m [g ->]] Hrest]; subst. simpl.
    clear Hall. induction Hrest as [| r l [m' [g' ->]] _ IH]; simpl;
      [reflexivity | exact IH]. }
  unfold from_records. rewrite Hcols. cbv beta iota delta [rows].
  transitivity (map (fun r : dict => r) (r0 :: l)); [| apply map_id].
  apply map_ext_in.
  intros r Hr. rewrite Forall_forall in Hall.
  destruct (Hall r Hr) as [m [g ->]]. reflexivity.
Qed.

Lemma links_of_are_links (records : list dict) :
  Forall (fun r => exists m g, r = [("movie_id", m); ("genre_id", g)])
    (flat_map links_of records).
Proof.
  apply Forall_forall. intros x Hx. apply in_flat_map in Hx.
  destruct Hx as [r [_ Hx]]. unfold links_of in Hx.
  apply in_map_iff in Hx. destruct Hx as [g [<- _]]. eauto.
Qed.

(** What [filter_data] returns on a batch of shapeable records. *)
Lemma filter_data_shapeable (cleaned_data genres_list : list dict) :
  cleaned_data <> [] ->
  forallb shapeable cleaned_data = true ->
  exists df_movies,
    filter_data cleaned_data genres_list
      = Ok (df_movies, from_records genres_list,
            from_records (flat_map links_of cleaned_data)).
Proof.
  intros Hne Hall.
  destruct cleaned_data as [| r0 rest] eqn:Hbatch; [congruence |].
  rewrite <- Hbatch in *.
  assert (Hr0 : In r0 cleaned_data) by (rewrite Hbatch; left; reflexivity).
  assert (Hs0 : shapeable r0 = true).
  { rewrite forallb_forall in Hall. apply Hall, Hr0. }
  unfold shapeable in Hs0. apply andb_prop in Hs0. destruct Hs0 as [Hc Hg].
  assert (Hcols : forallb (fun c => mem c (columns (from_records cleaned_data)))
                    movie_columns = true).
  { apply forallb_forall. intros c Hin.
    rewrite forallb_forall in Hc.
    eapply column_of_some_record; [exact Hr0 | apply Hc, Hin]. }
  assert (Hgen : mem "genre_ids" (columns (from_records cleaned_data)) = true).
  { eapply column_of_some_record; [exact Hr0 |].
    unfold has_key. destruct (lookup "genre_ids" r0); [reflexivity |].
    discriminate. }
  assert (Hid : mem "id" (columns (from_records cleaned_data)) = true).
  { rewrite forallb_forall in Hcols. apply Hcols. left. reflexivity. }
  unfold filter_data, select_columns.
  rewrite (missing_label_none _ _ Hcols). simpl bind.
  unfold iterrows. simpl rows.
  rewrite (collect_links_shapeable _ _ Hgen Hid Hall). simpl.
  eexists. reflexivity.
Qed.


Lemma collect_links_iterates (movie_rows : list dict) : forall acc out,
  collect_links movie_rows acc = Ok out ->
  Forall (fun row => exists cell genre_ids,
                       lookup "genre_ids" row = Some cell
                       /\ iter cell = Ok genre_ids) movie_rows.
Proof.
  induction movie_rows as [| row movie_rows IH]; intros acc out; simpl.
  - constructor.
  - unfold getitem at 1.
    destruct (lookup "genre_ids" row) as [cell |] eqn:Hcell; [| discriminate].
    simpl.
    destruct (iter cell) as [genre_ids |] eqn:Hit; [| discriminate]. simpl.
    destruct (append_links row genre_ids acc) as [acc' |]; [| discriminate].
    simpl. intros H. constructor; [| eapply IH, H].
    exists cell, genre_ids. split; [exact Hcell | exact Hit].
Qed.

(** C8: on a batch of records that each carry the movie attributes and a
    list of genre ids, the link frame has, movie after movie in the order
    of the batch, one row [(movie_id, genre_id)] per entry of the movie's
    list in the order of the list, repeated entries included: there are
    as many rows as entries, and a movie with an empty list gives none. *)
Theorem link_rows_follow_genre_lists (cleaned_data genres_list : list dict) :
  cleaned_data <> [] ->
  forallb shapeable cleaned_data = true ->
  exists df_movies df_genres df_movie_genres,
    filter_data cleaned_data genres_list
      = Ok (df_movies, df_genres, df_movie_genres)
    /\ rows df_movie_genres
       = flat_map
           (fun r => map (fun g => [("movie_id", get "id" r); ("genre_id", g)])
                       (genre_list r))
           cleaned_data
    /\ List.length (rows df_movie_genres)
       = list_sum (map (fun r => List.length (genre_list r)) cleaned_data)
    /\ (forall r, get "genre_ids" r = VList [] -> links_of r = []).
Proof.
  intros Hne Hall.
  destruct (filter_data_shapeable cleaned_data genres_list Hne Hall)
    as [df_movies Hrun].
  exists df_movies, (from_records genres_list),
    (from_records (flat_map links_of cleaned_data)).
  rewrite from_records_links by apply links_of_are_links.
  split; [exact Hrun |]. split; [reflexivity |]. split.
  - clear. induction cleaned_data as [| r l IH]; simpl; [reflexivity |].
    rewrite length_app, IH. unfold links_of. rewrite length_map.
    reflexivity.
  - intros r Hr. unfold links_of, genre_list. rewrite Hr. reflexivity.
Qed.

(** A movie with two genres, one of them twice, and a movie with none. *)
Lemma link_rows_follow_genre_lists_witness :
  exists df_movies df_genres df_movie_genres,
    filter_data
      [sample_movie 5 (VStr "2024-01-02") (VStr "nice film") (VInt 7)
         [10; 20; 10]%Z;
       sample_movie 7 (VStr "2024-01-04") (VStr EmptyString) (VInt 7) []]
      sample_genres
      = Ok (df_movies, df_genres, df_movie_genres)
    /\ rows df_movie_genres = [link 5 10; link 5 20; link 5 10]
    /\ List.length (rows df_movie_genres) = 3
    /\ (forall r, get "genre_ids" r = VList [] -> links_of r = []).
Proof.
  apply (link_rows_follow_genre_lists
           [sample_movie 5 (VStr "2024-01-02") (VStr "nice film") (VInt 7)
              [10; 20; 10]%Z;
            sample_movie 7 (VStr "2024-01-04") (VStr EmptyString) (VInt 7) []]
           sample_genres).
  - discriminate.
  - reflexivity.
Defined.

(** C10: on the empty batch [filter_data] raises [KeyError] instead of
    returning three empty frames; it returns on a batch that is not empty
    and whose records each carry the seven movie attributes and a list of
    genre ids; it raises as soon as one record has no [genre_ids], or one
    of the seven attributes is on no record at all. *)
Theorem filter_data_needs_a_shapeable_batch (genres_list : list dict) :
  filter_data [] genres_list = Raise (KeyError "id")
  /\ (forall cleaned_data,
        cleaned_data <> [] ->
        forallb shapeable cleaned_data = true ->
        exists tables, filter_data cleaned_data genres_list = Ok tables)
  /\ (forall cleaned_data r,
        In r cleaned_data ->
        has_key "genre_ids" r = false ->
        exists e, filter_data cleaned_data genres_list = Raise e)
  /\ (forall cleaned_data c,
        In c movie_columns ->
        Forall (fun r => has_key c r = false) cleaned_data ->
        exists e, filter_data cleaned_data genres_list = Raise e).
Proof.
  split; [reflexivity |]. split; [| split].
  - intros cleaned_data Hne Hall.
    destruct (filter_data_shapeable cleaned_data genres_list Hne Hall)
      as [df_movies Hrun].
    eauto.
  - intros cleaned_data r Hin Hkey.
    destruct (filter_data cleaned_data genres_list) as [tables |] eqn:Hrun;
      [| eauto].
    exfalso. unfold filter_data in Hrun.
    destruct (select_columns _ _); [| discriminate]. simpl in Hrun.
    destruct (collect_links _ _) as [out |] eqn:Hlinks; [| discriminate].
    apply collect_links_iterates in Hlinks.
    unfold iterrows in Hlinks. simpl rows in Hlinks.
    rewrite Forall_forall in Hlinks.
    destruct (Hlinks (fill (union_keys cleaned_data) r))
      as [cell [genre_ids [Hcell Hiter]]].
    { apply in_map, Hin. }
    rewrite lookup_fill in Hcell.
    destruct (mem "genre_ids" (union_keys cleaned_data)); [| discriminate].
    unfold has_key in Hkey. unfold get_default in Hcell.
    destruct (lookup "genre_ids" r); [discriminate |].
    injection Hcell as <-. discriminate.
  - intros cleaned_data c Hin Hnone.
    apply column_of_no_record in Hnone.
    destruct (missing_label_some _ _ _ Hin Hnone) as [c' Hc'].
    unfold filter_data, select_columns. rewrite Hc'. simpl. eauto.
Qed.

(** A batch of one shapeable record. *)
Lemma filter_data_needs_a_shapeable_batch_witness :
  exists tables,
    filter_data [sample_movie 5 (VStr "2024-01-02") VNone (VInt 7) [10%Z]]
      sample_genres = Ok tables.
Proof.
  apply (proj1 (proj2 (filter_data_needs_a_shapeable_batch sample_genres))).
  - discriminate.
  - reflexivity.
Defined.

(** ** Reconciliation *)

Lemma select_by_mask {A} (g : A -> bool) (l : list A) :
  map fst (filter snd (combine l (map g l))) = filter g l.
Proof.
  induction l as [| x l IH]; simpl; [reflexivity |].
  destruct (g x); simpl; rewrite IH; reflexivity.
Qed.

Lemma filter_none {A} (f : A -> bool) (l : list A) :
  (forall x, In x l -> f x = false) -> filter f l = [].
Proof.
  induction l as [| x l IH]; simpl; intros H; [reflexivity |].
  rewrite (H x) by auto. apply IH. auto.
Qed.

(** The delta by identifier is a filter of the candidate rows. *)
Lemma new_by_id_filter (df : DataFrame) (existing_ids : list value) :
  mem "id" (columns df) = true ->
  forallb hashable (map (get "id") (rows df)) = true ->
  forallb hashable existing_ids = true ->
  new_by_id df existing_ids
    = Ok {| columns := columns df;
            rows := filter (id_is_new existing_ids) (rows df) |}.
Proof.
  intros Hcol Hrows Hids. unfold new_by_id, column, isin.
  rewrite Hcol. simpl. rewrite Hrows, Hids. simpl.
  unfold select_rows, invert. rewrite !map_map.
  rewrite (select_by_mask (id_is_new existing_ids)). reflexivity.
Qed.

(** Whenever the delta by identifier is computed, it is that filter. *)
Lemma new_by_id_ok (df new_df : DataFrame) (existing_ids : list value) :
  new_by_id df existing_ids = Ok new_df ->
  columns new_df = columns df
  /\ rows new_df = filter (id_is_new existing_ids) (rows df)
  /\ forallb hashable (map (get "id") (rows df)) = true.
Proof.
  unfold new_by_id, column, isin.
  destruct (mem "id" (columns df)); [| discriminate]. simpl.
  destruct (forallb hashable (map (get "id") (rows df))); [| discriminate].
  destruct (forallb hashable existing_ids); [| discriminate]. simpl.
  intros H. injection H as <-. simpl.
  unfold invert. rewrite !map_map.
  rewrite (select_by_mask (id_is_new existing_ids)). auto.
Qed.

Lemma suffixed_same (on : list string) (suffix c : string) :
  suffixed on on suffix c = c.
Proof. unfold suffixed. destruct (mem c on); reflexivity. Qed.

Lemma relabel_same (on : list string) (suffix : string) (r : dict) :
  relabel (suffixed on on suffix) r = r.
Proof.
  unfold relabel. induction r as [| [k v] r IH]; simpl; [reflexivity |].
  rewrite suffixed_same, IH. reflexivity.
Qed.

Lemma lookup_app (k : string) (l1 l2 : dict) :
  lookup k (l1 ++ l2) =
    match lookup k l1 with
    | Some v => Some v
    | None => lookup k l2
    end.
Proof.
  induction l1 as [| [k' v] l1 IH]; simpl; [reflexivity |].
  destruct (String.eqb k k'); [reflexivity | exact IH].
Qed.

Lemma lookup_absent (k : string) (r : dict) :
  mem k (map fst r) = false -> lookup k r = None.
Proof.
  induction r as [| [k' v] r IH]; simpl; [reflexivity |].
  destruct (String.eqb k k'); simpl; [discriminate | exact IH].
Qed.

Lemma drop_marker (r : dict) (mark : value) :
  mem "_merge" (map fst r) = false ->
  filter (fun kv => negb (mem (fst kv) ["_merge"])) (r ++ [("_merge", mark)])
    = r.
Proof.
  induction r as [| [k v] r IH]; [reflexivity |].
  cbn -[String.eqb].
  rewrite (String.eqb_sym k). destruct (String.eqb "_merge" k);
    cbn -[String.eqb]; [discriminate |].
  intros H. rewrite <- (IH H) at 2. reflexivity.
Qed.

Lemma marker_of (r : dict) (mark : value) :
  mem "_merge" (map fst r) = false ->
  get "_merge" (r ++ [("_merge", mark)]) = mark.
Proof.
  intros H. unfold get, get_default.
  rewrite lookup_app, (lookup_absent _ _ H). reflexivity.
Qed.

Lemma filter_flat_map {A B} (p : B -> bool) (f : A -> list B) (l : list A) :
  filter p (flat_map f l) = flat_map (fun x => filter p (f x)) l.
Proof.
  induction l as [| x l IH]; simpl; [reflexivity |].
  rewrite filter_app, IH. reflexivity.
Qed.

Lemma flat_map_filter_singleton {A} (p : A -> bool) (l : list A) :
  flat_map (fun x => if p x then [x] else []) l = filter p l.
Proof.
  induction l as [| x l IH]; simpl; [reflexivity |].
  destruct (p x); simpl; rewrite IH; reflexivity.
Qed.

(** The rows the script keeps of the merged frame, for one candidate. *)
Lemma new_rows_of_candidate (persisted : list dict) (l : dict) :
  mem "_merge" (map fst l) = false ->
  map (filter (fun kv => negb (mem (fst kv) ["_merge"])))
    (filter (fun row => py_eqb (get "_merge" row) (VStr "left_only"))
       (marked persisted l))
  = if pair_is_new persisted l then [l] else [].
Proof.
  intros Hl. unfold pair_is_new, marked.
  destruct (filter (same_key link_key l) persisted) as [| p ps] eqn:Hm.
  - assert (Hex : existsb (same_key link_key l) persisted = false).
    { apply not_true_is_false. intros Hex. apply existsb_exists in Hex.
      destruct Hex as [x [Hx Hk]].
      assert (Hin : In x (filter (same_key link_key l) persisted))
        by (apply filter_In; auto).
      rewrite Hm in Hin. destruct Hin. }
    rewrite Hex. cbn [filter negb]. rewrite marker_of by exact Hl.
    replace (py_eqb (VStr "left_only") (VStr "left_only")) with true
      by reflexivity.
    cbn [map]. rewrite drop_marker by exact Hl. reflexivity.
  - assert (Hex : existsb (same_key link_key l) persisted = true).
    { apply existsb_exists. exists p.
      apply filter_In. rewrite Hm. left. reflexivity. }
    rewrite Hex. cbn [negb].
    generalize (p :: ps). intros ms.
    induction ms as [| m ms IH]; [reflexivity |].
    cbn [map filter]. rewrite marker_of by exact Hl.
    replace (py_eqb (VStr "both") (VStr "left_only")) with false
      by reflexivity.
    exact IH.
Qed.

Lemma wf_without_marker (df : DataFrame) :
  wf_frame df -> mem "_merge" (columns df) = false ->
  forall r, In r (rows df) -> mem "_merge" (map fst r) = false.
Proof.
  unfold wf_frame. intros Hwf Hm r Hr. rewrite Forall_forall in Hwf.
  rewrite (Hwf r Hr). exact Hm.
Qed.

Lemma filter_columns_marker (cols : list string) :
  mem "_merge" cols = false ->
  filter (fun c => negb (mem c ["_merge"])) (cols ++ ["_merge"]) = cols.
Proof.
  induction cols as [| c cols IH]; [reflexivity |].
  cbn -[String.eqb].
  rewrite (String.eqb_sym c). destruct (String.eqb "_merge" c);
    cbn -[String.eqb]; [discriminate |].
  intros H. rewrite <- (IH H) at 2. reflexivity.
Qed.

(** The merge with a frame of persisted pairs. *)
Lemma merge_on_pairs (df existing : DataFrame) :
  columns existing = link_key ->
  mem "movie_id" (columns df) = true ->
  mem "genre_id" (columns df) = true ->
  mem "_merge" (columns df) = false ->
  keys_hashable df (rows existing) = true ->
  merge_left_indicator df existing link_key
    = Ok {| columns := columns df ++ ["_merge"];
            rows := flat_map (marked (rows existing)) (rows df) |}.
Proof.
  intros Hcols Hm Hg Hmark Hhash.
  unfold merge_left_indicator. rewrite Hcols.
  assert (Hl : missing_label (columns df) link_key = None).
  { apply missing_label_none. simpl. rewrite Hm, Hg. reflexivity. }
  rewrite Hl.
  replace (missing_label link_key link_key) with (@None string)
    by reflexivity.
  replace (mem "_merge" link_key) with false by reflexivity.
  rewrite Hmark. cbn [orb].
  unfold keys_hashable in Hhash. rewrite Hhash. cbn [negb].
  replace (filter (fun c => negb (mem c link_key)) link_key)
    with (@nil string) by reflexivity.
  cbn [map app]. f_equal. f_equal.
  - rewrite (map_ext _ (fun c => c)) by (intros; apply suffixed_same).
    rewrite map_id. reflexivity.
  - apply flat_map_ext. intros l. rewrite relabel_same. reflexivity.
Qed.

(** The delta by pair is a filter of the candidate rows. *)
Lemma new_by_pair_filter (df existing : DataFrame) :
  columns existing = link_key ->
  wf_frame df ->
  mem "movie_id" (columns df) = true ->
  mem "genre_id" (columns df) = true ->
  mem "_merge" (columns df) = false ->
  keys_hashable df (rows existing) = true ->
  new_by_pair df existing
    = Ok {| columns := columns df;
            rows := filter (pair_is_new (rows existing)) (rows df) |}.
Proof.
  intros Hcols Hwf Hm Hg Hmark Hhash.
  unfold new_by_pair.
  rewrite (merge_on_pairs df existing Hcols Hm Hg Hmark Hhash).
  cbn [bind]. unfold column. cbn [columns rows].
  assert (Hin : mem "_merge" (columns df ++ ["_merge"]) = true).
  { unfold mem. rewrite existsb_app. simpl. apply orb_true_r. }
  rewrite Hin. cbn [bind]. unfold drop_columns, select_rows.
  cbn [columns rows].
  assert (Hmiss : missing_label (columns df ++ ["_merge"]) ["_merge"] = None).
  { apply missing_label_none. cbn [forallb]. rewrite Hin. reflexivity. }
  rewrite Hmiss. f_equal. f_equal.
  - apply filter_columns_marker, Hmark.
  - unfold series_eq.
    rewrite (map_map (get "_merge") (fun x => py_eqb x (VStr "left_only"))).
    rewrite (select_by_mask
               (fun row => py_eqb (get "_merge" row) (VStr "left_only"))).
    rewrite filter_flat_map, flat_map_concat_map, concat_map, map_map.
    rewrite <- (flat_map_filter_singleton (pair_is_new (rows existing))).
    rewrite flat_map_concat_map. apply (f_equal (@List.concat dict)).
    apply map_ext_in.
    intros l Hl'. apply new_rows_of_candidate.
    eapply wf_without_marker; eassumption.
Qed.

Lemma missing_label_none_inv (have cols : list string) (c : string) :
  missing_label have cols = None -> In c cols -> mem c have = true.
Proof.
  unfold missing_label. intros Hnone Hin.
  apply (find_none _ _ Hnone) in Hin. simpl in Hin.
  destruct (mem c have); [reflexivity | discriminate].
Qed.

(** Whenever the delta by pair is computed, it is that filter. *)
Lemma new_by_pair_ok (df existing new_df : DataFrame) :
  columns existing = link_key ->
  wf_frame df ->
  new_by_pair df existing = Ok new_df ->
  new_df = {| columns := columns df;
              rows := filter (pair_is_new (rows existing)) (rows df) |}
  /\ keys_hashable df (rows existing) = true.
Proof.
  intros Hcols Hwf Hrun.
  assert (Hpre : mem "movie_id" (columns df) = true
                 /\ mem "genre_id" (columns df) = true
                 /\ mem "_merge" (columns df) = false
                 /\ keys_hashable df (rows existing) = true).
  { unfold new_by_pair, merge_left_indicator in Hrun.
    rewrite Hcols in Hrun.
    destruct (missing_label (columns df) link_key) eqn:Hl;
      [discriminate |].
    replace (missing_label link_key link_key) with (@None string) in Hrun
      by reflexivity.
    replace (mem "_merge" link_key) with false in Hrun by reflexivity.
    destruct (mem "_merge" (columns df)); [discriminate |].
    cbn [orb] in Hrun. unfold keys_hashable.
    destruct (forallb _ (rows df ++ rows existing)); [| discriminate].
    repeat split; eapply missing_label_none_inv; try exact Hl;
      simpl; auto. }
  destruct Hpre as [Hm [Hg [Hmark Hhash]]].
  rewrite (new_by_pair_filter df existing Hcols Hwf Hm Hg Hmark Hhash) in Hrun.
  injection Hrun as <-. auto.
Qed.

Lemma same_key_select (l r : dict) :
  same_key link_key l
    (map (fun c => (c, get c r)) (selected movie_genres))
  = same_key link_key l r.
Proof. reflexivity. Qed.

Lemma pair_is_new_select (s : Store) (l : dict) :
  pair_is_new (rows (select movie_genres s)) l
  = pair_is_new (movie_genres_rows s) l.
Proof.
  unfold pair_is_new. f_equal. simpl.
  induction (movie_genres_rows s) as [| r rs IH]; [reflexivity |].
  cbn [map existsb]. rewrite IH. f_equal.
Qed.

Lemma existsb_pointwise {A} (f g : A -> bool) (l : list A) :
  (forall x, f x = g x) -> existsb f l = existsb g l.
Proof.
  intros H. induction l as [| x l IH]; simpl; [reflexivity |].
  rewrite H, IH. reflexivity.
Qed.

(** ** [load_data_to_db] *)

Section LoadFacts.

Variable accepts : table -> Store -> list dict -> bool.
Variables movies_df genres_df movie_genres_df : DataFrame.

Local Abbreviation reconcile' := (reconcile movies_df genres_df movie_genres_df).
Local Abbreviation sync' := (sync accepts movies_df genres_df movie_genres_df).
Local Abbreviation load_try' := (load_try accepts movies_df genres_df movie_genres_df).
Local Abbreviation load' := (load_data_to_db accepts movies_df genres_df movie_genres_df).
Local Abbreviation table_effect' := (table_effect movies_df genres_df movie_genres_df).
Local Abbreviation loaded_upto' := (loaded_upto movies_df genres_df movie_genres_df).

Lemma and_then_ext {A B} (c : Load A) (k1 k2 : A -> Load B) (w : World) :
  (forall a w', k1 a w' = k2 a w') -> and_then c k1 w = and_then c k2 w.
Proof.
  intros H. unfold and_then. destruct (c w) as [[a | e] w']; [apply H |].
  reflexivity.
Qed.

Lemma ids_of_select (l : list dict) :
  map (get "id") (map (fun r => map (fun c => (c, get c r)) ["id"]) l)
  = map (get "id") l.
Proof. rewrite map_map. apply map_ext. reflexivity. Qed.

(** The block of the movies and the block of the genres are [sync]. *)
Lemma id_block (t : table) (df : DataFrame) (K : Load unit) (w : World) :
  (t = movies /\ df = movies_df) \/ (t = genres /\ df = genres_df) ->
  (existing <- read_sql t ;;
   existing_ids <- lift (column existing "id") ;;
   ids <- lift (column df "id") ;;
   known <- lift (isin ids existing_ids) ;;
   let new_df := select_rows df (invert known) in
   (if negb (empty new_df) then
      to_sql accepts new_df t ;;
      logging INFO (Loaded t (List.length (rows new_df)))
    else logging INFO (Nothing_to_load t)) ;;
   K)%load w
  = (sync' t ;; K)%load w.
Proof.
  intros Ht. unfold and_then, read_sql, sync, lift.
  cbn [unreadable emit store].
  destruct (existsb (table_eqb t) (unreadable w)); [reflexivity |].
  assert (Hcol : column (select t (store w)) "id"
                 = Ok (persisted_ids t (store w))).
  { destruct Ht as [[-> _] | [-> _]]; unfold column, select, persisted_ids;
      cbn [columns rows selected mem existsb String.eqb Ascii.eqb Bool.eqb orb];
      rewrite ids_of_select; reflexivity. }
  rewrite Hcol.
  assert (Hrec : reconcile' t (store w)
                 = new_by_id df (persisted_ids t (store w))).
  { destruct Ht as [[-> ->] | [-> ->]]; reflexivity. }
  rewrite Hrec. unfold new_by_id.
  destruct (column df "id") as [ids |]; [| reflexivity]. cbn [bind].
  destruct (isin ids (persisted_ids t (store w))) as [known |];
    [| reflexivity].
  cbn [bind]. destruct (empty (select_rows df (invert known))); reflexivity.
Qed.

(** The block of the links is [sync]. *)
Lemma link_block (w : World) :
  (existing_movie_genres <- read_sql movie_genres ;;
   new_movie_genres_df <-
     lift (merge_left_indicator movie_genres_df existing_movie_genres
             ["movie_id"; "genre_id"]) ;;
   marks <- lift (column new_movie_genres_df "_merge") ;;
   let new_movie_genres_df :=
     select_rows new_movie_genres_df (series_eq marks (VStr "left_only")) in
   new_movie_genres_df <- lift (drop_columns new_movie_genres_df ["_merge"]) ;;
   if negb (empty new_movie_genres_df) then
     to_sql accepts new_movie_genres_df movie_genres ;;
     logging INFO (Loaded movie_genres (List.length (rows new_movie_genres_df)))
   else logging INFO (Nothing_to_load movie_genres))%load w
  = sync' movie_genres w.
Proof.
  unfold and_then, read_sql, sync, lift. cbn [unreadable emit store].
  destruct (existsb (table_eqb movie_genres) (unreadable w)); [reflexivity |].
  cbn [reconcile]. unfold new_by_pair, link_key.
  destruct (merge_left_indicator _ _ _) as [merged |]; [| reflexivity].
  cbn [bind].
  destruct (column merged "_merge") as [marks |]; [| reflexivity].
  cbn [bind].
  destruct (drop_columns _ _) as [new_df |]; [| reflexivity].
  destruct (empty new_df); reflexivity.
Qed.

(** The [try] block is the three tables in their order. *)
Lemma load_try_stages (w : World) :
  load_try' w = (sync' movies ;; sync' genres ;; sync' movie_genres)%load w.
Proof.
  unfold load_try.
  etransitivity; [apply (id_block movies movies_df); left; split; reflexivity |].
  apply and_then_ext. intros _ w1.
  etransitivity; [apply (id_block genres genres_df); right; split; reflexivity |].
  apply and_then_ext. intros _ w2.
  apply link_block.
Qed.

(** Each block goes one of the five ways. *)
Lemma sync_outcome_holds (t : table) (w : World) :
  sync_outcome accepts movies_df genres_df movie_genres_df t w (sync' t w).
Proof.
  unfold sync. cbn [unreadable emit store].
  destruct (existsb (table_eqb t) (unreadable w)) eqn:Hread;
    [apply sync_unreadable; exact Hread |].
  destruct (reconcile' t (store w)) as [new_df | e] eqn:Hrec;
    [| apply sync_raised; assumption].
  destruct (empty new_df) eqn:Hempty; cbn [negb].
  - eapply sync_nothing; eassumption.
  - unfold and_then, to_sql, logging. cbn [emit store unreadable trace].
    destruct (accepts t (store w) (rows new_df)) eqn:Hacc.
    + unfold emit. cbn [store unreadable trace]. rewrite <- !app_assoc.
      apply sync_loaded; assumption.
    + eapply sync_refused; eassumption.
Qed.


Lemma table_eq_dec (a b : table) : {a = b} + {a <> b}.
Proof. decide equality. Qed.

Lemma table_eqb_eq (a b : table) : table_eqb a b = true <-> a = b.
Proof. destruct a, b; simpl; split; congruence. Qed.

Lemma inserts_into_app (t : table) (evs1 evs2 : list event) :
  inserts_into t (evs1 ++ evs2) = inserts_into t evs1 ++ inserts_into t evs2.
Proof. unfold inserts_into. apply flat_map_app. Qed.

Lemma inserts_into_other (t t' : table) (new_rows : list dict) :
  t' <> t -> inserts_into t' [Insert t new_rows] = [].
Proof.
  intros Hne. unfold inserts_into. simpl.
  destruct (table_eqb t' t) eqn:E; [| reflexivity].
  apply table_eqb_eq in E. contradiction.
Qed.

Lemma inserts_into_same (t : table) (new_rows : list dict) :
  inserts_into t [Insert t new_rows] = [new_rows].
Proof.
  unfold inserts_into. simpl.
  destruct (table_eqb t t) eqn:E; [reflexivity |].
  assert (H : table_eqb t t = true) by (apply table_eqb_eq; reflexivity).
  congruence.
Qed.

Lemma table_rows_append_other (t t' : table) (new_rows : list dict)
    (s : Store) :
  t' <> t -> table_rows t' (append_rows t new_rows s) = table_rows t' s.
Proof. destruct t, t'; simpl; congruence. Qed.

Lemma table_rows_append_same (t : table) (new_rows : list dict) (s : Store) :
  table_rows t (append_rows t new_rows s) = table_rows t s ++ new_rows.
Proof. destruct t; reflexivity. Qed.

(** The delta of a table depends on the rows of that table alone. *)
Lemma reconcile_own_table (t : table) (s s' : Store) :
  table_rows t s' = table_rows t s -> reconcile' t s' = reconcile' t s.
Proof.
  destruct t; simpl; intros H; unfold persisted_ids, select; simpl;
    rewrite H; reflexivity.
Qed.

(** What one block does to the world. *)
Lemma sync_effect (t : table) (w w' : World) (r : result unit) :
  sync' t w = (r, w') ->
  unreadable w' = unreadable w
  /\ (forall t', t' <> t ->
        table_rows t' (store w') = table_rows t' (store w))
  /\ exists evs,
       trace w' = trace w ++ evs
       /\ (forall t', t' <> t -> inserts_into t' evs = [])
       /\ table_effect' t w w' evs.
Proof.
  intros Hrun. pose proof (sync_outcome_holds t w) as Hout.
  rewrite Hrun in Hout.
  inversion Hout as [Hread | e Hread Hrec | new_df Hread Hrec Hempty
                     | new_df Hread Hrec Hempty Hacc
                     | new_df Hread Hrec Hempty Hacc]; subst; clear Hout.
  - split; [reflexivity |]. split; [reflexivity |].
    exists [Query t]. split; [reflexivity |]. split; [reflexivity |].
    left. split; reflexivity.
  - split; [reflexivity |]. split; [reflexivity |].
    exists [Query t]. split; [reflexivity |]. split; [reflexivity |].
    left. split; reflexivity.
  - split; [reflexivity |]. split; [reflexivity |].
    exists [Query t; Log INFO (Nothing_to_load t)].
    split; [simpl; rewrite <- app_assoc; reflexivity |].
    split; [reflexivity |]. left. split; reflexivity.
  - split; [reflexivity |]. split; [reflexivity |].
    exists [Query t; Insert t (rows new_df)].
    split; [simpl; rewrite <- app_assoc; reflexivity |].
    split; [intros t' Hne; apply (inserts_into_other t t' _ Hne) |].
    right. exists new_df. simpl store.
    split; [exact Hrec |]. split; [exact Hempty |].
    split; [| right; reflexivity].
    change (inserts_into t ([Query t] ++ [Insert t (rows new_df)])
            = [rows new_df]).
    rewrite inserts_into_app, inserts_into_same. reflexivity.
  - split; [reflexivity |].
    split; [intros t' Hne; apply table_rows_append_other, Hne |].
    exists [Query t; Insert t (rows new_df);
            Log INFO (Loaded t (List.length (rows new_df)))].
    split; [reflexivity |].
    split.
    { intros t' Hne.
      change (inserts_into t' ([Query t] ++ [Insert t (rows new_df)]
                                 ++ [Log INFO (Loaded t (List.length (rows new_df)))])
              = []).
      rewrite !inserts_into_app, (inserts_into_other t t' _ Hne).
      reflexivity. }
    right. exists new_df. simpl store.
    rewrite table_rows_append_same.
    repeat split; auto.
    change (inserts_into t ([Query t] ++ [Insert t (rows new_df)]
                              ++ [Log INFO (Loaded t (List.length (rows new_df)))])
            = [rows new_df]).
    rewrite !inserts_into_app, inserts_into_same. reflexivity.
Qed.

Lemma loaded_upto_start (w : World) : loaded_upto' 0 w w.
Proof.
  split; [reflexivity |]. exists []. split; [symmetry; apply app_nil_r |].
  intros t. split; [left |]; split; reflexivity.
Qed.

Lemma loaded_upto_log (k : nat) (w w' : World) (l : level) (m : message) :
  loaded_upto' k w w' -> loaded_upto' k w (emit (Log l m) w').
Proof.
  intros [Hun [evs [Htrace Hall]]]. split; [exact Hun |].
  exists (evs ++ [Log l m]). split.
  { simpl. rewrite Htrace, app_assoc. reflexivity. }
  assert (Hins : forall t, inserts_into t (evs ++ [Log l m])
                           = inserts_into t evs).
  { intros t. rewrite inserts_into_app. apply app_nil_r. }
  intros t. destruct (Hall t) as [Heff Hrest].
  unfold table_effect in *. rewrite Hins. simpl store. tauto.
Qed.

Lemma loaded_upto_later (k k' : nat) (w w' : World) :
  k <= k' -> loaded_upto' k w w' -> loaded_upto' k' w w'.
Proof.
  intros Hle [Hun [evs [Htrace Hall]]]. split; [exact Hun |].
  exists evs. split; [exact Htrace |].
  intros t. destruct (Hall t) as [Heff Hrest].
  split; [exact Heff |]. intros Hk. apply Hrest. lia.
Qed.

(** One more block, on the table at the position reached. *)
Lemma loaded_upto_step (t : table) (w w1 w2 : World) (r : result unit) :
  loaded_upto' (rank t) w w1 ->
  sync' t w1 = (r, w2) ->
  loaded_upto' (S (rank t)) w w2.
Proof.
  intros [Hun [evs1 [Htrace1 Hall]]] Hrun.
  destruct (sync_effect t w1 w2 r Hrun)
    as [Hun2 [Hframe [evs2 [Htrace2 [Hothers Heff]]]]].
  split; [congruence |].
  exists (evs1 ++ evs2).
  split; [rewrite Htrace2, Htrace1, app_assoc; reflexivity |].
  intros t'. destruct (Hall t') as [Heff' Huntouched].
  destruct (table_eq_dec t' t) as [-> | Hne].
  - destruct (Huntouched (le_n _)) as [Hrows Hins].
    split; [| intros Hk; lia].
    unfold table_effect in *. rewrite inserts_into_app, Hins. simpl app.
    rewrite <- Hrows.
    rewrite <- (reconcile_own_table t (store w) (store w1) Hrows).
    exact Heff.
  - rewrite inserts_into_app, (Hothers t' Hne), app_nil_r.
    unfold table_effect in *.
    rewrite (Hframe t' Hne), inserts_into_app, (Hothers t' Hne), app_nil_r.
    split; [exact Heff' |]. intros Hk. apply Huntouched. lia.
Qed.

(** The whole load, in terms of its effect on each table. *)
Lemma load_effect (w : World) : loaded_upto' 3 w (load' w).
Proof.
  unfold load_data_to_db. rewrite load_try_stages. unfold and_then.
  pose proof (loaded_upto_start w) as H0.
  destruct (sync' movies w) as [[[] | e1] w1] eqn:H1.
  - pose proof (loaded_upto_step movies w w w1 _ H0 H1) as I1.
    destruct (sync' genres w1) as [[[] | e2] w2] eqn:H2.
    + pose proof (loaded_upto_step genres w w1 w2 _ I1 H2) as I2.
      destruct (sync' movie_genres w2) as [[[] | e3] w3] eqn:H3.
      * apply (loaded_upto_step movie_genres w w2 w3 _ I2 H3).
      * apply loaded_upto_log.
        apply (loaded_upto_step movie_genres w w2 w3 _ I2 H3).
    + apply loaded_upto_log.
      apply (loaded_upto_later 2); [lia |].
      apply (loaded_upto_step genres w w1 w2 _ I1 H2).
  - apply loaded_upto_log.
    apply (loaded_upto_later 1); [lia |].
    apply (loaded_upto_step movies w w w1 _ H0 H1).
Qed.

(** C9: a load only appends.  Whatever the frames and the store, each
    table is afterwards its former rows followed by the rows added, all
    former rows unchanged and in place; every insert issued to a table
    carries exactly the rows reconciled for it against the store as it
    was, and these are not empty; the rows added are none or those of
    that insert; and when the reconciled frame is empty no insert at all
    is issued to the table. *)
Theorem load_is_append_only (w : World) (t : table) :
  exists evs added,
    trace (load' w) = trace w ++ evs
    /\ table_rows t (store (load' w)) = table_rows t (store w) ++ added
    /\ (forall new_rows,
          In new_rows (inserts_into t evs) ->
          exists new_df,
            reconcile' t (store w) = Ok new_df
            /\ rows new_df = new_rows
            /\ empty new_df = false)
    /\ (added = [] \/ inserts_into t evs = [added])
    /\ (forall new_df,
          reconcile' t (store w) = Ok new_df ->
          empty new_df = true ->
          inserts_into t evs = [] /\ added = []).
Proof.
  destruct (load_effect w) as [_ [evs [Htrace Hall]]].
  destruct (Hall t) as [[[Hrows Hins] | [new_df [Hrec [Hne [Hins Hrows]]]]] _].
  - exists evs, []. rewrite app_nil_r, Hins.
    repeat split; auto. intros new_rows [].
  - destruct Hrows as [Hrows | Hrows].
    + exists evs, (rows new_df). rewrite Hins.
      split; [exact Htrace |]. split; [exact Hrows |].
      split; [| split; [right; reflexivity |]].
      * intros new_rows [<- | []]. exists new_df. auto.
      * intros new_df' Hrec' Hempty. congruence.
    + exists evs, []. rewrite app_nil_r, Hins.
      split; [exact Htrace |]. split; [exact Hrows |].
      split; [| split; [left; reflexivity |]].
      * intros new_rows [<- | []]. exists new_df. auto.
      * intros new_df' Hrec' Hempty. congruence.
Qed.

(** *** Running the load a second time *)

Lemma existsb_refl_in (x : dict) (l : list dict) (f : dict -> dict -> bool) :
  In x l -> f x x = true -> existsb (f x) l = true.
Proof. intros Hin Hf. apply existsb_exists. eauto. Qed.

(** Reconciling by identifier again, once the delta has been appended,
    finds nothing new. *)
Lemma new_by_id_again (df new_df : DataFrame) (existing_ids : list value) :
  new_by_id df existing_ids = Ok new_df ->
  new_by_id df (existing_ids ++ map (get "id") (rows new_df))
    = Ok {| columns := columns df; rows := [] |}.
Proof.
  intros Hrun.
  destruct (new_by_id_ok _ _ _ Hrun) as [_ [Hrows Hhash]].
  assert (Hpre : mem "id" (columns df) = true
                 /\ forallb hashable existing_ids = true).
  { unfold new_by_id, column, isin in Hrun.
    destruct (mem "id" (columns df)); [| discriminate]. simpl in Hrun.
    rewrite Hhash in Hrun. simpl in Hrun.
    destruct (forallb hashable existing_ids); [auto | discriminate]. }
  destruct Hpre as [Hcol Hids].
  assert (Hnew : forallb hashable (map (get "id") (rows new_df)) = true).
  { rewrite Hrows. rewrite forallb_forall in *. intros v Hv.
    apply in_map_iff in Hv. destruct Hv as [r [<- Hr]].
    apply filter_In in Hr. apply Hhash, in_map, Hr. }
  rewrite new_by_id_filter; try assumption.
  - f_equal. f_equal. apply filter_none. intros r Hr.
    unfold id_is_new. rewrite existsb_app. apply negb_false_iff.
    destruct (existsb (pd_eqb (get "id" r)) existing_ids) eqn:Hold;
      [reflexivity |].
    simpl. apply existsb_exists. exists (get "id" r). split.
    + apply in_map. rewrite Hrows. apply filter_In. split; [exact Hr |].
      unfold id_is_new. rewrite Hold. reflexivity.
    + apply pd_eqb_refl. rewrite forallb_forall in Hhash.
      apply Hhash, in_map, Hr.
  - rewrite forallb_app, Hids, Hnew. reflexivity.
Qed.

Lemma key_of_select (r : dict) :
  key_of link_key (map (fun c => (c, get c r)) (selected movie_genres))
  = key_of link_key r.
Proof. reflexivity. Qed.

Lemma same_key_refl (r : dict) :
  forallb hashable (key_of link_key r) = true -> same_key link_key r r = true.
Proof.
  unfold same_key, key_of. simpl. intros H.
  apply andb_prop in H. destruct H as [H1 H].
  apply andb_prop in H. destruct H as [H2 _].
  rewrite !pd_eqb_refl by assumption. reflexivity.
Qed.

(** Reconciling by pair again, once the delta has been appended, finds
    nothing new. *)
Lemma new_by_pair_again (df new_df : DataFrame) (s s' : Store) :
  wf_frame df ->
  new_by_pair df (select movie_genres s) = Ok new_df ->
  movie_genres_rows s' = movie_genres_rows s ++ rows new_df ->
  new_by_pair df (select movie_genres s')
    = Ok {| columns := columns df; rows := [] |}.
Proof.
  intros Hwf Hrun Hs'.
  destruct (new_by_pair_ok df (select movie_genres s) new_df eq_refl Hwf Hrun)
    as [-> Hhash].
  assert (Hpre : mem "movie_id" (columns df) = true
                 /\ mem "genre_id" (columns df) = true
                 /\ mem "_merge" (columns df) = false).
  { unfold new_by_pair, merge_left_indicator in Hrun.
    destruct (missing_label (columns df) link_key) eqn:Hl;
      [discriminate |].
    replace (missing_label (columns (select movie_genres s)) link_key)
      with (@None string) in Hrun by reflexivity.
    replace (mem "_merge" (columns (select movie_genres s))) with false
      in Hrun by reflexivity.
    destruct (mem "_merge" (columns df)); [discriminate |].
    repeat split; eapply missing_label_none_inv; try exact Hl; simpl; auto. }
  destruct Hpre as [Hm [Hg Hmark]].
  cbn [rows] in Hs'.
  assert (Hdf : forall r, In r (rows df) ->
                          forallb hashable (key_of link_key r) = true).
  { unfold keys_hashable in Hhash. rewrite forallb_app in Hhash.
    apply andb_prop in Hhash. destruct Hhash as [H _].
    rewrite forallb_forall in H. exact H. }
  assert (Hhash' : keys_hashable df (rows (select movie_genres s')) = true).
  { unfold keys_hashable in *. rewrite forallb_app in *.
    apply andb_prop in Hhash. destruct Hhash as [H1 H2].
    rewrite H1. cbn [andb].
    rewrite forallb_forall in H2. apply forallb_forall. intros x Hx.
    unfold select in Hx. cbn [rows table_rows] in Hx.
    apply in_map_iff in Hx. destruct Hx as [r [<- Hr]].
    rewrite Hs' in Hr. apply in_app_or in Hr. destruct Hr as [Hr | Hr].
    - apply H2. unfold select. cbn [rows table_rows].
      apply in_map_iff. exists r. auto.
    - apply filter_In in Hr. rewrite key_of_select. apply Hdf, Hr. }
  rewrite (new_by_pair_filter df (select movie_genres s') eq_refl Hwf Hm Hg
             Hmark Hhash').
  f_equal. f_equal. apply filter_none. intros r Hr.
  rewrite pair_is_new_select, Hs'. unfold pair_is_new.
  rewrite existsb_app. apply negb_false_iff.
  destruct (existsb (same_key link_key r) (movie_genres_rows s)) eqn:Hold;
    [reflexivity |].
  cbn [orb]. apply existsb_refl_in; [| apply same_key_refl, Hdf, Hr].
  apply filter_In. split; [exact Hr |].
  change (pair_is_new (rows (select movie_genres s)) r = true).
  rewrite pair_is_new_select. unfold pair_is_new. rewrite Hold. reflexivity.
Qed.

(** A computed delta has the columns of the candidates, and these are not
    none. *)
Lemma reconcile_columns (t : table) (s : Store) (new_df : DataFrame) :
  wf_frame movie_genres_df ->
  reconcile' t s = Ok new_df -> columns new_df <> [].
Proof.
  intros Hwf Hrun. destruct t; simpl in Hrun.
  - destruct (new_by_id_ok _ _ _ Hrun) as [Hc _]. rewrite Hc.
    unfold new_by_id, column in Hrun.
    destruct (columns movies_df); [discriminate | discriminate].
  - destruct (new_by_id_ok _ _ _ Hrun) as [Hc _]. rewrite Hc.
    unfold new_by_id, column in Hrun.
    destruct (columns genres_df); [discriminate | discriminate].
  - destruct (new_by_pair_ok movie_genres_df (select movie_genres s) new_df
                eq_refl Hwf Hrun) as [-> _].
    simpl.
    unfold new_by_pair, merge_left_indicator in Hrun.
    destruct (columns movie_genres_df); [discriminate | discriminate].
Qed.

Lemma empty_no_rows (df : DataFrame) :
  columns df <> [] -> empty df = true -> rows df = [].
Proof.
  unfold empty. destruct (columns df); [congruence |].
  destruct (rows df); [reflexivity | discriminate].
Qed.

(** Reconciling a table again, once its delta has been appended, finds
    nothing new. *)
Lemma reconcile_again (t : table) (s s' : Store) (new_df : DataFrame) :
  wf_frame movie_genres_df ->
  reconcile' t s = Ok new_df ->
  table_rows t s' = table_rows t s ++ rows new_df ->
  exists again, reconcile' t s' = Ok again /\ rows again = [].
Proof.
  intros Hwf Hrun Hs'. destruct t; simpl in *.
  - exists {| columns := columns movies_df; rows := [] |}.
    split; [| reflexivity]. unfold persisted_ids. simpl.
    rewrite Hs', map_app. apply new_by_id_again, Hrun.
  - exists {| columns := columns genres_df; rows := [] |}.
    split; [| reflexivity]. unfold persisted_ids. simpl.
    rewrite Hs', map_app. apply new_by_id_again, Hrun.
  - exists {| columns := columns movie_genres_df; rows := [] |}.
    split; [| reflexivity].
    eapply new_by_pair_again; eassumption.
Qed.

(** A block that went through finds nothing to load when it is run again
    on its table as it left it. *)
Lemma sync_again (t : table) (w w1 x : World) :
  wf_frame movie_genres_df ->
  sync' t w = (Ok tt, w1) ->
  table_rows t (store x) = table_rows t (store w1) ->
  unreadable x = unreadable w ->
  sync' t x
    = (Ok tt, emit (Log INFO (Nothing_to_load t)) (emit (Query t) x))
  /\ exists again, reconcile' t (store x) = Ok again /\ rows again = [].
Proof.
  intros Hwf Hrun Hrows Hun.
  pose proof (sync_outcome_holds t w) as Hout. rewrite Hrun in Hout.
  assert (Hagain : existsb (table_eqb t) (unreadable w) = false
                   /\ exists again,
                        reconcile' t (store x) = Ok again /\ rows again = []).
  { inversion Hout as [| | new_df Hread Hrec Hempty |
                       | new_df Hread Hrec Hempty Hacc]; subst; clear Hout.
    - split; [exact Hread |].
      apply (reconcile_again t (store w) (store x) new_df Hwf Hrec).
      simpl store in Hrows. rewrite Hrows.
      rewrite (empty_no_rows new_df), app_nil_r; auto.
      eapply reconcile_columns; eassumption.
    - split; [exact Hread |].
      apply (reconcile_again t (store w) (store x) new_df Hwf Hrec).
      simpl store in Hrows. rewrite Hrows. apply table_rows_append_same. }
  destruct Hagain as [Hread [again [Hrec Hnone]]].
  split; [| eauto].
  unfold sync. cbn [unreadable emit store]. rewrite Hun, Hread, Hrec.
  unfold empty. rewrite Hnone. destruct (columns again); reflexivity.
Qed.

(** C2: after a load that went through without raising, a second load of
    the same frames (the link frame being well formed) reconciles each of
    the three tables to a frame without rows, issues no insert, and leaves
    the store as it was: all it does is query the three tables and log
    that there is nothing to load. *)
Theorem second_load_adds_nothing (w w1 : World) :
  wf_frame movie_genres_df ->
  load_try' w = (Ok tt, w1) ->
  load' w1
    = {| store := store w1;
         unreadable := unreadable w1;
         trace := trace w1
                  ++ [Query movies; Log INFO (Nothing_to_load movies);
                      Query genres; Log INFO (Nothing_to_load genres);
                      Query movie_genres;
                      Log INFO (Nothing_to_load movie_genres)] |}
  /\ (forall t, exists new_df,
        reconcile' t (store w1) = Ok new_df /\ rows new_df = [])
  /\ (forall t, inserts_into t
                  [Query movies; Log INFO (Nothing_to_load movies);
                   Query genres; Log INFO (Nothing_to_load genres);
                   Query movie_genres;
                   Log INFO (Nothing_to_load movie_genres)] = []).
Proof.
  intros Hwf Hrun. rewrite load_try_stages in Hrun. unfold and_then in Hrun.
  destruct (sync' movies w) as [[[] | e1] wa] eqn:H1; [| discriminate].
  destruct (sync' genres wa) as [[[] | e2] wb] eqn:H2; [| discriminate].
  destruct (sync' movie_genres wb) as [[[] | e3] wc] eqn:H3;
    [| discriminate].
  injection Hrun as <-.
  destruct (sync_effect _ _ _ _ H1) as [U1 [F1 _]].
  destruct (sync_effect _ _ _ _ H2) as [U2 [F2 _]].
  destruct (sync_effect _ _ _ _ H3) as [U3 [F3 _]].
  assert (Tm : table_rows movies (store wc) = table_rows movies (store wa)).
  { rewrite F3, F2 by discriminate. reflexivity. }
  assert (Tg : table_rows genres (store wc) = table_rows genres (store wb)).
  { rewrite F3 by discriminate. reflexivity. }
  destruct (sync_again movies w wa wc Hwf H1 Tm) as [R1 D1];
    [congruence |].
  set (x1 := emit (Log INFO (Nothing_to_load movies)) (emit (Query movies) wc))
    in *.
  destruct (sync_again genres wa wb x1 Hwf H2 Tg) as [R2 D2];
    [simpl; congruence |].
  set (x2 := emit (Log INFO (Nothing_to_load genres)) (emit (Query genres) x1))
    in *.
  destruct (sync_again movie_genres wb wc x2 Hwf H3 eq_refl) as [R3 D3];
    [simpl; congruence |].
  split; [| split].
  - unfold load_data_to_db. rewrite load_try_stages. unfold and_then.
    rewrite R1, R2, R3. unfold x2, x1, emit. cbn [store unreadable trace].
    rewrite <- !app_assoc. reflexivity.
  - intros [| |]; assumption.
  - intros [| |]; reflexivity.
Qed.

(** *** A failing read *)

Lemma loaded_upto_query (k : nat) (w w' : World) (t : table) :
  loaded_upto' k w w' -> loaded_upto' k w (emit (Query t) w').
Proof.
  intros [Hun [evs [Htrace Hall]]]. split; [exact Hun |].
  exists (evs ++ [Query t]). split.
  { simpl. rewrite Htrace, app_assoc. reflexivity. }
  assert (Hins : forall t', inserts_into t' (evs ++ [Query t])
                            = inserts_into t' evs).
  { intros t'. rewrite inserts_into_app. apply app_nil_r. }
  intros t'. destruct (Hall t') as [Heff Hrest].
  unfold table_effect in *. rewrite Hins. simpl store. tauto.
Qed.

Lemma sync_unreadable_run (t : table) (w : World) :
  existsb (table_eqb t) (unreadable w) = true ->
  sync' t w = (Raise DatabaseError, emit (Query t) w).
Proof. intros H. unfold sync. cbn [unreadable emit]. rewrite H. reflexivity. Qed.

(** With the read of [t] failing, the load gets as far as [t] and no
    further. *)
Lemma load_stops_at (w : World) (t : table) :
  unreadable w = [t] -> loaded_upto' (rank t) w (load' w).
Proof.
  intros Hun. unfold load_data_to_db. rewrite load_try_stages.
  unfold and_then. pose proof (loaded_upto_start w) as H0.
  destruct t; simpl rank.
  - rewrite sync_unreadable_run by (rewrite Hun; reflexivity).
    apply loaded_upto_log, loaded_upto_query, H0.
  - destruct (sync' movies w) as [[[] | e1] w1] eqn:H1;
      pose proof (loaded_upto_step movies w w w1 _ H0 H1) as I1;
      [| apply loaded_upto_log, I1].
    destruct (sync_effect _ _ _ _ H1) as [U1 _].
    rewrite sync_unreadable_run by (rewrite U1, Hun; reflexivity).
    apply loaded_upto_log, loaded_upto_query, I1.
  - destruct (sync' movies w) as [[[] | e1] w1] eqn:H1;
      pose proof (loaded_upto_step movies w w w1 _ H0 H1) as I1;
      [| apply loaded_upto_log, (loaded_upto_later 1); [lia | exact I1]].
    destruct (sync_effect _ _ _ _ H1) as [U1 _].
    destruct (sync' genres w1) as [[[] | e2] w2] eqn:H2;
      pose proof (loaded_upto_step genres w w1 w2 _ I1 H2) as I2;
      [| apply loaded_upto_log, I2].
    destruct (sync_effect _ _ _ _ H2) as [U2 _].
    rewrite sync_unreadable_run by (rewrite U2, U1, Hun; reflexivity).
    apply loaded_upto_log, loaded_upto_query, I2.
Qed.

(** A block whose read succeeds sees the store only. *)
Lemma sync_same (t : table) (w h : World) :
  store w = store h ->
  existsb (table_eqb t) (unreadable w) = false ->
  existsb (table_eqb t) (unreadable h) = false ->
  fst (sync' t w) = fst (sync' t h)
  /\ store (snd (sync' t w)) = store (snd (sync' t h)).
Proof.
  intros Hs Hw Hh. unfold sync. cbn [unreadable emit store].
  rewrite Hw, Hh, Hs.
  destruct (reconcile' t (store h)) as [new_df | e]; [| auto].
  destruct (empty new_df); cbn [negb]; [auto |].
  unfold and_then, to_sql, logging. cbn [emit store unreadable trace].
  rewrite Hs. destruct (accepts t (store h) (rows new_df)); auto.
Qed.

Lemma sync_keeps (t t' : table) (w : World) :
  t' <> t ->
  table_rows t' (store (snd (sync' t w))) = table_rows t' (store w).
Proof.
  intros Hne. destruct (sync' t w) as [r w'] eqn:Hrun.
  destruct (sync_effect _ _ _ _ Hrun) as [_ [Hframe _]].
  apply Hframe, Hne.
Qed.

(** C1, amended: when the read of one table's keys fails, that table and
    every table after it in the order movies, genres, movie_genres are
    left as they were and get no insert, and the tables before it end up
    exactly as in a load on the same store in which no read fails. *)
Theorem read_failure_stops_the_load (w : World) (t : table) :
  unreadable w = [t] ->
  (exists evs,
     trace (load' w) = trace w ++ evs
     /\ forall t', rank t <= rank t' ->
                   table_rows t' (store (load' w)) = table_rows t' (store w)
                   /\ inserts_into t' evs = [])
  /\ (forall t', rank t' < rank t ->
        table_rows t' (store (load' w))
        = table_rows t'
            (store (load' {| store := store w; unreadable := [];
                             trace := trace w |}))).
Proof.
  intros Hun. split.
  { destruct (load_stops_at w t Hun) as [_ [evs [Htrace Hall]]].
    exists evs. split; [exact Htrace |].
    intros t' Hle. apply (Hall t'), Hle. }
  set (h := {| store := store w; unreadable := []; trace := trace w |}).
  assert (Hfinish : forall (p : result unit * World),
            store (match p with
                   | (Ok _, w') => w'
                   | (Raise e, w') => emit (Log ERROR (Load_failed e)) w'
                   end) = store (snd p)).
  { intros [[[] | e] w']; reflexivity. }
  intros t' Hlt. unfold load_data_to_db. rewrite !Hfinish.
  rewrite !load_try_stages. unfold and_then.
  destruct t; simpl rank in Hlt; [lia | |].
  - assert (t' = movies) by (destruct t'; simpl in Hlt; auto; lia).
    subst t'.
    destruct (sync_same movies w h eq_refl) as [Hr Hs];
      [rewrite Hun; reflexivity | reflexivity |].
    destruct (sync' movies w) as [r1 w1] eqn:H1.
    destruct (sync' movies h) as [r1' h1] eqn:H1h.
    cbn [fst snd] in Hr, Hs. subst r1'.
    destruct (sync_effect _ _ _ _ H1) as [U1 _].
    destruct r1 as [[] | e1]; cbn [snd]; [| rewrite Hs; reflexivity].
    rewrite sync_unreadable_run by (rewrite U1, Hun; reflexivity).
    cbn [snd emit store]. rewrite Hs.
    pose proof (sync_keeps genres movies h1) as K2.
    destruct (sync' genres h1) as [[[] | e2] h2] eqn:H2h; cbn [snd] in *.
    + pose proof (sync_keeps movie_genres movies h2) as K3.
      destruct (sync' movie_genres h2) as [r3 h3]. cbn [snd] in *.
      rewrite K3, K2 by discriminate. reflexivity.
    + rewrite K2 by discriminate. reflexivity.
  - assert (Ht' : t' <> movie_genres) by (destruct t'; simpl in Hlt;
                                          [discriminate | discriminate | lia]).
    destruct (sync_same movies w h eq_refl) as [Hr Hs];
      [rewrite Hun; reflexivity | reflexivity |].
    destruct (sync' movies w) as [r1 w1] eqn:H1.
    destruct (sync' movies h) as [r1' h1] eqn:H1h.
    cbn [fst snd] in Hr, Hs. subst r1'.
    destruct (sync_effect _ _ _ _ H1) as [U1 _].
    destruct (sync_effect _ _ _ _ H1h) as [U1h _].
    destruct r1 as [[] | e1]; cbn [snd]; [| rewrite Hs; reflexivity].
    destruct (sync_same genres w1 h1 Hs) as [Hr2 Hs2];
      [rewrite U1, Hun; reflexivity | rewrite U1h; reflexivity |].
    destruct (sync' genres w1) as [r2 w2] eqn:H2.
    destruct (sync' genres h1) as [r2' h2] eqn:H2h.
    cbn [fst snd] in Hr2, Hs2. subst r2'.
    destruct (sync_effect _ _ _ _ H2) as [U2 _].
    destruct r2 as [[] | e2]; cbn [snd]; [| rewrite Hs2; reflexivity].
    rewrite sync_unreadable_run by (rewrite U2, U1, Hun; reflexivity).
    cbn [snd emit store]. rewrite Hs2.
    symmetry. apply sync_keeps, Ht'.
Qed.

End LoadFacts.

(** A store whose movies cannot be read, and two genres to load. *)
Lemma read_failure_stops_the_load_witness :
  (exists evs,
     trace (load_data_to_db schema_accepts
              (from_records [[("id", VInt 1)]]) (from_records sample_genres)
              (links_frame [])
              {| store := empty_store; unreadable := [movies]; trace := [] |})
     = [] ++ evs
     /\ forall t', rank movies <= rank t' ->
                   table_rows t'
                     (store (load_data_to_db schema_accepts
                               (from_records [[("id", VInt 1)]])
                               (from_records sample_genres) (links_frame [])
                               {| store := empty_store;
                                  unreadable := [movies]; trace := [] |}))
                   = table_rows t' empty_store
                   /\ inserts_into t' evs = []).
Proof.
  apply (read_failure_stops_the_load schema_accepts
           (from_records [[("id", VInt 1)]]) (from_records sample_genres)
           (links_frame [])
           {| store := empty_store; unreadable := [movies]; trace := [] |}
           movies).
  reflexivity.
Defined.

(** C1, as claimed, fails: with the read of the movies failing and
    nothing else wrong, two genres are new, yet the genres are never
    queried and none is appended; the load logs the failure and ends. *)
Lemma read_failure_on_movies_skips_genres :
  let w := {| store := empty_store; unreadable := [movies]; trace := [] |} in
  let movies_df := from_records [[("id", VInt 1)]] in
  let genres_df := from_records sample_genres in
  let w' :=
    load_data_to_db schema_accepts movies_df genres_df (links_frame []) w in
  reconcile movies_df genres_df (links_frame []) genres (store w)
    = Ok genres_df
  /\ rows genres_df = sample_genres
  /\ schema_accepts genres (store w) (rows genres_df) = true
  /\ genres_rows (store w') = []
  /\ trace w' = [Query movies; Log ERROR (Load_failed DatabaseError)].
Proof. repeat split. Qed.

(** A first load into an empty store, then the same load again. *)
Lemma second_load_adds_nothing_witness :
  let movies_df := from_records [[("id", VInt 5)]; [("id", VInt 7)]] in
  let genres_df := from_records sample_genres in
  let links := links_frame [(5, 10); (5, 20)]%Z in
  let w := {| store := empty_store; unreadable := []; trace := [] |} in
  let w1 := snd (load_try schema_accepts movies_df genres_df links w) in
  movie_genres_rows (store w1) = [link 5 10; link 5 20]
  /\ load_data_to_db schema_accepts movies_df genres_df links w1
     = {| store := store w1;
          unreadable := unreadable w1;
          trace := trace w1
                   ++ [Query movies; Log INFO (Nothing_to_load movies);
                       Query genres; Log INFO (Nothing_to_load genres);
                       Query movie_genres;
                       Log INFO (Nothing_to_load movie_genres)] |}.
Proof.
  split; [reflexivity |].
  apply (second_load_adds_nothing schema_accepts
           (from_records [[("id", VInt 5)]; [("id", VInt 7)]])
           (from_records sample_genres)
           (links_frame [(5, 10); (5, 20)]%Z)
           {| store := empty_store; unreadable := []; trace := [] |}).
  - repeat constructor.
  - reflexivity.
Defined.

(** ** The deltas, as [load_data_to_db] computes and inserts them *)

Section Deltas.

Variable accepts : table -> Store -> list dict -> bool.
Variables movies_df genres_df movie_genres_df : DataFrame.

Local Abbreviation reconcile' := (reconcile movies_df genres_df movie_genres_df).
Local Abbreviation sync' := (sync accepts movies_df genres_df movie_genres_df).
Local Abbreviation load' := (load_data_to_db accepts movies_df genres_df movie_genres_df).

(** The load, block by block. *)
Lemma load_blocks (w : World) :
  load' w =
    let (r1, w1) := sync' movies w in
    match r1 with
    | Raise e => emit (Log ERROR (Load_failed e)) w1
    | Ok _ =>
        let (r2, w2) := sync' genres w1 in
        match r2 with
        | Raise e => emit (Log ERROR (Load_failed e)) w2
        | Ok _ =>
            let (r3, w3) := sync' movie_genres w2 in
            match r3 with
            | Raise e => emit (Log ERROR (Load_failed e)) w3
            | Ok _ => w3
            end
        end
    end.
Proof.
  unfold load_data_to_db. rewrite load_try_stages. unfold and_then.
  destruct (sync' movies w) as [[[] | e1] w1]; [| reflexivity].
  destruct (sync' genres w1) as [[[] | e2] w2]; [| reflexivity].
  destruct (sync' movie_genres w2) as [[[] | e3] w3]; reflexivity.
Qed.

(** The block of a table whose keys can be read and whose delta can be
    computed: the insert it issues, the rows it leaves in the table, and
    how it ends. *)
Lemma block_delta (t : table) (w w1 : World) (r : result unit)
    (new_df : DataFrame) :
  sync' t w = (r, w1) ->
  readable t w = true ->
  reconcile' t (store w) = Ok new_df ->
  columns new_df <> [] ->
  unreadable w1 = unreadable w
  /\ inserts_into t (trace w1)
     = inserts_into t (trace w)
       ++ match rows new_df with
          | [] => []
          | _ :: _ => [rows new_df]
          end
  /\ table_rows t (store w1)
     = table_rows t (store w)
       ++ (if accepts t (store w) (rows new_df) then rows new_df else [])
  /\ (r = Ok tt -> store w1 = append_rows t (rows new_df) (store w))
  /\ (rows new_df = [] \/ accepts t (store w) (rows new_df) = true ->
      r = Ok tt).
Proof.
  unfold readable, sync. cbn [unreadable emit store].
  intros Hrun Hread Hrec Hcols. apply negb_true_iff in Hread.
  rewrite Hread, Hrec in Hrun. unfold empty in Hrun.
  destruct (columns new_df) as [| c cols]; [contradiction |].
  destruct (rows new_df) as [| row others] eqn:Hrows; cbn [negb] in Hrun.
  - unfold logging in Hrun. injection Hrun as <- <-.
    cbn [emit store unreadable trace].
    split; [reflexivity |].
    split; [rewrite <- app_assoc, inserts_into_app; reflexivity |].
    split; [destruct (accepts t (store w) []); symmetry; apply app_nil_r |].
    split; [| reflexivity].
    intros _. destruct t, (store w); simpl; rewrite app_nil_r; reflexivity.
  - unfold and_then, to_sql, logging in Hrun.
    cbn [emit store unreadable trace] in Hrun. rewrite Hrows in Hrun.
    destruct (accepts t (store w) (row :: others)) eqn:Hacc;
      injection Hrun as <- <-; cbn [emit store unreadable trace].
    + split; [reflexivity |].
      split.
      { rewrite <- !app_assoc, !inserts_into_app.
        rewrite inserts_into_same. reflexivity. }
      split; [apply table_rows_append_same |].
      split; reflexivity.
    + split; [reflexivity |].
      split.
      { rewrite <- !app_assoc, !inserts_into_app, inserts_into_same.
        reflexivity. }
      split; [symmetry; apply app_nil_r |].
      split; [discriminate |].
      intros [H | H]; discriminate.
Qed.

(** The block of one table leaves the other tables and their inserts as
    they were. *)
Lemma block_elsewhere (t t' : table) (w w1 : World) (r : result unit) :
  sync' t w = (r, w1) ->
  t' <> t ->
  unreadable w1 = unreadable w
  /\ inserts_into t' (trace w1) = inserts_into t' (trace w)
  /\ table_rows t' (store w1) = table_rows t' (store w).
Proof.
  intros Hrun Hne.
  destruct (sync_effect accepts movies_df genres_df movie_genres_df
              t w w1 r Hrun)
    as [Hun [Hframe [evs [Htrace [Hothers _]]]]].
  split; [exact Hun |].
  split; [| apply Hframe, Hne].
  rewrite Htrace, inserts_into_app, (Hothers t' Hne). apply app_nil_r.
Qed.

Lemma inserts_into_log (t : table) (l : level) (m : message) (w : World) :
  inserts_into t (trace (emit (Log l m) w)) = inserts_into t (trace w).
Proof. simpl. rewrite inserts_into_app. apply app_nil_r. Qed.

(** The delta by identifier, as the block of the movies or of the genres
    computes it from a store. *)
Lemma id_delta (t : table) (df : DataFrame) (s : Store) :
  (t = movies /\ df = movies_df) \/ (t = genres /\ df = genres_df) ->
  mem "id" (columns df) = true ->
  forallb hashable (map (get "id") (rows df)) = true ->
  forallb hashable (persisted_ids t s) = true ->
  reconcile' t s
  = Ok {| columns := columns df;
          rows := filter
                    (fun r => negb (existsb (pd_eqb (get "id" r))
                                      (persisted_ids t s))) (rows df) |}
  /\ columns df <> [].
Proof.
  intros Ht Hcol Hrows Hids. split.
  - destruct Ht as [[-> ->] | [-> ->]]; simpl;
      apply new_by_id_filter; assumption.
  - intros E. rewrite E in Hcol. discriminate.
Qed.

(** The delta of the links, as the block of the links computes it from a
    store. *)
Lemma pair_delta (s : Store) :
  wf_frame movie_genres_df ->
  mem "movie_id" (columns movie_genres_df) = true ->
  mem "genre_id" (columns movie_genres_df) = true ->
  mem "_merge" (columns movie_genres_df) = false ->
  keys_hashable movie_genres_df (movie_genres_rows s) = true ->
  reconcile' movie_genres s
  = Ok {| columns := columns movie_genres_df;
          rows := filter
                    (fun r =>
                       negb (existsb
                               (fun p =>
                                  pd_eqb (get "movie_id" r) (get "movie_id" p)
                                  && pd_eqb (get "genre_id" r)
                                       (get "genre_id" p))
                               (movie_genres_rows s)))
                    (rows movie_genres_df) |}
  /\ columns movie_genres_df <> [].
Proof.
  intros Hwf Hm Hg Hmark Hhash. split.
  - simpl. rewrite new_by_pair_filter; try assumption.
    + f_equal. f_equal. apply filter_ext. intros l.
      rewrite pair_is_new_select. unfold pair_is_new. f_equal.
      apply existsb_pointwise. intros p. unfold same_key. simpl.
      rewrite andb_true_r. reflexivity.
    + reflexivity.
    + unfold keys_hashable in *. rewrite forallb_app in *.
      apply andb_prop in Hhash. destruct Hhash as [H1 H2].
      rewrite H1. simpl. clear - H2.
      induction (movie_genres_rows s) as [| r rs IH]; [reflexivity |].
      cbn [map forallb] in *. apply andb_prop in H2. destruct H2 as [Hr H2].
      rewrite IH by exact H2. rewrite andb_true_r. exact Hr.
  - intros E. rewrite E in Hm. discriminate.
Qed.

Lemma filter_new_In {A B} (same : A -> B -> bool) (persisted : list B)
    (candidates : list A) (r : A) :
  In r (filter (fun r => negb (existsb (same r) persisted)) candidates)
  <-> In r candidates /\ forall p, In p persisted -> same r p = false.
Proof.
  rewrite filter_In, negb_true_iff. split.
  - intros [Hin Hnew]. split; [exact Hin |]. intros p Hp.
    apply not_true_is_false. intros Heq.
    assert (Hex : existsb (same r) persisted = true)
      by (apply existsb_exists; eauto).
    congruence.
  - intros [Hin Hnew]. split; [exact Hin |].
    apply not_true_is_false. intros Hex.
    apply existsb_exists in Hex. destruct Hex as [p [Hp Heq]].
    rewrite (Hnew p Hp) in Heq. discriminate.
Qed.

(** What is left of the load after the block of a table keeps that
    table and its inserts. *)
Ltac rest_of_load kept :=
  repeat match goal with
    | |- context [sync accepts movies_df genres_df movie_genres_df ?t ?w] =>
        let r := fresh "r" in
        let w' := fresh "w" in
        let H := fresh "H" in
        let U := fresh "U" in
        let I := fresh "I" in
        let R := fresh "R" in
        destruct (sync' t w) as [r w'] eqn:H;
        destruct (block_elsewhere t kept w w' r H ltac:(discriminate))
          as [U [I R]];
        cbn [table_rows] in R;
        destruct r as [[] |]
    end;
  rewrite ?inserts_into_log; cbn [store emit];
  congruence.

(** C5: the block of the movies, when the identifiers persisted can be
    read and hashed and the candidates have an [id] column of hashable
    values, issues one insert, of the candidate rows whose identifier
    equals no persisted identifier, each as often as among the candidates
    and in their order, or no insert when there is no such row; when the
    store takes them, the table ends as its former rows followed by
    these.  When that block has gone through, the same holds of the block
    of the genres. *)
Theorem id_delta_is_ordered_difference (w : World) :
  let s := store w in
  let new_movies :=
    filter (fun r => negb (existsb (pd_eqb (get "id" r))
                             (persisted_ids movies s))) (rows movies_df) in
  let new_genres :=
    filter (fun r => negb (existsb (pd_eqb (get "id" r))
                             (persisted_ids genres s))) (rows genres_df) in
  let w' := load_data_to_db accepts movies_df genres_df movie_genres_df w in
  readable movies w = true ->
  mem "id" (columns movies_df) = true ->
  forallb hashable (map (get "id") (rows movies_df)) = true ->
  forallb hashable (persisted_ids movies s) = true ->
  (inserts_into movies (trace w')
   = inserts_into movies (trace w)
     ++ match new_movies with
        | [] => []
        | _ :: _ => [new_movies]
        end
   /\ movies_rows (store w')
      = movies_rows s
        ++ (if accepts movies s new_movies then new_movies else [])
   /\ subseq new_movies (rows movies_df)
   /\ (forall r, In r new_movies <->
                 In r (rows movies_df)
                 /\ forall k, In k (persisted_ids movies s) ->
                              pd_eqb (get "id" r) k = false))
  /\ (new_movies = [] \/ accepts movies s new_movies = true ->
      readable genres w = true ->
      mem "id" (columns genres_df) = true ->
      forallb hashable (map (get "id") (rows genres_df)) = true ->
      forallb hashable (persisted_ids genres s) = true ->
      inserts_into genres (trace w')
      = inserts_into genres (trace w)
        ++ match new_genres with
           | [] => []
           | _ :: _ => [new_genres]
           end
      /\ genres_rows (store w')
         = genres_rows s
           ++ (if accepts genres (append_rows movies new_movies s) new_genres
               then new_genres else [])
      /\ subseq new_genres (rows genres_df)
      /\ (forall r, In r new_genres <->
                    In r (rows genres_df)
                    /\ forall k, In k (persisted_ids genres s) ->
                                 pd_eqb (get "id" r) k = false)).
Proof.
  intros s new_movies new_genres w' Hread Hcol Hrows Hids.
  destruct (id_delta movies movies_df s) as [Hrec1 Hne1];
    [left; split; reflexivity | assumption ..|].
  fold new_movies in Hrec1.
  subst w'. rewrite load_blocks.
  destruct (sync' movies w) as [r1 w1] eqn:H1.
  destruct (block_delta movies w w1 r1 _ H1 Hread Hrec1 Hne1)
    as [U1 [I1 [R1 [S1 A1]]]].
  cbn [rows table_rows] in I1, R1, S1, A1. fold s in R1, S1, A1.
  split.
  - split; [| split; [| split;
                        [apply subseq_filter | apply filter_new_In]]];
      destruct r1 as [[] |]; rest_of_load movies.
  - intros Htaken Hread2 Hcol2 Hrows2 Hids2.
    rewrite (A1 Htaken) in *. specialize (S1 eq_refl).
    destruct (id_delta genres genres_df (store w1)) as [Hrec2 Hne2];
      [right; split; reflexivity | try assumption ..|].
    { rewrite S1. exact Hids2. }
    assert (P2 : persisted_ids genres (store w1) = persisted_ids genres s)
      by (rewrite S1; reflexivity).
    rewrite P2 in Hrec2. fold new_genres in Hrec2.
    destruct (sync' genres w1) as [r2 w2] eqn:H2.
    assert (Hread2' : readable genres w1 = true).
    { unfold readable in *. rewrite U1. exact Hread2. }
    destruct (block_delta genres w1 w2 r2 _ H2 Hread2' Hrec2 Hne2)
      as [U2 [I2 [R2 _]]].
    cbn [rows table_rows] in I2, R2.
    assert (G1 : genres_rows (store w1) = genres_rows s)
      by (rewrite S1; reflexivity).
    rewrite G1 in R2. rewrite S1 in R2.
    destruct (block_elsewhere movies genres w w1 (Ok tt) H1
                ltac:(discriminate)) as [_ [I0 R0]].
    cbn [table_rows] in R0.
    split; [| split; [| split;
                        [apply subseq_filter | apply filter_new_In]]];
      destruct r2 as [[] |]; rest_of_load genres.
Qed.

(** C4: when the blocks of the movies and of the genres have gone
    through, the block of the links, given candidates with the columns
    [movie_id] and [genre_id] and hashable keys, issues one insert, of
    the candidate rows whose pair [(movie_id, genre_id)] is the pair of
    no persisted link, or no insert when there is no such row: a
    candidate is left out only when one persisted link agrees with it in
    both columns, whatever the movies and the genres persisted or
    offered.  When the store takes them, the table ends as its former
    rows followed by these. *)
Theorem link_delta_is_anti_join_on_pair (w : World) :
  let s := store w in
  let new_movies :=
    filter (fun r => negb (existsb (pd_eqb (get "id" r))
                             (persisted_ids movies s))) (rows movies_df) in
  let new_genres :=
    filter (fun r => negb (existsb (pd_eqb (get "id" r))
                             (persisted_ids genres s))) (rows genres_df) in
  let new_links :=
    filter
      (fun r =>
         negb (existsb
                 (fun p => pd_eqb (get "movie_id" r) (get "movie_id" p)
                           && pd_eqb (get "genre_id" r) (get "genre_id" p))
                 (movie_genres_rows s)))
      (rows movie_genres_df) in
  let s' := append_rows genres new_genres (append_rows movies new_movies s) in
  let w' := load_data_to_db accepts movies_df genres_df movie_genres_df w in
  unreadable w = [] ->
  mem "id" (columns movies_df) = true ->
  forallb hashable (map (get "id") (rows movies_df)) = true ->
  forallb hashable (persisted_ids movies s) = true ->
  new_movies = [] \/ accepts movies s new_movies = true ->
  mem "id" (columns genres_df) = true ->
  forallb hashable (map (get "id") (rows genres_df)) = true ->
  forallb hashable (persisted_ids genres s) = true ->
  new_genres = []
  \/ accepts genres (append_rows movies new_movies s) new_genres = true ->
  wf_frame movie_genres_df ->
  mem "movie_id" (columns movie_genres_df) = true ->
  mem "genre_id" (columns movie_genres_df) = true ->
  mem "_merge" (columns movie_genres_df) = false ->
  keys_hashable movie_genres_df (movie_genres_rows s) = true ->
  inserts_into movie_genres (trace w')
  = inserts_into movie_genres (trace w)
    ++ match new_links with
       | [] => []
       | _ :: _ => [new_links]
       end
  /\ movie_genres_rows (store w')
     = movie_genres_rows s
       ++ (if accepts movie_genres s' new_links then new_links else [])
  /\ subseq new_links (rows movie_genres_df)
  /\ (forall r, In r new_links <->
                In r (rows movie_genres_df)
                /\ forall p, In p (movie_genres_rows s) ->
                             pd_eqb (get "movie_id" r) (get "movie_id" p)
                             && pd_eqb (get "genre_id" r) (get "genre_id" p)
                             = false).
Proof.
  intros s new_movies new_genres new_links s' w' Hun
    Hcol1 Hrows1 Hids1 Htaken1 Hcol2 Hrows2 Hids2 Htaken2
    Hwf Hm Hg Hmark Hhash.
  assert (Hread : forall t x, unreadable x = unreadable w ->
                              readable t x = true).
  { intros t x Hx. unfold readable. rewrite Hx, Hun. reflexivity. }
  destruct (id_delta movies movies_df s) as [Hrec1 Hne1];
    [left; split; reflexivity | assumption ..|].
  fold new_movies in Hrec1.
  subst w'. rewrite load_blocks.
  destruct (sync' movies w) as [r1 w1] eqn:H1.
  destruct (block_delta movies w w1 r1 _ H1 (Hread movies w eq_refl)
              Hrec1 Hne1) as [U1 [_ [_ [S1 A1]]]].
  cbn [rows] in S1, A1. fold s in S1, A1.
  rewrite (A1 Htaken1) in *. specialize (S1 eq_refl).
  destruct (id_delta genres genres_df (store w1)) as [Hrec2 Hne2];
    [right; split; reflexivity | try assumption ..|].
  { rewrite S1. exact Hids2. }
  assert (P2 : persisted_ids genres (store w1) = persisted_ids genres s)
    by (rewrite S1; reflexivity).
  rewrite P2 in Hrec2. fold new_genres in Hrec2.
  destruct (sync' genres w1) as [r2 w2] eqn:H2.
  destruct (block_delta genres w1 w2 r2 _ H2 (Hread genres w1 U1)
              Hrec2 Hne2) as [U2 [_ [_ [S2 A2]]]].
  cbn [rows] in S2, A2. rewrite S1 in S2, A2.
  rewrite (A2 Htaken2) in *. specialize (S2 eq_refl). fold s' in S2.
  destruct (pair_delta (store w2)) as [Hrec3 Hne3]; try assumption.
  { rewrite S2. exact Hhash. }
  assert (P3 : movie_genres_rows (store w2) = movie_genres_rows s)
    by (rewrite S2; reflexivity).
  rewrite P3 in Hrec3. fold new_links in Hrec3.
  destruct (sync' movie_genres w2) as [r3 w3] eqn:H3.
  destruct (block_delta movie_genres w2 w3 r3 _ H3
              (Hread movie_genres w2 (eq_trans U2 U1)) Hrec3 Hne3)
    as [_ [I3 [R3 _]]].
  cbn [rows table_rows] in I3, R3. rewrite P3 in R3. rewrite S2 in R3.
  destruct (block_elsewhere movies movie_genres w w1 (Ok tt) H1
              ltac:(discriminate)) as [_ [I1 _]].
  destruct (block_elsewhere genres movie_genres w1 w2 (Ok tt) H2
              ltac:(discriminate)) as [_ [I2 _]].
  split; [| split; [| split;
                      [apply subseq_filter
                      | apply (filter_new_In
                                 (fun r p =>
                                    pd_eqb (get "movie_id" r)
                                      (get "movie_id" p)
                                    && pd_eqb (get "genre_id" r)
                                         (get "genre_id" p)))]]];
    destruct r3 as [[] |]; rewrite ?inserts_into_log; cbn [store emit];
    congruence.
Qed.


End Deltas.

(** Candidates 1, 2, 3 against the persisted movies 3 and 1, and the two
    sample genres against the persisted genre 10, in a store created by
    [create_tables]. *)
Lemma id_delta_is_ordered_difference_witness :
  let movies_df :=
    from_records [[("id", VInt 1)]; [("id", VInt 2)]; [("id", VInt 3)]] in
  let w := {| store := {| movies_rows := [[("id", VInt 3)]; [("id", VInt 1)]];
                          genres_rows := [[("id", VInt 10)]];
                          movie_genres_rows := [] |};
              unreadable := []; trace := [] |} in
  let w' := load_data_to_db schema_accepts movies_df
              (from_records sample_genres) (links_frame []) w in
  inserts_into movies (trace w') = [[[("id", VInt 2)]]]
  /\ movies_rows (store w')
     = [[("id", VInt 3)]; [("id", VInt 1)]; [("id", VInt 2)]]
  /\ inserts_into genres (trace w')
     = [[[("id", VInt 20); ("name", VStr "Drama")]]]
  /\ genres_rows (store w')
     = [[("id", VInt 10)]; [("id", VInt 20); ("name", VStr "Drama")]].
Proof.
  cbv zeta.
  destruct (id_delta_is_ordered_difference schema_accepts
              (from_records
                 [[("id", VInt 1)]; [("id", VInt 2)]; [("id", VInt 3)]])
              (from_records sample_genres) (links_frame [])
              {| store := {| movies_rows := [[("id", VInt 3)];
                                             [("id", VInt 1)]];
                             genres_rows := [[("id", VInt 10)]];
                             movie_genres_rows := [] |};
                 unreadable := []; trace := [] |})
    as [[I1 [R1 _]] H2]; [reflexivity | reflexivity | reflexivity
                         | reflexivity |].
  destruct H2 as [I2 [R2 _]];
    [right; reflexivity | reflexivity | reflexivity | reflexivity
    | reflexivity |].
  split; [exact I1 |]. split; [exact R1 |]. split; [exact I2 | exact R2].
Defined.

(** The example: candidates (1,10), (2,10), (3,10) against the persisted
    pair (1,10), with the movies 1 and 2 and the genre 10 persisted, in a
    store created by [create_tables]; the movie 3 is new in the first
    load and persisted before the second. *)
Lemma link_delta_is_anti_join_on_pair_witness :
  let links := links_frame [(1, 10); (2, 10); (3, 10)]%Z in
  let movies_df :=
    from_records [[("id", VInt 1)]; [("id", VInt 2)]; [("id", VInt 3)]] in
  let w := {| store := {| movies_rows := [[("id", VInt 1)]; [("id", VInt 2)]];
                          genres_rows := [[("id", VInt 10)]];
                          movie_genres_rows := [link 1 10] |};
              unreadable := []; trace := [] |} in
  let v := {| store := {| movies_rows := [[("id", VInt 1)]; [("id", VInt 2)];
                                          [("id", VInt 3)]];
                          genres_rows := [[("id", VInt 10)]];
                          movie_genres_rows := [link 1 10] |};
              unreadable := []; trace := [] |} in
  let w' := load_data_to_db schema_accepts movies_df
              (from_records sample_genres) links w in
  let v' := load_data_to_db schema_accepts movies_df
              (from_records sample_genres) links v in
  (inserts_into movie_genres (trace w') = [[link 2 10; link 3 10]]
   /\ movie_genres_rows (store w') = [link 1 10; link 2 10; link 3 10])
  /\ (inserts_into movie_genres (trace v') = [[link 2 10; link 3 10]]
      /\ movie_genres_rows (store v') = [link 1 10; link 2 10; link 3 10]).
Proof.
  cbv zeta. split.
  - destruct (link_delta_is_anti_join_on_pair schema_accepts
                (from_records
                   [[("id", VInt 1)]; [("id", VInt 2)]; [("id", VInt 3)]])
                (from_records sample_genres)
                (links_frame [(1, 10); (2, 10); (3, 10)]%Z)
                {| store := {| movies_rows := [[("id", VInt 1)];
                                               [("id", VInt 2)]];
                               genres_rows := [[("id", VInt 10)]];
                               movie_genres_rows := [link 1 10] |};
                   unreadable := []; trace := [] |})
      as [I [R _]];
      [reflexivity | reflexivity | reflexivity | reflexivity
      | right; reflexivity | reflexivity | reflexivity | reflexivity
      | right; reflexivity | repeat constructor | reflexivity | reflexivity
      | reflexivity | reflexivity |].
    split; [exact I | exact R].
  - destruct (link_delta_is_anti_join_on_pair schema_accepts
                (from_records
                   [[("id", VInt 1)]; [("id", VInt 2)]; [("id", VInt 3)]])
                (from_records sample_genres)
                (links_frame [(1, 10); (2, 10); (3, 10)]%Z)
                {| store := {| movies_rows := [[("id", VInt 1)];
                                               [("id", VInt 2)];
                                               [("id", VInt 3)]];
                               genres_rows := [[("id", VInt 10)]];
                               movie_genres_rows := [link 1 10] |};
                   unreadable := []; trace := [] |})
      as [I [R _]];
      [reflexivity | reflexivity | reflexivity | reflexivity
      | left; reflexivity | reflexivity | reflexivity | reflexivity
      | right; reflexivity | repeat constructor | reflexivity | reflexivity
      | reflexivity | reflexivity |].
    split; [exact I | exact R].
Defined.

(** * Further properties *)

(** ** [cleanup_data], beyond the first record of each identifier *)

(** What [lstrip] leaves does not start with white space. *)
Lemma lstrip_no_space (n : nat) : forall s,
  String.length s <= n -> space_prefix (lstrip s) = None.
Proof.
  induction n as [| n IH]; intros s Hn.
  - destruct s; [reflexivity | simpl in Hn; lia].
  - destruct s as [| a s1]; [reflexivity |]. cbn [lstrip]. simpl in Hn.
    destruct (space1 a) eqn:Ha; [apply IH; lia |].
    destruct s1 as [| b s2]; [simpl; rewrite Ha; reflexivity |].
    simpl in Hn.
    destruct (space2 a b) eqn:Hb; [apply IH; lia |].
    destruct s2 as [| c s3]; [simpl; rewrite Ha, Hb; reflexivity |].
    simpl in Hn.
    destruct (space3 a b c) eqn:Hc; [apply IH; lia |].
    simpl. rewrite Ha, Hb, Hc. reflexivity.
Qed.

(** [lstrip] leaves alone what does not start with white space. *)
Lemma lstrip_fixed (s : string) : space_prefix s = None -> lstrip s = s.
Proof.
  destruct s as [| a [| b [| c s3]]]; simpl; try reflexivity.
  - destruct (space1 a); [discriminate | reflexivity].
  - destruct (space1 a); [discriminate |].
    destruct (space2 a b); [discriminate | reflexivity].
  - destruct (space1 a); [discriminate |].
    destruct (space2 a b); [discriminate |].
    destruct (space3 a b c); [discriminate | reflexivity].
Qed.

(** White space at the front stays there when the text gets longer. *)
Lemma space_prefix_app (p u r : string) :
  space_prefix p = Some r ->
  space_prefix (p ++ u)%string = Some (r ++ u)%string.
Proof.
  destruct p as [| a [| b [| c s3]]]; simpl; try discriminate.
  - destruct (space1 a); [| discriminate]. intros H. injection H as <-.
    reflexivity.
  - destruct (space1 a); [intros H; injection H as <-; reflexivity |].
    destruct (space2 a b); [| discriminate].
    intros H. injection H as <-. reflexivity.
  - destruct (space1 a); [intros H; injection H as <-; reflexivity |].
    destruct (space2 a b); [intros H; injection H as <-; reflexivity |].
    destruct (space3 a b c); [| discriminate].
    intros H. injection H as <-. reflexivity.
Qed.

(** [rstrip] cuts the text at some point. *)
Lemma rstrip_prefix (s : string) : exists u, s = (rstrip s ++ u)%string.
Proof.
  induction s as [| a s [u IH]]; [exists EmptyString; reflexivity |].
  cbn [rstrip].
  destruct (space_prefix (String a (rstrip s))) as [[| ? ?] |];
    [exists (String a s); reflexivity | | ];
    exists u; simpl; rewrite <- IH; reflexivity.
Qed.

Lemma rstrip_rstrip (s : string) : rstrip (rstrip s) = rstrip s.
Proof.
  induction s as [| a s IH]; [reflexivity |].
  cbn [rstrip].
  destruct (space_prefix (String a (rstrip s))) as [[| b r] |] eqn:E;
    [reflexivity | |]; cbn [rstrip]; rewrite IH, E; reflexivity.
Qed.

Lemma lstrip_rstrip_lstrip (s : string) :
  lstrip (rstrip (lstrip s)) = rstrip (lstrip s).
Proof.
  apply lstrip_fixed.
  destruct (space_prefix (rstrip (lstrip s))) as [r |] eqn:E;
    [| reflexivity].
  destruct (rstrip_prefix (lstrip s)) as [u Hu].
  pose proof (space_prefix_app _ u _ E) as H. rewrite <- Hu in H.
  rewrite (lstrip_no_space _ s (le_n _)) in H. discriminate.
Qed.

(** Stripping a stripped string changes nothing. *)
Lemma strip_strip (s : string) : strip (strip s) = strip s.
Proof.
  unfold strip. rewrite lstrip_rstrip_lstrip. apply rstrip_rstrip.
Qed.

Lemma setitem_setitem (k : string) (v v' : value) (d : dict) :
  setitem k v (setitem k v' d) = setitem k v d.
Proof.
  induction d as [| [k0 v0] d IH]; simpl.
  - rewrite String.eqb_refl. reflexivity.
  - destruct (String.eqb k k0) eqn:E; simpl; rewrite E; [reflexivity |].
    rewrite IH. reflexivity.
Qed.

Lemma lookup_normalized_other (k : string) (r : dict) :
  String.eqb k "overview" = false -> lookup k (normalized r) = lookup k r.
Proof.
  intros Hk. unfold normalized. destruct (clean_overview r); [| reflexivity].
  apply lookup_setitem_other, Hk.
Qed.

(** The overview [cleanup_data] stores is a string that stripping leaves
    alone. *)
Lemma clean_overview_stripped (r : dict) (v : value) :
  clean_overview r = Ok v -> exists s, v = VStr s /\ strip s = s.
Proof.
  unfold clean_overview.
  destruct (truthy (get_default "overview" (VStr EmptyString) r)).
  - destruct (get_default "overview" (VStr EmptyString) r);
      try discriminate.
    intros H. injection H as <-. eexists. split; [reflexivity |].
    apply strip_strip.
  - intros H. injection H as <-. exists EmptyString. auto.
Qed.

Lemma clean_overview_of_stripped (r : dict) (s : string) :
  strip s = s ->
  clean_overview (setitem "overview" (VStr s) r) = Ok (VStr s).
Proof.
  intros Hs. unfold clean_overview, get_default.
  rewrite lookup_setitem_same. destruct s as [| c s]; [reflexivity |].
  simpl truthy. cbv iota. rewrite Hs. reflexivity.
Qed.

Lemma normalized_normalized (r : dict) :
  acceptable r = true -> normalized (normalized r) = normalized r.
Proof.
  unfold acceptable. destruct (getitem "id" r); [| discriminate].
  intros H. apply andb_prop in H. destruct H as [_ H].
  unfold normalized at 2 3.
  destruct (clean_overview r) as [v |] eqn:Hv; [| discriminate].
  destruct (clean_overview_stripped r v Hv) as [s [-> Hs]].
  unfold normalized. rewrite (clean_overview_of_stripped r s Hs).
  apply setitem_setitem.
Qed.

(** A record that got through the checks still gets through them once its
    overview is normalised. *)
Lemma acceptable_normalized (r : dict) :
  acceptable r = true -> acceptable (normalized r) = true.
Proof.
  intros Hacc. pose proof Hacc as Hacc'. unfold acceptable in Hacc |- *.
  unfold getitem in *.
  rewrite (lookup_normalized_other "id") by reflexivity.
  destruct (lookup "id" r) as [id |]; [| discriminate].
  unfold check_essential_fields, check_release_date, check_numeric_fields,
    get, get_default in *.
  cbn [forallb] in *.
  rewrite !(lookup_normalized_other "title"),
    !(lookup_normalized_other "release_date"),
    !(lookup_normalized_other "vote_average"),
    !(lookup_normalized_other "vote_count"),
    !(lookup_normalized_other "popularity") by reflexivity.
  destruct (clean_overview r) as [v |] eqn:Hv;
    [| rewrite andb_false_r in Hacc; discriminate].
  destruct (clean_overview_stripped r v Hv) as [s [-> Hs]].
  unfold normalized at 1. rewrite Hv.
  rewrite (clean_overview_of_stripped r s Hs). exact Hacc.
Qed.

Lemma keep_first_all (records : list dict) : forall seen,
  (forall r, In r records ->
             existsb (same_element (get "id" r)) seen = false) ->
  ForallOrdPairs (fun a b => same_element (get "id" b) (get "id" a) = false)
    records ->
  keep_first seen records = records.
Proof.
  induction records as [| r records IH]; intros seen Hseen Hpairs;
    [reflexivity |].
  simpl. rewrite (Hseen r) by (left; reflexivity).
  inversion Hpairs as [| ? ? Hr Hrest]; subst.
  f_equal. apply IH; [| exact Hrest].
  intros r' Hr'. rewrite existsb_app. simpl.
  rewrite (Hseen r') by (right; exact Hr').
  rewrite Forall_forall in Hr. rewrite (Hr r' Hr'). reflexivity.
Qed.

Lemma filter_all {A} (f : A -> bool) (l : list A) :
  (forall x, In x l -> f x = true) -> filter f l = l.
Proof.
  induction l as [| x l IH]; intros H; [reflexivity |].
  simpl. rewrite (H x) by (left; reflexivity).
  f_equal. apply IH. intros y Hy. apply H. right. exact Hy.
Qed.

Lemma kept_came_from (raw_data : list dict) (r : dict) :
  In r (cleanup_data raw_data) ->
  exists r0, In r0 raw_data /\ acceptable r0 = true /\ r = normalized r0.
Proof.
  rewrite cleanup_data_keep_first. intros Hin.
  apply in_map_iff in Hin. destruct Hin as [r0 [<- Hin]].
  apply keep_first_In, filter_In in Hin. exists r0. tauto.
Qed.

Lemma cleanup_data_distinct (raw_data : list dict) :
  ForallOrdPairs (fun a b => same_element (get "id" b) (get "id" a) = false)
    (cleanup_data raw_data).
Proof.
  rewrite cleanup_data_keep_first. apply ForallOrdPairs_map.
  pose proof (keep_first_distinct (filter acceptable raw_data) []) as H.
  induction H as [| a l Ha _ IH]; constructor; [| exact IH].
  eapply Forall_impl; [| exact Ha]. intros b Hb.
  rewrite !get_id_normalized. exact Hb.
Qed.

(** X1: cleaning a cleaned batch changes nothing. *)
Theorem cleanup_data_idempotent (raw_data : list dict) :
  cleanup_data (cleanup_data raw_data) = cleanup_data raw_data.
Proof.
  rewrite (cleanup_data_keep_first (cleanup_data raw_data)).
  assert (Hacc : forall r, In r (cleanup_data raw_data) ->
                           acceptable r = true /\ normalized r = r).
  { intros r Hr. destruct (kept_came_from raw_data r Hr) as [r0 [_ [H0 ->]]].
    split; [apply acceptable_normalized, H0 |].
    apply normalized_normalized, H0. }
  rewrite filter_all by (intros r Hr; apply Hacc, Hr).
  rewrite keep_first_all;
    [| intros; reflexivity | apply cleanup_data_distinct].
  transitivity (map (fun r : dict => r) (cleanup_data raw_data));
    [| apply map_id].
  apply map_ext_in. intros r Hr. apply Hacc, Hr.
Qed.

(** What validation leaves on every record it lets through. *)
Lemma kept_record_facts (raw_data : list dict) (r : dict) :
  In r (cleanup_data raw_data) ->
  forallb (fun c => has_key c r) movie_columns = true
  /\ hashable (get "id" r) = true
  /\ truthy (get "title" r) = true
  /\ check_release_date r = Ok true
  /\ check_numeric_fields r = true
  /\ exists s, get "overview" r = VStr s /\ strip s = s.
Proof.
  intros Hr. destruct (kept_came_from raw_data r Hr) as [r0 [_ [H0 ->]]].
  pose proof (acceptable_normalized r0 H0) as Hacc.
  assert (Hov : exists s, get "overview" (normalized r0) = VStr s
                          /\ strip s = s).
  { unfold acceptable in H0. destruct (getitem "id" r0); [| discriminate].
    apply andb_prop in H0. destruct H0 as [_ H0].
    unfold normalized.
    destruct (clean_overview r0) as [v |] eqn:Hv; [| discriminate].
    destruct (clean_overview_stripped r0 v Hv) as [s [-> Hs]].
    exists s. split; [apply get_setitem_same | exact Hs]. }
  destruct (acceptable_checks _ Hacc) as [Hess [Hdate Hnum]].
  assert (Hid : has_key "id" (normalized r0) = true
                /\ hashable (get "id" (normalized r0)) = true).
  { unfold acceptable, getitem in Hacc. unfold has_key, get, get_default.
    destruct (lookup "id" (normalized r0)); [| discriminate].
    repeat (apply andb_prop in Hacc; destruct Hacc as [Hacc _]). auto. }
  destruct Hov as [s [Hs Hstrip]].
  pose proof Hess as Hess'. unfold check_essential_fields in Hess'.
  cbn [forallb] in Hess'.
  apply andb_prop in Hess'. destruct Hess' as [Ht Hd].
  apply andb_prop in Hd. destruct Hd as [Hd _].
  pose proof Hnum as Hnum'. unfold check_numeric_fields in Hnum'.
  cbn [forallb] in Hnum'.
  apply andb_prop in Hnum'. destruct Hnum' as [Hva Hrest].
  apply andb_prop in Hrest. destruct Hrest as [Hvc Hpop].
  apply andb_prop in Hpop. destruct Hpop as [Hpop _].
  assert (Hnumkey : forall k, isinstance_int_float (get k (normalized r0)) = true
                              -> has_key k (normalized r0) = true).
  { intros k. unfold get, get_default, has_key.
    destruct (lookup k (normalized r0)); [reflexivity | discriminate]. }
  split; [| split; [apply Hid | split; [exact Ht | split; [exact Hdate |
                                 split; [exact Hnum | eauto]]]]].
  unfold movie_columns. cbn [forallb].
  rewrite (proj1 Hid), (truthy_get_present _ _ Ht),
    (truthy_get_present _ _ Hd), (Hnumkey _ Hva), (Hnumkey _ Hvc),
    (Hnumkey _ Hpop).
  assert (Hovk : has_key "overview" (normalized r0) = true).
  { unfold has_key. unfold get, get_default in Hs.
    destruct (lookup "overview" (normalized r0)); [reflexivity |].
    discriminate. }
  rewrite Hovk. reflexivity.
Qed.

(** X2: every record [cleanup_data] returns carries the seven movie
    attributes, a hashable id, a truthy title, a release date that parses,
    numeric votes and popularity, and an overview that is a string which
    [strip] leaves as it is: none of the characters [strip] removes, from
    the tab to the ideographic space, stands at either end of it. *)
Theorem kept_records_are_complete (raw_data : list dict) (r : dict) :
  In r (cleanup_data raw_data) ->
  forallb (fun c => has_key c r) movie_columns = true
  /\ hashable (get "id" r) = true
  /\ truthy (get "title" r) = true
  /\ check_release_date r = Ok true
  /\ check_numeric_fields r = true
  /\ exists s, get "overview" r = VStr s /\ strip s = s.
Proof. apply kept_record_facts. Qed.

(** A batch with a record whose overview stands between a no-break space
    and an ideographic space, and a later duplicate of it. *)
Lemma kept_records_are_complete_witness :
  let movie := sample_movie 5 (VStr "2024-01-02") (VStr " nice film　")
                 (VInt 7) [] in
  let batch := [movie; sample_movie 5 (VStr "2024-01-03") VNone (VInt 7) []] in
  (forallb (fun c => has_key c (normalized movie)) movie_columns = true
   /\ exists s, get "overview" (normalized movie) = VStr s /\ strip s = s)
  /\ cleanup_data batch = [setitem "overview" (VStr "nice film") movie].
Proof.
  cbv zeta. split; [| vm_compute; reflexivity].
  destruct (kept_records_are_complete
              [sample_movie 5 (VStr "2024-01-02") (VStr " nice film　")
                 (VInt 7) [];
               sample_movie 5 (VStr "2024-01-03") VNone (VInt 7) []]
              (normalized
                 (sample_movie 5 (VStr "2024-01-02") (VStr " nice film　")
                    (VInt 7) [])))
    as [Hkeys [_ [_ [_ [_ Hov]]]]]; [left; reflexivity |].
  split; [exact Hkeys | exact Hov].
Defined.

Lemma cleanup_step_one (st : cleanup_state) (d : dict) :
  (cleaned_data (cleanup_step st d) = cleaned_data st ++ [normalized d]
   /\ cleanup_log (cleanup_step st d) = cleanup_log st)
  \/ (cleaned_data (cleanup_step st d) = cleaned_data st
      /\ exists id,
           cleanup_log (cleanup_step st d)
             = cleanup_log st ++ [(DEBUG, Duplicate_ignored id)]
           \/ cleanup_log (cleanup_step st d)
              = cleanup_log st ++ [(WARNING, Failed_validation id)]
           \/ exists e,
                cleanup_log (cleanup_step st d)
                = cleanup_log st ++ [(ERROR, Cleanup_error id e)]).
Proof.
  unfold cleanup_step, cleanup_try, set_contains, normalized.
  destruct (getitem "id" d) as [id | e]; cbn [bind];
    [| right; split; [reflexivity | eexists; right; right; eexists; reflexivity]].
  destruct (hashable id); cbn [bind];
    [| right; split; [reflexivity | eexists; right; right; eexists; reflexivity]].
  destruct (existsb (same_element id) (seen_ids st));
    [right; split; [reflexivity | exists id; left; reflexivity] |].
  destruct (check_release_date d) as [b | e]; cbn [bind];
    [| right; split; [reflexivity | eexists; right; right; eexists; reflexivity]].
  destruct (negb _);
    [right; split; [reflexivity | exists id; right; left; reflexivity] |].
  destruct (clean_overview d) as [v | e]; cbn [bind];
    [left; split; reflexivity |].
  right; split; [reflexivity | eexists; right; right; eexists; reflexivity].
Qed.

Lemma cleanup_loop_log (raw_data : list dict) : forall st,
  exists entries,
    cleanup_log (fold_left cleanup_step raw_data st)
      = cleanup_log st ++ entries
    /\ List.length entries
       + List.length (cleaned_data (fold_left cleanup_step raw_data st))
       = List.length (cleaned_data st) + List.length raw_data
    /\ Forall (fun entry =>
                 exists id,
                   entry = (DEBUG, Duplicate_ignored id)
                   \/ entry = (WARNING, Failed_validation id)
                   \/ exists e, entry = (ERROR, Cleanup_error id e))
         entries.
Proof.
  induction raw_data as [| d raw IH]; intros st.
  - exists []. simpl. rewrite app_nil_r. repeat split; [lia | constructor].
  - simpl. destruct (IH (cleanup_step st d)) as [entries [Hlog [Hlen Hall]]].
    destruct (cleanup_step_one st d) as [[Hc Hl] | [Hc [id Hl]]].
    + exists entries. rewrite Hlog, Hl, Hlen, Hc, length_app. simpl.
      repeat split; [lia | exact Hall].
    + assert (Hentry : exists entry,
                cleanup_log (cleanup_step st d) = cleanup_log st ++ [entry]
                /\ exists id,
                     entry = (DEBUG, Duplicate_ignored id)
                     \/ entry = (WARNING, Failed_validation id)
                     \/ exists e, entry = (ERROR, Cleanup_error id e)).
      { destruct Hl as [Hl | [Hl | [e Hl]]]; eexists; split;
          try exact Hl; exists id; eauto. }
      destruct Hentry as [entry [Hl' Hkind]].
      exists (entry :: entries). rewrite Hlog, Hl', <- app_assoc.
      split; [reflexivity |]. split.
      * simpl. rewrite Hc in Hlen. lia.
      * constructor; assumption.
Qed.

(** X3: the log of a cleanup accounts for every record that was not
    kept: between the opening and the closing message there is one entry
    per dropped record, a duplicate at DEBUG, a failed validation at
    WARNING or an error at ERROR, so that entries and kept records
    together are as many as the raw records. *)
Theorem every_dropped_record_is_logged (raw_data : list dict) :
  exists entries,
    cleanup_log (cleanup_run raw_data)
      = (INFO, Starting_cleanup) :: entries ++ [(INFO, Cleanup_completed)]
    /\ List.length entries + List.length (cleanup_data raw_data)
       = List.length raw_data
    /\ Forall (fun entry =>
                 exists id,
                   entry = (DEBUG, Duplicate_ignored id)
                   \/ entry = (WARNING, Failed_validation id)
                   \/ exists e, entry = (ERROR, Cleanup_error id e))
         entries.
Proof.
  destruct (cleanup_loop_log raw_data
              {| cleaned_data := []; seen_ids := [];
                 cleanup_log := [(INFO, Starting_cleanup)] |})
    as [entries [Hlog [Hlen Hall]]].
  exists entries. unfold cleanup_data, cleanup_run. simpl.
  rewrite Hlog. simpl in *. repeat split; assumption.
Qed.

(** X4: how a record that cannot be kept is reported.  A record without
    [id] is an error under the id [Unknown]; a record whose id cannot be
    hashed is an error; a record whose id is among those seen, as [in]
    finds it, is a duplicate, whatever its other fields; a record whose
    id is not, that passes the checks and whose overview is a truthy
    non-string, is an error.  None of them is kept or remembered. *)
Theorem dropped_record_reports (st : cleanup_state) (movie : dict) :
  (lookup "id" movie = None ->
   cleanup_step st movie
   = logged ERROR (Cleanup_error (VStr "Unknown") (KeyError "id")) st)
  /\ (forall id,
        lookup "id" movie = Some id -> hashable id = false ->
        cleanup_step st movie = logged ERROR (Cleanup_error id TypeError) st)
  /\ (forall id,
        lookup "id" movie = Some id -> hashable id = true ->
        existsb (same_element id) (seen_ids st) = true ->
        cleanup_step st movie = logged DEBUG (Duplicate_ignored id) st)
  /\ (forall id,
        lookup "id" movie = Some id -> hashable id = true ->
        existsb (same_element id) (seen_ids st) = false ->
        check_essential_fields movie = true ->
        check_release_date movie = Ok true ->
        check_numeric_fields movie = true ->
        truthy (get "overview" movie) = true ->
        (forall s, get "overview" movie <> VStr s) ->
        cleanup_step st movie
        = logged ERROR (Cleanup_error id AttributeError) st).
Proof.
  unfold cleanup_step, cleanup_try, getitem, set_contains, get_default.
  split; [| split; [| split]].
  - intros ->. reflexivity.
  - intros id -> Hh. cbn [bind]. rewrite Hh. reflexivity.
  - intros id -> Hh Hseen. cbn [bind]. rewrite Hh. cbn [bind].
    rewrite Hseen. reflexivity.
  - intros id -> Hh Hseen Hess Hdate Hnum Htruthy Hstr. cbn [bind].
    rewrite Hh. cbn [bind]. rewrite Hseen, Hdate. cbn [bind].
    rewrite Hess, Hnum. cbn [forallb andb negb].
    unfold clean_overview, get, get_default in *.
    destruct (lookup "overview" movie) as [v |]; [| discriminate].
    rewrite Htruthy.
    destruct v; try reflexivity. exfalso. eapply Hstr. reflexivity.
Qed.

(** A record whose overview is the number 7. *)
Lemma dropped_record_reports_witness :
  cleanup_step fresh_cleanup
    (sample_movie 1 (VStr "2024-01-02") (VInt 7) (VInt 7) [])
  = logged ERROR (Cleanup_error (VInt 1) AttributeError) fresh_cleanup.
Proof.
  apply (proj2 (proj2 (proj2
           (dropped_record_reports fresh_cleanup
              (sample_movie 1 (VStr "2024-01-02") (VInt 7) (VInt 7) []))))
           (VInt 1)); try reflexivity.
  intros s. discriminate.
Defined.

(** X5: the records that are dropped for their own fault have no part in
    the result: leaving them out of the batch beforehand gives the same
    records. *)
Theorem rejected_records_do_not_matter (raw_data : list dict) :
  cleanup_data (filter acceptable raw_data) = cleanup_data raw_data.
Proof.
  rewrite !cleanup_data_keep_first. f_equal. f_equal.
  apply filter_all. intros r Hr. apply filter_In in Hr. tauto.
Qed.

(** X6: cleaning is incremental: the result for a batch followed by more
    records is the result for the batch, followed by the first acceptable
    records of the identifiers the batch has not already given, an
    identifier being given when [in] finds it among those kept. *)
Theorem cleanup_data_app (batch more : list dict) :
  cleanup_data (batch ++ more)
  = cleanup_data batch
    ++ map normalized
         (keep_first (map (get "id") (cleanup_data batch))
            (filter acceptable more)).
Proof.
  rewrite !cleanup_data_keep_first, filter_app, keep_first_app, map_app.
  f_equal. f_equal. f_equal. simpl. rewrite map_map.
  apply map_ext. intros r. symmetry. apply get_id_normalized.
Qed.

(** A batch that ends in a record whose identifier is [NaN], followed by
    another record of that identifier: the second is left out. *)
Example nan_identifier_across_batches :
  let first := setitem "id" (VFloat FNaN)
                 (sample_movie 1 (VStr "2024-01-02") VNone (VInt 7) []) in
  let second := setitem "id" (VFloat FNaN)
                  (sample_movie 2 (VStr "2024-01-03") VNone (VInt 7) []) in
  cleanup_data ([first] ++ [second]) = cleanup_data [first]
  /\ keep_first (map (get "id") (cleanup_data [first]))
       (filter acceptable [second]) = [].
Proof. vm_compute. split; reflexivity. Qed.

(** ** [filter_data], beyond the links *)

Lemma get_fill (cols : list string) (r : dict) (c : string) :
  mem c cols = true -> has_key c r = true -> get c (fill cols r) = get c r.
Proof.
  intros Hc Hk. unfold get, get_default. rewrite lookup_fill, Hc.
  unfold get_default, has_key in *. destruct (lookup c r); [reflexivity |].
  discriminate.
Qed.

(** The three frames [filter_data] returns on a batch of shapeable
    records. *)
Lemma filter_data_frames (cleaned_data genres_list : list dict) :
  cleaned_data <> [] ->
  forallb shapeable cleaned_data = true ->
  filter_data cleaned_data genres_list
  = Ok ({| columns := movie_columns;
           rows := map (fun r => map (fun c => (c, get c r)) movie_columns)
                     cleaned_data |},
        from_records genres_list,
        from_records (flat_map links_of cleaned_data)).
Proof.
  intros Hne Hall.
  destruct (filter_data_shapeable cleaned_data genres_list Hne Hall)
    as [df_movies Hrun].
  rewrite Hrun. f_equal. f_equal. f_equal.
  unfold filter_data, select_columns in Hrun.
  destruct (missing_label (columns (from_records cleaned_data)) movie_columns)
    eqn:Hmiss; [discriminate |].
  cbn [bind] in Hrun.
  destruct (collect_links _ _); [| discriminate].
  cbn [bind] in Hrun. injection Hrun as <-. f_equal.
  cbn [rows from_records]. rewrite map_map. apply map_ext_in.
  intros r Hr.
  change (map (fun c => (c, get c (fill (union_keys cleaned_data) r)))
            movie_columns
          = map (fun c => (c, get c r)) movie_columns).
  apply map_ext_in. intros c Hc. f_equal.
  apply get_fill.
  - eapply missing_label_none_inv; eassumption.
  - rewrite forallb_forall in Hall. specialize (Hall r Hr).
    unfold shapeable in Hall. apply andb_prop in Hall.
    destruct Hall as [Hcols _]. rewrite forallb_forall in Hcols.
    apply Hcols, Hc.
Qed.

(** X7: on a batch of shapeable records the movie frame has the seven
    movie columns and one row per record, in the order of the batch, whose
    cells are the record's values under these seven keys, every other key
    of the record being left out; the genre frame is the frame of the
    genre catalogue, whatever the movies are. *)
Theorem movie_frame_projects_the_records (cleaned_data genres_list : list dict) :
  cleaned_data <> [] ->
  forallb shapeable cleaned_data = true ->
  exists df_movies df_genres df_movie_genres,
    filter_data cleaned_data genres_list
      = Ok (df_movies, df_genres, df_movie_genres)
    /\ columns df_movies
       = ["id"; "title"; "overview"; "release_date"; "popularity";
          "vote_average"; "vote_count"]
    /\ rows df_movies
       = map (fun r => map (fun c => (c, get c r)) (columns df_movies))
           cleaned_data
    /\ List.length (rows df_movies) = List.length cleaned_data
    /\ wf_frame df_movies
    /\ df_genres = from_records genres_list.
Proof.
  intros Hne Hall. rewrite (filter_data_frames _ _ Hne Hall).
  do 3 eexists. split; [reflexivity |]. cbn [columns rows].
  split; [reflexivity |]. split; [reflexivity |].
  split; [apply length_map |]. split; [| reflexivity].
  unfold wf_frame. cbn [columns rows]. apply Forall_forall.
  intros row Hrow. apply in_map_iff in Hrow. destruct Hrow as [r [<- _]].
  reflexivity.
Qed.

(** A record with a field the store has no column for. *)
Lemma movie_frame_projects_the_records_witness :
  exists df_movies df_genres df_movie_genres,
    filter_data
      [sample_movie 5 (VStr "2024-01-02") (VStr "nice film") (VInt 7) [10%Z]]
      sample_genres
      = Ok (df_movies, df_genres, df_movie_genres)
    /\ columns df_movies
       = ["id"; "title"; "overview"; "release_date"; "popularity";
          "vote_average"; "vote_count"].
Proof.
  destruct (movie_frame_projects_the_records
              [sample_movie 5 (VStr "2024-01-02") (VStr "nice film") (VInt 7)
                 [10%Z]]
              sample_genres)
    as [m [g [l [Hrun [Hcols _]]]]].
  - discriminate.
  - reflexivity.
  - exists m, g, l. split; assumption.
Defined.

Lemma shapeable_kept (raw_data : list dict) (r : dict) :
  In r (cleanup_data raw_data) ->
  (exists l, lookup "genre_ids" r = Some (VList l)) ->
  shapeable r = true.
Proof.
  intros Hr [l Hl]. unfold shapeable. rewrite Hl.
  destruct (kept_record_facts raw_data r Hr) as [Hcols _].
  rewrite Hcols. reflexivity.
Qed.

(** X8: what [cleanup_data] returns is fit for [filter_data] as soon as it
    is not empty and the records kept have a list of genre ids: then the
    movie frame has one row per record kept, with the same ids in the same
    order.  When no record is kept, [filter_data] raises [KeyError]. *)
Theorem cleaned_batch_can_be_shaped (raw_data genres_list : list dict) :
  (cleanup_data raw_data = [] ->
   filter_data (cleanup_data raw_data) genres_list = Raise (KeyError "id"))
  /\ (cleanup_data raw_data <> [] ->
      (forall r, In r raw_data -> acceptable r = true ->
                 exists l, lookup "genre_ids" r = Some (VList l)) ->
      exists df_movies df_genres df_movie_genres,
        filter_data (cleanup_data raw_data) genres_list
          = Ok (df_movies, df_genres, df_movie_genres)
        /\ List.length (rows df_movies)
           = List.length (cleanup_data raw_data)
        /\ map (get "id") (rows df_movies)
           = map (get "id") (cleanup_data raw_data)).
Proof.
  split; [intros ->; reflexivity |].
  intros Hne Hgenres.
  assert (Hall : forallb shapeable (cleanup_data raw_data) = true).
  { apply forallb_forall. intros r Hr.
    apply (shapeable_kept raw_data r Hr).
    destruct (kept_came_from raw_data r Hr) as [r0 [Hin [Hacc ->]]].
    destruct (Hgenres r0 Hin Hacc) as [l Hl]. exists l.
    rewrite lookup_normalized_other by reflexivity. exact Hl. }
  rewrite (filter_data_frames _ _ Hne Hall).
  do 3 eexists. split; [reflexivity |]. cbn [rows].
  split; [apply length_map |].
  rewrite map_map. apply map_ext. reflexivity.
Qed.

(** A batch of an invalid record and a valid one. *)
Lemma cleaned_batch_can_be_shaped_witness :
  exists df_movies df_genres df_movie_genres,
    filter_data
      (cleanup_data
         [sample_movie 6 (VStr "2024-13-40") VNone (VInt 7) [10%Z];
          sample_movie 5 (VStr "2024-01-02") VNone (VInt 7) [10; 20]%Z])
      sample_genres
      = Ok (df_movies, df_genres, df_movie_genres)
    /\ List.length (rows df_movies) = 1
    /\ map (get "id") (rows df_movies) = [VInt 5].
Proof.
  apply (proj2 (cleaned_batch_can_be_shaped
                  [sample_movie 6 (VStr "2024-13-40") VNone (VInt 7) [10%Z];
                   sample_movie 5 (VStr "2024-01-02") VNone (VInt 7)
                     [10; 20]%Z]
                  sample_genres)).
  - discriminate.
  - intros r [<- | [<- | []]] _; eexists; reflexivity.
Defined.

Lemma flat_map_nil {A B} (f : A -> list B) (l : list A) :
  (forall x, In x l -> f x = []) -> flat_map f l = [].
Proof.
  induction l as [| x l IH]; intros H; [reflexivity |].
  simpl. rewrite (H x) by (left; reflexivity). apply IH.
  intros y Hy. apply H. right. exact Hy.
Qed.

(** X9: when no movie of the batch has a genre, the link frame has
    neither rows nor columns: in particular it has no [movie_id] column. *)
Theorem no_genres_no_link_columns (cleaned_data genres_list : list dict) :
  cleaned_data <> [] ->
  forallb shapeable cleaned_data = true ->
  (forall r, In r cleaned_data -> get "genre_ids" r = VList []) ->
  exists df_movies df_genres df_movie_genres,
    filter_data cleaned_data genres_list
      = Ok (df_movies, df_genres, df_movie_genres)
    /\ columns df_movie_genres = []
    /\ rows df_movie_genres = []
    /\ mem "movie_id" (columns df_movie_genres) = false.
Proof.
  intros Hne Hall Hnone. rewrite (filter_data_frames _ _ Hne Hall).
  do 3 eexists. split; [reflexivity |].
  rewrite flat_map_nil.
  - repeat split.
  - intros r Hr. unfold links_of, genre_list. rewrite (Hnone r Hr).
    reflexivity.
Qed.

(** Two movies without genres. *)
Lemma no_genres_no_link_columns_witness :
  exists df_movies df_genres df_movie_genres,
    filter_data
      [sample_movie 5 (VStr "2024-01-02") VNone (VInt 7) [];
       sample_movie 7 (VStr "2024-01-04") VNone (VInt 7) []]
      sample_genres
      = Ok (df_movies, df_genres, df_movie_genres)
    /\ columns df_movie_genres = []
    /\ rows df_movie_genres = []
    /\ mem "movie_id" (columns df_movie_genres) = false.
Proof.
  apply (no_genres_no_link_columns
           [sample_movie 5 (VStr "2024-01-02") VNone (VInt 7) [];
            sample_movie 7 (VStr "2024-01-04") VNone (VInt 7) []]
           sample_genres).
  - discriminate.
  - reflexivity.
  - intros r [<- | [<- | []]]; reflexivity.
Defined.

(** ** The load, table by table: further facts *)

Lemma queries_app (evs1 evs2 : list event) :
  queries (evs1 ++ evs2) = queries evs1 ++ queries evs2.
Proof. apply flat_map_app. Qed.

Lemma failures_app (evs1 evs2 : list event) :
  failures (evs1 ++ evs2) = failures evs1 ++ failures evs2.
Proof. apply flat_map_app. Qed.

Lemma inserts_into_elsewhere (t t' : table) (new_rows : list dict)
    (evs : list event) :
  t' <> t ->
  (forall e, In e evs -> e = Query t \/ e = Insert t new_rows
                         \/ exists l m, e = Log l m) ->
  inserts_into t' evs = [].
Proof.
  intros Hne. induction evs as [| e evs IH]; intros H; [reflexivity |].
  change (e :: evs) with ([e] ++ evs). rewrite inserts_into_app.
  rewrite IH by (intros e' He'; apply H; right; exact He').
  rewrite app_nil_r.
  destruct (H e (or_introl eq_refl)) as [-> | [-> | [l [m ->]]]];
    try reflexivity.
  apply inserts_into_other. exact Hne.
Qed.

Ltac sync_case evs :=
  split; [reflexivity |];
  split;
    [first [reflexivity
           | intros ? ?; apply table_rows_append_other; assumption] |];
  split; [first [reflexivity | discriminate] |];
  exists evs; rewrite <- ?app_assoc;
  split; [reflexivity |]; split; [reflexivity |]; split; [reflexivity |].

Section LoadMore.

Variable accepts : table -> Store -> list dict -> bool.
Variables movies_df genres_df movie_genres_df : DataFrame.

Local Abbreviation reconcile' := (reconcile movies_df genres_df movie_genres_df).
Local Abbreviation sync' := (sync accepts movies_df genres_df movie_genres_df).
Local Abbreviation load_try' := (load_try accepts movies_df genres_df movie_genres_df).
Local Abbreviation load' := (load_data_to_db accepts movies_df genres_df movie_genres_df).

(** What the block of one table does, however it ends. *)
Lemma sync_events (t : table) (w w' : World) (r : result unit) :
  sync' t w = (r, w') ->
  unreadable w' = unreadable w
  /\ (forall t', t' <> t ->
        table_rows t' (store w') = table_rows t' (store w))
  /\ (forall e, r = Raise e -> store w' = store w)
  /\ exists evs,
       trace w' = trace w ++ evs
       /\ queries evs = [t]
       /\ failures evs = []
       /\ (forall t', t' <> t -> inserts_into t' evs = []).
Proof.
  intros Hrun.
  pose proof (sync_outcome_holds accepts movies_df genres_df movie_genres_df
                t w) as H.
  rewrite Hrun in H.
  inversion H as [Hu | e Hu Hrec | new_df Hu Hrec Hemp
                  | new_df Hu Hrec Hemp Hacc | new_df Hu Hrec Hemp Hacc];
    subst; cbn [emit store unreadable trace].
  - sync_case [Query t]. intros t' Hne.
    apply (inserts_into_elsewhere t t' []); [exact Hne |].
    intros e' [<- | []]; auto.
  - sync_case [Query t]. intros t' Hne.
    apply (inserts_into_elsewhere t t' []); [exact Hne |].
    intros e' [<- | []]; auto.
  - sync_case [Query t; Log INFO (Nothing_to_load t)]. intros t' Hne.
    apply (inserts_into_elsewhere t t' []); [exact Hne |].
    intros e' [<- | [<- | []]]; eauto.
  - sync_case [Query t; Insert t (rows new_df)]. intros t' Hne.
    apply (inserts_into_elsewhere t t' (rows new_df)); [exact Hne |].
    intros e' [<- | [<- | []]]; eauto.
  - sync_case [Query t; Insert t (rows new_df);
               Log INFO (Loaded t (List.length (rows new_df)))].
    intros t' Hne.
    apply (inserts_into_elsewhere t t' (rows new_df)); [exact Hne |].
    intros e' [<- | [<- | [<- | []]]]; eauto.
Qed.

(** How far the [try] block gets: it raises in the block of the movies,
    or in that of the genres, or reaches the block of the links. *)
Lemma load_cases (w : World) :
  (exists e w1,
     sync' movies w = (Raise e, w1) /\ load_try' w = (Raise e, w1))
  \/ (exists e w1 w2,
        sync' movies w = (Ok tt, w1)
        /\ sync' genres w1 = (Raise e, w2)
        /\ load_try' w = (Raise e, w2))
  \/ (exists r w1 w2 w3,
        sync' movies w = (Ok tt, w1)
        /\ sync' genres w1 = (Ok tt, w2)
        /\ sync' movie_genres w2 = (r, w3)
        /\ load_try' w = (r, w3)).
Proof.
  rewrite load_try_stages. unfold and_then.
  destruct (sync' movies w) as [[[] | e] w1] eqn:H1.
  - destruct (sync' genres w1) as [[[] | e] w2] eqn:H2.
    + right. right. destruct (sync' movie_genres w2) as [r w3] eqn:H3.
      exists r, w1, w2, w3. auto.
    + right. left. exists e, w1, w2. auto.
  - left. exists e, w1. auto.
Qed.

(** A block that ends well leaves its table as it was, followed by the
    rows it reconciled. *)
Lemma sync_covers (t : table) (w w1 : World) :
  wf_frame movie_genres_df ->
  sync' t w = (Ok tt, w1) ->
  exists new_df,
    reconcile' t (store w) = Ok new_df
    /\ table_rows t (store w1) = table_rows t (store w) ++ rows new_df.
Proof.
  intros Hwf Hrun.
  pose proof (sync_outcome_holds accepts movies_df genres_df movie_genres_df
                t w) as H.
  rewrite Hrun in H.
  inversion H as [Hu | e Hu Hrec | new_df Hu Hrec Hemp
                  | new_df Hu Hrec Hemp Hacc | new_df Hu Hrec Hemp Hacc];
    subst; exists new_df; (split; [exact Hrec |]);
    cbn [emit store unreadable trace].
  - rewrite (empty_no_rows new_df); [symmetry; apply app_nil_r | | exact Hemp].
    eapply reconcile_columns; eassumption.
  - apply table_rows_append_same.
Qed.

Lemma existsb_app_l {A} (f : A -> bool) (l1 l2 : list A) :
  existsb f l1 = true -> existsb f (l1 ++ l2) = true.
Proof. intros H. rewrite existsb_app, H. reflexivity. Qed.

Lemma existsb_app_r {A} (f : A -> bool) (l1 l2 : list A) :
  existsb f l2 = true -> existsb f (l1 ++ l2) = true.
Proof. intros H. rewrite existsb_app, H. apply orb_true_r. Qed.

(** Every candidate identifier is persisted or in the delta. *)
Lemma id_covered (df new_df : DataFrame) (existing_ids : list value)
    (r : dict) :
  new_by_id df existing_ids = Ok new_df ->
  In r (rows df) ->
  existsb (pd_eqb (get "id" r))
    (existing_ids ++ map (get "id") (rows new_df)) = true.
Proof.
  intros Hnew Hr.
  destruct (new_by_id_ok _ _ _ Hnew) as [_ [Hrows Hhash]].
  destruct (id_is_new existing_ids r) eqn:Hid.
  - apply existsb_app_r. apply existsb_exists. exists (get "id" r). split.
    + apply in_map. rewrite Hrows. apply filter_In. auto.
    + apply pd_eqb_refl. rewrite forallb_forall in Hhash.
      apply Hhash. apply in_map. exact Hr.
  - apply existsb_app_l. unfold id_is_new in Hid.
    apply negb_false_iff in Hid. exact Hid.
Qed.

(** Every candidate pair is persisted or in the delta. *)
Lemma pair_covered (new_df : DataFrame) (s : Store) (r : dict) :
  wf_frame movie_genres_df ->
  new_by_pair movie_genres_df (select movie_genres s) = Ok new_df ->
  In r (rows movie_genres_df) ->
  existsb (same_key link_key r) (movie_genres_rows s ++ rows new_df) = true.
Proof.
  intros Hwf Hnew Hr.
  destruct (new_by_pair_ok movie_genres_df (select movie_genres s) new_df
              eq_refl Hwf Hnew) as [-> Hhash].
  cbn [rows columns].
  destruct (pair_is_new (movie_genres_rows s) r) eqn:Hpair.
  - apply existsb_app_r. apply existsb_exists. exists r. split.
    + apply filter_In. split; [exact Hr |].
      rewrite pair_is_new_select. exact Hpair.
    + apply same_key_refl. unfold keys_hashable in Hhash.
      rewrite forallb_forall in Hhash. apply Hhash.
      apply in_or_app. left. exact Hr.
  - apply existsb_app_l. unfold pair_is_new in Hpair.
    apply negb_false_iff in Hpair. exact Hpair.
Qed.

(** X10: after a load whose [try] block returns, every identifier of the
    movie frame and of the genre frame is the identifier of a persisted
    row, and every pair of the link frame is the pair of a persisted
    link. *)
Theorem successful_load_persists_every_key (w w1 : World) :
  wf_frame movie_genres_df ->
  load_try' w = (Ok tt, w1) ->
  (forall r, In r (rows movies_df) ->
             existsb (pd_eqb (get "id" r))
               (persisted_ids movies (store w1)) = true)
  /\ (forall r, In r (rows genres_df) ->
                existsb (pd_eqb (get "id" r))
                  (persisted_ids genres (store w1)) = true)
  /\ (forall r, In r (rows movie_genres_df) ->
                existsb (same_key link_key r)
                  (movie_genres_rows (store w1)) = true).
Proof.
  intros Hwf Hrun.
  destruct (load_cases w)
    as [[e [wa [_ H]]] | [[e [wa [wb [_ [_ H]]]]]
                          | [r [wa [wb [wc [H1 [H2 [H3 H]]]]]]]]];
    rewrite Hrun in H; try discriminate.
  injection H as <- <-.
  destruct (sync_covers _ _ _ Hwf H1) as [n1 [Hr1 Ht1]].
  destruct (sync_covers _ _ _ Hwf H2) as [n2 [Hr2 Ht2]].
  destruct (sync_covers _ _ _ Hwf H3) as [n3 [Hr3 Ht3]].
  destruct (sync_events _ _ _ _ H2) as [_ [Hk2 _]].
  destruct (sync_events _ _ _ _ H3) as [_ [Hk3 _]].
  split; [| split]; intros r Hr.
  - unfold persisted_ids.
    rewrite (Hk3 movies) by discriminate.
    rewrite (Hk2 movies) by discriminate.
    rewrite Ht1, map_app. apply (id_covered movies_df); assumption.
  - unfold persisted_ids.
    rewrite (Hk3 genres) by discriminate.
    rewrite Ht2, map_app. apply (id_covered genres_df); assumption.
  - change (movie_genres_rows (store w1))
      with (table_rows movie_genres (store w1)).
    rewrite Ht3. apply pair_covered; assumption.
Qed.

Lemma inserts_need_query (t t' : table) (evs : list event) :
  (forall t'', t'' <> t -> inserts_into t'' evs = []) ->
  inserts_into t' evs <> [] -> t' = t.
Proof.
  intros H Hins. destruct (table_eq_dec t' t) as [-> | Hne];
    [reflexivity |]. elim Hins. apply H. exact Hne.
Qed.

(** X11: a load queries the tables in the order movies, genres, links, each
    at most once and none before the one ahead of it has been dealt with;
    it inserts only into a table it has queried; it logs a failure at most
    once, as its last record, and only when the [try] block raised. *)
Theorem load_queries_tables_in_order (w : World) :
  exists evs,
    trace (load' w) = trace w ++ evs
    /\ (queries evs = [movies] \/ queries evs = [movies; genres]
        \/ queries evs = [movies; genres; movie_genres])
    /\ (forall t, inserts_into t evs <> [] -> In t (queries evs))
    /\ (fst (load_try' w) = Ok tt ->
        queries evs = [movies; genres; movie_genres] /\ failures evs = [])
    /\ (forall e, fst (load_try' w) = Raise e ->
                  exists evs', evs = evs' ++ [Log ERROR (Load_failed e)]
                               /\ failures evs' = []).
Proof.
  unfold load_data_to_db.
  destruct (load_cases w)
    as [[e [wa [H1 H]]] | [[e [wa [wb [H1 [H2 H]]]]]
                          | [r [wa [wb [wc [H1 [H2 [H3 H]]]]]]]]];
    rewrite H; cbn [fst].
  - destruct (sync_events _ _ _ _ H1) as [_ [_ [_ [ev1 [T1 [Q1 [F1 I1]]]]]]].
    exists (ev1 ++ [Log ERROR (Load_failed e)]).
    cbn [emit trace]. rewrite T1, <- app_assoc, queries_app, Q1.
    split; [reflexivity |]. split; [auto |]. split; [| split].
    + intros t Hins. rewrite inserts_into_app, app_nil_r in Hins.
      left. symmetry. eapply inserts_need_query; eassumption.
    + discriminate.
    + intros e' [= <-]. exists ev1. auto.
  - destruct (sync_events _ _ _ _ H1) as [_ [_ [_ [ev1 [T1 [Q1 [F1 I1]]]]]]].
    destruct (sync_events _ _ _ _ H2) as [_ [_ [_ [ev2 [T2 [Q2 [F2 I2]]]]]]].
    exists (ev1 ++ ev2 ++ [Log ERROR (Load_failed e)]).
    cbn [emit trace]. rewrite T2, T1, <- !app_assoc, !queries_app, Q1, Q2.
    split; [reflexivity |]. split; [auto |]. split; [| split].
    + intros t Hins. rewrite !inserts_into_app, app_nil_r in Hins.
      destruct (inserts_into t ev1) eqn:E1.
      * right. left. symmetry. eapply inserts_need_query; eassumption.
      * left. symmetry. apply (inserts_need_query _ _ ev1); [exact I1 |].
        rewrite E1. discriminate.
    + discriminate.
    + intros e' [= <-]. exists (ev1 ++ ev2). rewrite <- app_assoc.
      split; [reflexivity |]. rewrite failures_app, F1, F2. reflexivity.
  - destruct (sync_events _ _ _ _ H1) as [_ [_ [_ [ev1 [T1 [Q1 [F1 I1]]]]]]].
    destruct (sync_events _ _ _ _ H2) as [_ [_ [_ [ev2 [T2 [Q2 [F2 I2]]]]]]].
    destruct (sync_events _ _ _ _ H3) as [_ [_ [_ [ev3 [T3 [Q3 [F3 I3]]]]]]].
    destruct r as [[] | e].
    + exists (ev1 ++ ev2 ++ ev3).
      rewrite T3, T2, T1, <- !app_assoc, !queries_app, Q1, Q2, Q3.
      split; [reflexivity |]. split; [auto |]. split; [| split].
      * intros t _. destruct t; simpl; auto.
      * intros _. rewrite !failures_app, F1, F2, F3. auto.
      * discriminate.
    + exists (ev1 ++ ev2 ++ ev3 ++ [Log ERROR (Load_failed e)]).
      cbn [emit trace].
      rewrite T3, T2, T1, <- !app_assoc, !queries_app, Q1, Q2, Q3.
      split; [reflexivity |]. split; [auto |]. split; [| split].
      * intros t _. destruct t; simpl; auto.
      * discriminate.
      * intros e' [= <-]. exists (ev1 ++ ev2 ++ ev3). rewrite <- !app_assoc.
        split; [reflexivity |]. rewrite !failures_app, F1, F2, F3.
        reflexivity.
Qed.

Lemma link_key_missing (s : Store) :
  mem "movie_id" (columns movie_genres_df) = false ->
  reconcile' movie_genres s = Raise (KeyError "movie_id").
Proof.
  intros Hmem. cbn [reconcile]. unfold new_by_pair, merge_left_indicator.
  replace (missing_label (columns movie_genres_df) link_key)
    with (Some "movie_id"); [reflexivity |].
  unfold missing_label, link_key. cbn [find]. rewrite Hmem. reflexivity.
Qed.

(** X12: with a link frame that has no [movie_id] column, as the frame of
    no links is, no load gets through: the [try] block raises, the failure
    is logged last, and the links persisted are left alone.  When the load
    gets to query the links and the query is answered, what it logs is
    the [KeyError] of [movie_id]. *)
Theorem load_without_link_key_fails (w : World) :
  mem "movie_id" (columns movie_genres_df) = false ->
  exists e evs,
    fst (load_try' w) = Raise e
    /\ trace (load' w) = trace w ++ evs ++ [Log ERROR (Load_failed e)]
    /\ movie_genres_rows (store (load' w)) = movie_genres_rows (store w)
    /\ inserts_into movie_genres evs = []
    /\ (In movie_genres (queries evs) ->
        existsb (table_eqb movie_genres) (unreadable w) = false ->
        e = KeyError "movie_id").
Proof.
  intros Hmem. unfold load_data_to_db.
  destruct (load_cases w)
    as [[e [wa [H1 H]]] | [[e [wa [wb [H1 [H2 H]]]]]
                          | [r [wa [wb [wc [H1 [H2 [H3 H]]]]]]]]];
    rewrite H; cbn [fst emit store trace].
  - destruct (sync_events _ _ _ _ H1) as [_ [K1 [_ [ev1 [T1 [Q1 [_ I1]]]]]]].
    exists e, ev1. rewrite T1, <- app_assoc, Q1.
    split; [reflexivity |]. split; [reflexivity |].
    split; [apply (K1 movie_genres); discriminate |].
    split; [apply I1; discriminate |].
    intros [[=] | []].
  - destruct (sync_events _ _ _ _ H1) as [_ [K1 [_ [ev1 [T1 [Q1 [_ I1]]]]]]].
    destruct (sync_events _ _ _ _ H2) as [_ [K2 [_ [ev2 [T2 [Q2 [_ I2]]]]]]].
    exists e, (ev1 ++ ev2). rewrite T2, T1, <- !app_assoc, queries_app, Q1, Q2.
    split; [reflexivity |]. split; [reflexivity |].
    split.
    { change (table_rows movie_genres (store wb)
              = table_rows movie_genres (store w)).
      rewrite K2, K1 by discriminate. reflexivity. }
    split; [rewrite inserts_into_app, I1, I2 by discriminate; reflexivity |].
    intros [[=] | [[=] | []]].
  - destruct (sync_events _ _ _ _ H1) as [U1 [K1 [_ [ev1 [T1 [Q1 [_ I1]]]]]]].
    destruct (sync_events _ _ _ _ H2) as [U2 [K2 [_ [ev2 [T2 [Q2 [_ I2]]]]]]].
    pose proof (sync_outcome_holds accepts movies_df genres_df movie_genres_df
                  movie_genres wb) as Hout.
    rewrite H3 in Hout.
    inversion Hout as [Hu | e Hu Hrec | new_df Hu Hrec Hemp
                       | new_df Hu Hrec Hemp Hacc | new_df Hu Hrec Hemp Hacc];
      subst; try (rewrite link_key_missing in Hrec by exact Hmem;
                  discriminate).
    + exists DatabaseError, (ev1 ++ ev2 ++ [Query movie_genres]).
      cbn [emit store trace]. rewrite T2, T1, <- !app_assoc.
      split; [reflexivity |]. split; [reflexivity |].
      split.
      { change (table_rows movie_genres (store wb)
                = table_rows movie_genres (store w)).
        rewrite K2, K1 by discriminate. reflexivity. }
      split; [rewrite !inserts_into_app, I1, I2 by discriminate;
              reflexivity |].
      intros _ Hread. rewrite U2, U1, Hread in Hu. discriminate.
    + rewrite link_key_missing in Hrec by exact Hmem.
      injection Hrec as <-.
      exists (KeyError "movie_id"), (ev1 ++ ev2 ++ [Query movie_genres]).
      cbn [emit store trace]. rewrite T2, T1, <- !app_assoc.
      split; [reflexivity |]. split; [reflexivity |].
      split.
      { change (table_rows movie_genres (store wb)
                = table_rows movie_genres (store w)).
        rewrite K2, K1 by discriminate. reflexivity. }
      split; [rewrite !inserts_into_app, I1, I2 by discriminate;
              reflexivity |].
      reflexivity.
Qed.

End LoadMore.

(** A first load into an empty store. *)
Lemma successful_load_persists_every_key_witness :
  let movies_df := from_records [[("id", VInt 5)]; [("id", VInt 7)]] in
  let genres_df := from_records sample_genres in
  let links := links_frame [(5, 10); (5, 20)]%Z in
  let w := {| store := empty_store; unreadable := []; trace := [] |} in
  let w1 := snd (load_try schema_accepts movies_df genres_df links w) in
  (forall r, In r (rows movies_df) ->
             existsb (pd_eqb (get "id" r))
               (persisted_ids movies (store w1)) = true)
  /\ (forall r, In r (rows genres_df) ->
                existsb (pd_eqb (get "id" r))
                  (persisted_ids genres (store w1)) = true)
  /\ (forall r, In r (rows links) ->
                existsb (same_key link_key r)
                  (movie_genres_rows (store w1)) = true).
Proof.
  apply (successful_load_persists_every_key schema_accepts
           (from_records [[("id", VInt 5)]; [("id", VInt 7)]])
           (from_records sample_genres)
           (links_frame [(5, 10); (5, 20)]%Z)
           {| store := empty_store; unreadable := []; trace := [] |}).
  - repeat constructor.
  - reflexivity.
Defined.

(** The frames of two movies without genres, loaded into an empty store:
    the movies and the genres go in, then the load fails. *)
Lemma load_without_link_key_fails_witness :
  let movies_df := from_records [[("id", VInt 5)]; [("id", VInt 7)]] in
  let genres_df := from_records sample_genres in
  let w := {| store := empty_store; unreadable := []; trace := [] |} in
  exists e evs,
    fst (load_try schema_accepts movies_df genres_df (from_records []) w)
      = Raise e
    /\ trace (load_data_to_db schema_accepts movies_df genres_df
                (from_records []) w)
       = trace w ++ evs ++ [Log ERROR (Load_failed e)]
    /\ movie_genres_rows
         (store (load_data_to_db schema_accepts movies_df genres_df
                   (from_records []) w))
       = movie_genres_rows (store w)
    /\ inserts_into movie_genres evs = []
    /\ (In movie_genres (queries evs) ->
        existsb (table_eqb movie_genres) (unreadable w) = false ->
        e = KeyError "movie_id").
Proof.
  apply (load_without_link_key_fails schema_accepts
           (from_records [[("id", VInt 5)]; [("id", VInt 7)]])
           (from_records sample_genres) (from_records [])
           {| store := empty_store; unreadable := []; trace := [] |}).
  reflexivity.
Defined.

(** ** The load into a store with the constraints of [create_tables] *)

Lemma all_some_In {A B} (f : A -> option B) (l : list A) (ys : list B)
    (x : A) (y : B) :
  all_some (map f l) = Some ys -> In x l -> f x = Some y -> In y ys.
Proof.
  revert ys. induction l as [| a l IH]; intros ys Hall Hin Hfx; [elim Hin |].
  cbn [map all_some] in Hall. destruct (f a) as [b |] eqn:Hfa;
    [| discriminate].
  destruct (all_some (map f l)) as [ys' |]; [| discriminate].
  injection Hall as <-. destruct Hin as [-> | Hin].
  - left. congruence.
  - right. apply (IH ys' eq_refl Hin Hfx).
Qed.

(** Rows among which one occurs twice break the unique index. *)
Lemma repeated_pair_refused (l1 l2 l3 : list dict) (r : dict) :
  match all_some (map pair_of (l1 ++ r :: l2 ++ r :: l3)) with
  | Some pairs => distinct_pairs pairs
  | None => false
  end = false.
Proof.
  induction l1 as [| a l1 IH].
  - cbn [app map all_some]. destruct (pair_of r) as [[m g] |] eqn:Hr;
      [| reflexivity].
    destruct (all_some (map pair_of (l2 ++ r :: l3))) as [ps |] eqn:Hps;
      [| reflexivity].
    cbn [option_map distinct_pairs].
    replace (existsb (fun p => (fst p =? m)%Z && (snd p =? g)%Z) ps)
      with true; [reflexivity |].
    symmetry. apply existsb_exists. exists (m, g). split.
    + apply (all_some_In pair_of _ _ r _ Hps); [| exact Hr].
      apply in_or_app. right. left. reflexivity.
    + cbn [fst snd]. rewrite !Z.eqb_refl. reflexivity.
  - cbn [app map all_some]. destruct (pair_of a) as [[m g] |];
      [| reflexivity].
    destruct (all_some (map pair_of (l1 ++ r :: l2 ++ r :: l3)));
      [| reflexivity].
    cbn [option_map distinct_pairs]. rewrite IH. apply andb_false_r.
Qed.

Lemma filter_repeated {A} (p : A -> bool) (l1 l2 l3 : list A) (x : A) :
  p x = true ->
  filter p (l1 ++ x :: l2 ++ x :: l3)
  = filter p l1 ++ x :: filter p l2 ++ x :: filter p l3.
Proof.
  intros Hp. rewrite filter_app. cbn [filter]. rewrite Hp.
  rewrite filter_app. cbn [filter]. rewrite Hp. reflexivity.
Qed.

(** X13: rows are put into the link frame without a look at the rows
    already there, so a link frame may hold the same row twice; when it
    does and the pair is not persisted yet, the store created by
    [create_tables] never takes the links: the [try] block raises and the
    persisted links stay as they were, on this load and so on every later
    one. *)
Theorem repeated_link_blocks_the_load
    (movies_df genres_df movie_genres_df : DataFrame) (w : World)
    (before between after : list dict) (r : dict) :
  wf_frame movie_genres_df ->
  rows movie_genres_df = before ++ r :: between ++ r :: after ->
  pair_is_new (movie_genres_rows (store w)) r = true ->
  exists e,
    fst (load_try schema_accepts movies_df genres_df movie_genres_df w)
      = Raise e
    /\ movie_genres_rows
         (store (load_data_to_db schema_accepts movies_df genres_df
                   movie_genres_df w))
       = movie_genres_rows (store w)
    /\ pair_is_new
         (movie_genres_rows
            (store (load_data_to_db schema_accepts movies_df genres_df
                      movie_genres_df w))) r = true.
Proof.
  intros Hwf Hrows Hnew.
  assert (Hgoal : exists e,
             fst (load_try schema_accepts movies_df genres_df
                    movie_genres_df w) = Raise e
             /\ movie_genres_rows
                  (store (load_data_to_db schema_accepts movies_df genres_df
                            movie_genres_df w))
                = movie_genres_rows (store w)).
  { unfold load_data_to_db.
    destruct (load_cases schema_accepts movies_df genres_df movie_genres_df w)
      as [[e [wa [H1 H]]] | [[e [wa [wb [H1 [H2 H]]]]]
                            | [res [wa [wb [wc [H1 [H2 [H3 H]]]]]]]]];
      rewrite H; cbn [fst emit store].
    - destruct (sync_events _ _ _ _ _ _ _ _ H1) as [_ [K1 _]].
      exists e. split; [reflexivity |].
      apply (K1 movie_genres). discriminate.
    - destruct (sync_events _ _ _ _ _ _ _ _ H1) as [_ [K1 _]].
      destruct (sync_events _ _ _ _ _ _ _ _ H2) as [_ [K2 _]].
      exists e. split; [reflexivity |].
      change (table_rows movie_genres (store wb)
              = table_rows movie_genres (store w)).
      rewrite K2, K1 by discriminate. reflexivity.
    - destruct (sync_events _ _ _ _ _ _ _ _ H1) as [_ [K1 _]].
      destruct (sync_events _ _ _ _ _ _ _ _ H2) as [_ [K2 _]].
      assert (Hsame : movie_genres_rows (store wb)
                      = movie_genres_rows (store w)).
      { change (table_rows movie_genres (store wb)
                = table_rows movie_genres (store w)).
        rewrite K2, K1 by discriminate. reflexivity. }
      pose proof (sync_outcome_holds schema_accepts movies_df genres_df
                    movie_genres_df movie_genres wb) as Hout.
      rewrite H3 in Hout.
      assert (Hdelta : forall new_df,
                 reconcile movies_df genres_df movie_genres_df movie_genres
                   (store wb) = Ok new_df ->
                 columns new_df <> []
                 /\ rows new_df
                    = filter (pair_is_new (movie_genres_rows (store wb)))
                        before
                      ++ r :: filter (pair_is_new
                                        (movie_genres_rows (store wb)))
                                between
                      ++ r :: filter (pair_is_new
                                        (movie_genres_rows (store wb)))
                                after).
      { intros new_df Hrec. split.
        - eapply reconcile_columns; eassumption.
        - cbn [reconcile] in Hrec.
          destruct (new_by_pair_ok movie_genres_df
                      (select movie_genres (store wb)) new_df eq_refl Hwf
                      Hrec) as [-> _].
          cbn [rows]. rewrite Hrows.
          rewrite <- filter_repeated by (rewrite Hsame; exact Hnew).
          apply filter_ext. intros x. apply pair_is_new_select. }
      inversion Hout as [Hu | e Hu Hrec | new_df Hu Hrec Hemp
                         | new_df Hu Hrec Hemp Hacc
                         | new_df Hu Hrec Hemp Hacc];
        subst; cbn [emit store].
      + exists DatabaseError. auto.
      + exists e. auto.
      + destruct (Hdelta new_df Hrec) as [Hcols Hr].
        rewrite (empty_no_rows new_df Hcols Hemp) in Hr.
        apply (f_equal (@List.length dict)) in Hr.
        rewrite length_app in Hr. cbn [List.length] in Hr. lia.
      + exists DatabaseError. auto.
      + destruct (Hdelta new_df Hrec) as [_ Hr].
        unfold schema_accepts in Hacc. rewrite Hr in Hacc.
        rewrite app_assoc in Hacc.
        match type of Hacc with
        | context [all_some (map pair_of (?l1 ++ r :: ?l2 ++ r :: ?l3))] =>
            pose proof (repeated_pair_refused l1 l2 l3 r) as Hrep
        end.
        destruct (all_some _); [| discriminate].
        rewrite Hrep in Hacc. discriminate. }
  destruct Hgoal as [e [Hfail Hkept]]. exists e.
  split; [exact Hfail |]. split; [exact Hkept |].
  rewrite Hkept. exact Hnew.
Qed.

(** A movie whose genre list names genre 10 twice. *)
Lemma repeated_link_blocks_the_load_witness :
  let movies_df := from_records [[("id", VInt 5)]] in
  let genres_df := from_records sample_genres in
  let links := links_frame [(5, 10); (5, 10)]%Z in
  let w := {| store := empty_store; unreadable := []; trace := [] |} in
  exists e,
    fst (load_try schema_accepts movies_df genres_df links w) = Raise e
    /\ movie_genres_rows
         (store (load_data_to_db schema_accepts movies_df genres_df links w))
       = movie_genres_rows (store w)
    /\ pair_is_new
         (movie_genres_rows
            (store (load_data_to_db schema_accepts movies_df genres_df
                      links w))) (link 5 10) = true.
Proof.
  apply (repeated_link_blocks_the_load
           (from_records [[("id", VInt 5)]]) (from_records sample_genres)
           (links_frame [(5, 10); (5, 10)]%Z)
           {| store := empty_store; unreadable := []; trace := [] |}
           [] [] [] (link 5 10)).
  - repeat constructor.
  - reflexivity.
  - reflexivity.
Defined.

(** ** A load into a store that meets its constraints *)



















(** Without reconciliation the same frames would not fit: the movies
    offered, inserted as they are, repeat the identifiers 1 and 2. *)
Example unreconciled_insert_is_refused :
  schema_accepts movies
    {| movies_rows := [[("id", VInt 1)]; [("id", VInt 2)]];
       genres_rows := [[("id", VInt 10)]];
       movie_genres_rows := [link 1 10] |}
    [[("id", VInt 1)]; [("id", VInt 2)]; [("id", VInt 3)]] = false.
Proof. reflexivity. Qed.

(** ** Extraction *)

Lemma append_cancel_l (a b c : string) :
  (a ++ b)%string = (a ++ c)%string -> b = c.
Proof.
  induction a as [| ch a IH]; cbn [String.append]; intros H; [exact H |].
  injection H as H. apply IH, H.
Qed.

Lemma append_empty_r (a : string) : (a ++ EmptyString)%string = a.
Proof.
  induction a as [| ch a IH]; cbn [String.append]; [reflexivity |].
  rewrite IH. reflexivity.
Qed.

Lemma to_int_not_nil (n : Z) :
  Z.to_int n <> Decimal.Pos Decimal.Nil
  /\ Z.to_int n <> Decimal.Neg Decimal.Nil.
Proof.
  destruct n as [| p | p]; cbn [Z.to_int]; split; try discriminate;
    intros [= H]; exact (DecimalPos.Unsigned.to_uint_nonnil p H).
Qed.

(** [str] tells integers apart. *)
Lemma str_of_int_inj (p q : Z) : str_of_int p = str_of_int q -> p = q.
Proof.
  unfold str_of_int. intros H.
  apply (f_equal DecimalString.NilZero.int_of_string) in H.
  destruct (to_int_not_nil p) as [Hp1 Hp2].
  destruct (to_int_not_nil q) as [Hq1 Hq2].
  rewrite !DecimalString.NilZero.isi in H by assumption.
  injection H as H. apply DecimalZ.to_int_inj, H.
Qed.

Lemma NoDup_map_inj {A B} (f : A -> B) (l : list A) :
  (forall x y, f x = f y -> x = y) -> NoDup l -> NoDup (map f l).
Proof.
  intros Hinj. induction 1 as [| x l Hx Hl IH]; cbn [map]; constructor.
  - intros Hin. apply in_map_iff in Hin. destruct Hin as [y [Hy Hin]].
    apply Hinj in Hy. subst y. exact (Hx Hin).
  - exact IH.
Qed.

Lemma NoDup_prefix {A} (l1 l2 : list A) : NoDup (l1 ++ l2) -> NoDup l1.
Proof.
  induction l1 as [| x l1 IH]; cbn [app]; intros H; [constructor |].
  inversion H as [| ? ? Hx Hl]; subst. constructor.
  - intros Hin. apply Hx. apply in_or_app. left. exact Hin.
  - apply IH, Hl.
Qed.

(** The pages of a range: from the first to the last, one by one. *)
Lemma pages_spec (first_page last_page p : Z) :
  In p (pages first_page last_page) <-> (first_page <= p <= last_page)%Z.
Proof.
  unfold pages. rewrite in_map_iff. split.
  - intros [i [<- Hi]]. apply in_seq in Hi. lia.
  - intros Hp. exists (Z.to_nat (p - first_page)). split; [lia |].
    apply in_seq. lia.
Qed.

Lemma pages_NoDup (first_page last_page : Z) :
  NoDup (pages first_page last_page).
Proof.
  unfold pages. apply NoDup_map_inj; [intros x y; lia | apply seq_NoDup].
Qed.

Lemma pages_empty (first_page last_page : Z) :
  (last_page < first_page)%Z -> pages first_page last_page = [].
Proof.
  intros H. unfold pages.
  replace (Z.to_nat (last_page + 1 - first_page)) with 0 by lia.
  reflexivity.
Qed.

Lemma map_seq_from {B} (g : nat -> B) (n : nat) : forall a,
  map g (seq a n) = map (fun i => g (a + i)%nat) (seq 0 n).
Proof.
  induction n as [| n IH]; intros a; cbn [seq map]; [reflexivity |].
  f_equal; [f_equal; lia |].
  rewrite (IH (S a)), <- seq_shift, map_map. apply map_ext.
  intros i. f_equal. lia.
Qed.

Lemma pages_split (first_page mid last_page : Z) :
  (first_page <= mid + 1)%Z -> (mid <= last_page)%Z ->
  pages first_page last_page
  = pages first_page mid ++ pages (mid + 1) last_page.
Proof.
  intros H1 H2. unfold pages.
  replace (Z.to_nat (last_page + 1 - first_page))
    with (Z.to_nat (mid + 1 - first_page)
          + Z.to_nat (last_page + 1 - (mid + 1))) by lia.
  rewrite seq_app, map_app. f_equal. cbn [plus].
  rewrite map_seq_from. apply map_ext. intros i. lia.
Qed.

Section ExtractionFacts.

Variable server : Type.
Variable requests_get : string -> server -> attempt response * server.
Variable api_key : option string.

Local Abbreviation build_url' := (build_url api_key).
Local Abbreviation extract_data' := (extract_data server requests_get api_key).
Local Abbreviation collect_pages' := (collect_pages server requests_get api_key).
Local Abbreviation collect_data' := (collect_data server requests_get api_key).
Local Abbreviation extract_stage' := (extract_stage server requests_get api_key).

Lemma build_url_page_inj (endpoint : string) (p q : Z) :
  build_url' endpoint (Some p) = build_url' endpoint (Some q) -> p = q.
Proof.
  unfold build_url. intros H.
  apply append_cancel_l in H. apply append_cancel_l in H.
  apply str_of_int_inj, H.
Qed.

(** X15: pages that differ are requested under URLs that differ, and no
    page is requested under the URL without a page. *)
Theorem build_url_tells_pages_apart (endpoint : string) (p q : Z) :
  p <> q ->
  build_url api_key endpoint (Some p) <> build_url api_key endpoint (Some q)
  /\ build_url api_key endpoint (Some p) <> build_url api_key endpoint None.
Proof.
  intros Hpq. split.
  - intros H. apply Hpq. apply (build_url_page_inj endpoint), H.
  - unfold build_url. intros H.
    rewrite <- (append_empty_r
                  (base_url ++ endpoint ++ "?api_key="
                     ++ match api_key with
                        | Some key => key
                        | None => "None"
                        end)) in H at 2.
    apply append_cancel_l in H. discriminate.
Qed.

Ltac extract_cases :=
  unfold extract_data, check_status_code, note, outcome;
  cbn [remote fetch_log];
  destruct (requests_get _ _) as [[resp | [| x]] srv];
  cbn [fst snd];
  [ destruct (Z.eqb_spec (status_code resp) 200);
    [ destruct (json resp) as [body | [| y]]
    | destruct (status_code resp =? 404)%Z;
      [| destruct (status_code resp =? 500)%Z] ]
  | | ];
  cbn [fst snd remote fetch_log].

(** One call of [extract_data]: one request, then log records only. *)
Lemma extract_data_run (endpoint : string) (page : option Z) (n : Net server) :
  exists notes,
    extract_data' endpoint page n
    = (outcome (fst (requests_get (build_url' endpoint page) (remote n))),
       {| remote := snd (requests_get (build_url' endpoint page) (remote n));
          fetch_log := fetch_log n
                       ++ Request (build_url' endpoint page) :: notes |})
    /\ requests notes = []
    /\ forall l,
         extract_data' endpoint page {| remote := remote n; fetch_log := l |}
         = (outcome (fst (requests_get (build_url' endpoint page) (remote n))),
            {| remote := snd (requests_get (build_url' endpoint page)
                                (remote n));
               fetch_log := l ++ Request (build_url' endpoint page)
                              :: notes |}).
Proof.
  extract_cases; rewrite <- ?app_assoc; cbn [app];
    eexists; (split; [reflexivity |]); (split; [reflexivity |]);
    intros l; rewrite <- ?app_assoc; reflexivity.
Qed.
(** X16: [extract_data] sends one request, to the URL of the endpoint and
    page, and no other.  What it returns, if not [None], is the body of a
    response with status 200; a [RequestException] and a response with any
    other status both give [None]; and it raises only what [requests.get]
    or [json()] raised that is no [RequestException]. *)
Theorem extract_data_returns_only_a_200_body (endpoint : string)
    (page : option Z) (n : Net server) :
  let url := build_url' endpoint page in
  let reply := fst (requests_get url (remote n)) in
  let result := fst (extract_data' endpoint page n) in
  let n' := snd (extract_data' endpoint page n) in
  remote n' = snd (requests_get url (remote n))
  /\ (exists notes, fetch_log n' = fetch_log n ++ Request url :: notes
                    /\ requests notes = [])
  /\ (forall body, result = Ok body -> body <> VNone ->
        exists response,
          reply = Returned response
          /\ status_code response = 200%Z
          /\ json response = Returned body)
  /\ (reply = Raised RequestException -> result = Ok VNone)
  /\ (forall response, reply = Returned response ->
                       status_code response <> 200%Z -> result = Ok VNone)
  /\ (forall e, result = Raise e ->
        reply = Raised (Other e)
        \/ exists response,
             reply = Returned response
             /\ status_code response = 200%Z
             /\ json response = Raised (Other e)).
Proof.
  intros url reply result n'. subst result n'.
  destruct (extract_data_run endpoint page n) as [notes [Hrun [Hreq _]]].
  rewrite Hrun. cbn [fst snd remote fetch_log]. fold url. fold reply.
  split; [reflexivity |]. split; [exists notes; auto |].
  unfold outcome.
  destruct reply as [response | [| x]].
  - destruct (Z.eqb_spec (status_code response) 200) as [H200 | H200].
    + destruct (json response) as [body | [| y]] eqn:Hjson.
      * repeat split; try discriminate; try congruence.
        intros b [= <-] _. exists response. auto.
      * repeat split; try discriminate; try congruence.
      * repeat split; try discriminate; try congruence.
        intros e [= <-]. right. exists response. auto.
    + repeat split; try discriminate; try congruence.
  - repeat split; try discriminate; try congruence.
  - repeat split; try discriminate; try congruence.
    intros e [= <-]. left. reflexivity.
Qed.

(** The loop goes through a list of pages as through its two halves. *)
Lemma collect_pages_app (endpoint : string) (todo1 todo2 : list Z) :
  forall data n,
    collect_pages' endpoint (todo1 ++ todo2) data n
    = match collect_pages' endpoint todo1 data n with
      | (Ok data1, n1) => collect_pages' endpoint todo2 data1 n1
      | (Raise e, n1) => (Raise e, n1)
      end.
Proof.
  induction todo1 as [| page todo1 IH]; intros data n.
  - cbn [app collect_pages]. reflexivity.
  - cbn [app collect_pages].
    destruct (extract_data' endpoint (Some page) n) as [[resp | e] n1];
      [| reflexivity].
    destruct (truthy resp); [| apply IH].
    destruct (bind _ _); [apply IH | reflexivity].
Qed.

Ltac frame_step IH :=
  match goal with
  | |- ?lhs = _ =>
      match lhs with
      | collect_pages _ _ _ _ _ ?d ?N => rewrite (IH d N)
      end
  end;
  match goal with
  | |- context [fst (collect_pages _ _ _ _ _ ?d (note ?s ?l ?m ?M))] =>
      rewrite (IH d (note s l m M))
  end;
  unfold note; cbn [fst snd remote fetch_log app];
  match goal with
  | |- context [fst ?run] => destruct (fst run)
  end;
  rewrite <- ?app_assoc; cbn [app]; rewrite <- ?app_assoc; reflexivity.

(** The loop neither reads the log nor the records collected so far: run
    on some log and records, it does what it does on none, after them. *)
Lemma collect_pages_frame (endpoint : string) (todo : list Z) :
  forall data n,
    collect_pages' endpoint todo data n
    = (match fst (collect_pages' endpoint todo []
                    {| remote := remote n; fetch_log := [] |}) with
       | Ok out => Ok (data ++ out)
       | Raise e => Raise e
       end,
       {| remote :=
            remote (snd (collect_pages' endpoint todo []
                           {| remote := remote n; fetch_log := [] |}));
          fetch_log :=
            fetch_log n
            ++ fetch_log (snd (collect_pages' endpoint todo []
                                 {| remote := remote n;
                                    fetch_log := [] |})) |}).
Proof.
  induction todo as [| page todo IH]; intros data n.
  - cbn [collect_pages fst snd remote fetch_log].
    rewrite !app_nil_r. destruct n; reflexivity.
  - cbn [collect_pages].
    destruct (extract_data_run endpoint (Some page) n)
      as [notes [Hrun [_ Hany]]].
    rewrite Hrun, (Hany []). cbn [app].
    destruct (outcome _) as [resp | e];
      [| cbn [fst snd remote fetch_log]; reflexivity].
    destruct (truthy resp).
    + destruct (bind _ _) as [items | e];
        [| unfold note; cbn [fst snd remote fetch_log app];
           rewrite <- app_assoc; reflexivity].
      frame_step IH.
    + frame_step IH.
Qed.
Lemma requests_app (evs1 evs2 : list fetch_event) :
  requests (evs1 ++ evs2) = requests evs1 ++ requests evs2.
Proof. apply flat_map_app. Qed.

(** The requests of the loop: those of the pages it got through, in
    order; all of them when it returns. *)
Lemma collect_pages_requests (endpoint : string) (todo : list Z) :
  forall data n,
  exists evs done rest,
    fetch_log (snd (collect_pages' endpoint todo data n)) = fetch_log n ++ evs
    /\ todo = done ++ rest
    /\ requests evs = map (fun p => build_url' endpoint (Some p)) done
    /\ forall out, fst (collect_pages' endpoint todo data n) = Ok out ->
                   rest = [].
Proof.
  induction todo as [| page todo IH]; intros data n.
  - exists [], [], []. cbn [collect_pages fst snd].
    rewrite app_nil_r. auto.
  - cbn [collect_pages].
    destruct (extract_data_run endpoint (Some page) n)
      as [notes [Hrun [Hreq _]]].
    rewrite Hrun.
    assert (Hfirst : forall evs,
               requests ((Request (build_url' endpoint (Some page)) :: notes)
                         ++ evs)
               = build_url' endpoint (Some page) :: requests evs).
    { intros evs. rewrite requests_app.
      change (requests (Request (build_url' endpoint (Some page)) :: notes))
        with (build_url' endpoint (Some page) :: requests notes).
      rewrite Hreq. reflexivity. }
    destruct (outcome _) as [resp | e].
    + destruct (truthy resp).
      * destruct (bind _ _) as [items | e].
        -- match goal with
           | |- context [collect_pages _ _ _ _ _ ?d ?N] =>
               destruct (IH d N) as [evs [done [rest [Hlog [-> [Hr Hok]]]]]]
           end.
           exists ((Request (build_url' endpoint (Some page)) :: notes)
                   ++ [Note INFO (Collected page)] ++ evs),
             (page :: done), rest.
           split; [| split; [reflexivity | split; [| exact Hok]]].
           ++ rewrite Hlog. unfold note. cbn [fetch_log].
              rewrite <- !app_assoc. reflexivity.
           ++ rewrite Hfirst, requests_app. cbn [map]. rewrite Hr.
              reflexivity.
        -- exists ((Request (build_url' endpoint (Some page)) :: notes)
                   ++ [Note INFO (Collected page)]), [page], todo.
           split; [| split; [reflexivity | split; [| discriminate]]].
           ++ unfold note. cbn [snd fetch_log].
              rewrite <- !app_assoc. reflexivity.
           ++ rewrite Hfirst. reflexivity.
      * match goal with
        | |- context [collect_pages _ _ _ _ _ ?d ?N] =>
            destruct (IH d N) as [evs [done [rest [Hlog [-> [Hr Hok]]]]]]
        end.
        exists ((Request (build_url' endpoint (Some page)) :: notes)
                ++ [Note WARNING (Nothing_collected page)] ++ evs),
          (page :: done), rest.
        split; [| split; [reflexivity | split; [| exact Hok]]].
        -- rewrite Hlog. unfold note. cbn [fetch_log].
           rewrite <- !app_assoc. reflexivity.
        -- rewrite Hfirst, requests_app. cbn [map]. rewrite Hr.
           reflexivity.
    + exists ((Request (build_url' endpoint (Some page)) :: notes) ++ []),
        [page], todo.
      split; [| split; [reflexivity | split; [| discriminate]]].
      * cbn [snd fetch_log]. rewrite app_nil_r. reflexivity.
      * rewrite Hfirst. reflexivity.
Qed.

(** X17: [collect_data] requests the pages from the first to the last in
    ascending order, each at most once and under its own URL, whatever
    the replies: a page that fails is not asked for again.  It stops
    early only by raising; when it returns, every page of the range has
    been requested.  When the last page is below the first, it returns
    no record and sends no request. *)
Theorem collect_data_requests_each_page_once (endpoint : string)
    (first_page last_page : Z) (n : Net server) :
  exists evs done rest,
    fetch_log (snd (collect_data' endpoint first_page last_page n))
      = fetch_log n ++ evs
    /\ pages first_page last_page = done ++ rest
    /\ requests evs = map (fun p => build_url' endpoint (Some p)) done
    /\ NoDup (requests evs)
    /\ (forall p, In p done -> (first_page <= p <= last_page)%Z)
    /\ (forall data,
          fst (collect_data' endpoint first_page last_page n) = Ok data ->
          done = pages first_page last_page)
    /\ ((last_page < first_page)%Z ->
        fst (collect_data' endpoint first_page last_page n) = Ok []
        /\ requests evs = []).
Proof.
  unfold collect_data.
  destruct (collect_pages_requests endpoint (pages first_page last_page) []
              (note server INFO (Collecting first_page last_page) n))
    as [evs [done [rest [Hlog [Hsplit [Hreq Hok]]]]]].
  exists ([Note INFO (Collecting first_page last_page)] ++ evs), done, rest.
  assert (Hreq' : requests ([Note INFO (Collecting first_page last_page)]
                            ++ evs)
                  = map (fun p => build_url' endpoint (Some p)) done).
  { rewrite requests_app. exact Hreq. }
  split; [| split; [exact Hsplit | split; [exact Hreq' |]]].
  { rewrite Hlog. unfold note. cbn [fetch_log]. rewrite <- app_assoc.
    reflexivity. }
  rewrite Hreq'. split; [| split; [| split]].
  - apply NoDup_map_inj.
    + intros x y. apply build_url_page_inj.
    + apply (NoDup_prefix done rest). rewrite <- Hsplit. apply pages_NoDup.
  - intros p Hp. apply pages_spec. rewrite Hsplit.
    apply in_or_app. left. exact Hp.
  - intros data Hdata. rewrite (Hok data Hdata) in Hsplit.
    rewrite app_nil_r in Hsplit. symmetry. exact Hsplit.
  - intros Hlt. rewrite (pages_empty _ _ Hlt) in *.
    destruct done; [| discriminate]. cbn [collect_pages fst]. auto.
Qed.

(** With harmless replies only, the loop returns. *)
Lemma collect_pages_harmless (endpoint : string) (todo : list Z) :
  (forall url s, harmless (fst (requests_get url s)) = true) ->
  forall data n, exists out,
    fst (collect_pages' endpoint todo data n) = Ok out.
Proof.
  intros Hall. induction todo as [| page todo IH]; intros data n.
  - exists data. reflexivity.
  - cbn [collect_pages].
    destruct (extract_data_run endpoint (Some page) n)
      as [notes [Hrun _]].
    rewrite Hrun.
    pose proof (Hall (build_url' endpoint (Some page)) (remote n)) as Hh.
    unfold harmless in Hh. unfold outcome.
    destruct (fst (requests_get _ _)) as [resp | [| x]];
      [| cbn [truthy]; apply IH | discriminate].
    destruct (status_code resp =? 200)%Z; [| cbn [truthy]; apply IH].
    destruct (json resp) as [body | [| y]];
      [| cbn [truthy]; apply IH | discriminate].
    destruct (truthy body); [| apply IH].
    cbn [negb orb] in Hh. destruct body; try discriminate.
    cbn [method_get bind].
    destruct (iter _); [apply IH | discriminate].
Qed.

(** X18: when every reply is a [RequestException], a response with a
    status other than 200, or a response with status 200 whose body is
    falsy or a dict whose [results], if any, can be iterated, then
    [collect_data] returns, having requested every page of the range: a
    page that fails is logged and passed over. *)
Theorem collect_data_gets_past_failed_pages (endpoint : string)
    (first_page last_page : Z) (n : Net server) :
  (forall url s, harmless (fst (requests_get url s)) = true) ->
  exists data evs,
    fst (collect_data' endpoint first_page last_page n) = Ok data
    /\ fetch_log (snd (collect_data' endpoint first_page last_page n))
       = fetch_log n ++ evs
    /\ requests evs
       = map (fun p => build_url' endpoint (Some p))
           (pages first_page last_page).
Proof.
  intros Hall. unfold collect_data.
  destruct (collect_pages_harmless endpoint (pages first_page last_page)
              Hall []
              (note server INFO (Collecting first_page last_page) n))
    as [out Hout].
  destruct (collect_pages_requests endpoint (pages first_page last_page) []
              (note server INFO (Collecting first_page last_page) n))
    as [evs [done [rest [Hlog [Hsplit [Hreq Hok]]]]]].
  exists out, ([Note INFO (Collecting first_page last_page)] ++ evs).
  split; [exact Hout |]. split.
  - rewrite Hlog. unfold note. cbn [fetch_log]. rewrite <- app_assoc.
    reflexivity.
  - rewrite requests_app. cbn [requests flat_map app]. rewrite Hreq.
    rewrite Hsplit, (Hok out Hout), app_nil_r. reflexivity.
Qed.

(** X19: a page answered with status 200 and a body that is truthy but
    no dict (a JSON array, string or number), or a dict whose [results]
    cannot be iterated, ends the loop of [collect_data] there: it raises
    [AttributeError] or [TypeError], the pages left are not requested and
    the records collected so far are not returned. *)
Theorem malformed_page_aborts_the_collection (endpoint : string) (page : Z)
    (todo : list Z) (data : list value) (n : Net server) (body : value)
    (remote' : server) :
  requests_get (build_url' endpoint (Some page)) (remote n)
    = (Returned {| status_code := 200; json := Returned body |}, remote') ->
  truthy body = true ->
  match body with
  | VDict d => iter (get_default "results" (VList []) d) = Raise TypeError
  | _ => True
  end ->
  exists notes,
    collect_pages' endpoint (page :: todo) data n
    = (Raise match body with
             | VDict _ => TypeError
             | _ => AttributeError
             end,
       {| remote := remote';
          fetch_log := fetch_log n
                       ++ Request (build_url' endpoint (Some page))
                          :: notes |})
    /\ requests notes = [].
Proof.
  intros Hget Htruthy Hbody. cbn [collect_pages].
  destruct (extract_data_run endpoint (Some page) n)
    as [notes [Hrun [Hreq _]]].
  rewrite Hrun, Hget. cbn [fst snd outcome status_code json Z.eqb Pos.eqb].
  rewrite Htruthy. unfold note. cbn [remote fetch_log].
  exists (notes ++ [Note INFO (Collected page)]).
  rewrite requests_app, Hreq. split; [| reflexivity].
  rewrite <- app_assoc. cbn [app].
  destruct body; cbn [method_get bind]; try reflexivity.
  rewrite Hbody. reflexivity.
Qed.

Lemma collect_pages_from (endpoint : string) (todo : list Z)
    (data : list value) (n : Net server) (r0 : result (list value))
    (n0 : Net server) :
  collect_pages' endpoint todo [] {| remote := remote n; fetch_log := [] |}
    = (r0, n0) ->
  collect_pages' endpoint todo data n
  = (match r0 with
     | Ok out => Ok (data ++ out)
     | Raise e => Raise e
     end,
     {| remote := remote n0; fetch_log := fetch_log n ++ fetch_log n0 |}).
Proof.
  intros H. rewrite collect_pages_frame, H. reflexivity.
Qed.

(** X20: collecting a range of pages gives what collecting its lower part
    and then its upper part gives: the same records, the same requests
    and the same state of the remote end. *)
Theorem collect_data_by_parts (endpoint : string)
    (first_page mid last_page : Z) (n n' : Net server) (data : list value) :
  (first_page <= mid + 1)%Z -> (mid <= last_page)%Z ->
  collect_data' endpoint first_page last_page n = (Ok data, n') ->
  exists data1 n1 data2 n2,
    collect_data' endpoint first_page mid n = (Ok data1, n1)
    /\ collect_data' endpoint (mid + 1) last_page n1 = (Ok data2, n2)
    /\ data = data1 ++ data2
    /\ remote n2 = remote n'
    /\ requests (fetch_log n2) = requests (fetch_log n').
Proof.
  intros H1 H2 Hrun. unfold collect_data in *.
  destruct (collect_pages' endpoint (pages first_page mid) []
              {| remote := remote n; fetch_log := [] |})
    as [r1 m1] eqn:E1.
  pose proof (collect_pages_from endpoint (pages first_page mid) []
                (note server INFO (Collecting first_page last_page) n)
                r1 m1 E1) as Fa.
  pose proof (collect_pages_from endpoint (pages first_page mid) []
                (note server INFO (Collecting first_page mid) n)
                r1 m1 E1) as Fb.
  rewrite (pages_split first_page mid last_page H1 H2), collect_pages_app,
    Fa in Hrun.
  destruct r1 as [out1 | e1]; [| discriminate].
  destruct (collect_pages' endpoint (pages (mid + 1) last_page) []
              {| remote := remote m1; fetch_log := [] |})
    as [r2 m2] eqn:E2.
  match type of Hrun with
  | collect_pages _ _ _ _ _ ?d ?N = _ =>
      rewrite (collect_pages_from endpoint (pages (mid + 1) last_page) d N
                 r2 m2 E2) in Hrun
  end.
  destruct r2 as [out2 | e2]; [| discriminate].
  injection Hrun as <- <-.
  exists out1. eexists. exists out2. eexists.
  split; [exact Fb |]. split.
  - apply (collect_pages_from endpoint (pages (mid + 1) last_page) []
             (note server INFO (Collecting (mid + 1) last_page)
                {| remote := remote m1;
                   fetch_log :=
                     fetch_log
                       (note server INFO (Collecting first_page mid) n)
                     ++ fetch_log m1 |})
             (Ok out2) m2 E2).
  - split; [reflexivity |]. split; [reflexivity |].
    unfold note. cbn [remote fetch_log].
    rewrite !requests_app. cbn [requests flat_map app].
    rewrite !app_nil_r. reflexivity.
Qed.

(** X21: the script takes [genres] out of what [extract_data] returns
    without a look at it; when the request for the genre catalogue fails
    or is answered with a status other than 200, [extract_data] has
    logged the failure and returned [None], and the run ends there with a
    [TypeError], after the request for every page of movies. *)
Theorem failed_genre_request_stops_the_run (n n1 : Net server)
    (popular : list value) :
  collect_data' "/movie/popular" 1 25 n = (Ok popular, n1) ->
  fst (requests_get (build_url' "/genre/movie/list" None) (remote n1))
    = Raised RequestException
  \/ (exists response,
        fst (requests_get (build_url' "/genre/movie/list" None) (remote n1))
          = Returned response
        /\ status_code response <> 200%Z) ->
  exists notes,
    extract_stage' n
    = (Raise TypeError,
       {| remote := snd (requests_get (build_url' "/genre/movie/list" None)
                           (remote n1));
          fetch_log := fetch_log n1
                       ++ Request (build_url' "/genre/movie/list" None)
                          :: notes |})
    /\ requests notes = [].
Proof.
  intros Hmovies Hreply. unfold extract_stage. rewrite Hmovies.
  destruct (extract_data_run "/genre/movie/list" None n1)
    as [notes [Hrun [Hreq _]]].
  rewrite Hrun. exists notes. split; [| exact Hreq].
  replace (outcome _) with (@Ok value VNone); [reflexivity |].
  unfold outcome. destruct Hreply as [-> | [response [-> Hstatus]]];
    [reflexivity |].
  destruct (Z.eqb_spec (status_code response) 200); [contradiction |].
  reflexivity.
Qed.

End ExtractionFacts.

Lemma build_url_tells_pages_apart_witness :
  build_url (Some "k") "/movie/popular" (Some 1%Z)
    <> build_url (Some "k") "/movie/popular" (Some 2%Z)
  /\ build_url (Some "k") "/movie/popular" (Some 1%Z)
     <> build_url (Some "k") "/movie/popular" None.
Proof.
  apply (build_url_tells_pages_apart (Some "k") "/movie/popular" 1 2).
  discriminate.
Defined.

(** Three pages, of which the second fails. *)
Lemma collect_data_gets_past_failed_pages_witness :
  exists data evs,
    fst (collect_data nat flaky None "/movie/popular" 1 3
           {| remote := 0; fetch_log := [] |}) = Ok data
    /\ fetch_log (snd (collect_data nat flaky None "/movie/popular" 1 3
                         {| remote := 0; fetch_log := [] |}))
       = [] ++ evs
    /\ requests evs
       = map (fun p => build_url None "/movie/popular" (Some p)) (pages 1 3).
Proof.
  apply (collect_data_gets_past_failed_pages nat flaky None "/movie/popular"
           1 3 {| remote := 0; fetch_log := [] |}).
  intros url s. unfold flaky, harmless. cbn [fst].
  destruct (Nat.eqb s 1); reflexivity.
Defined.

(** A page answered with a JSON array, after two records have been
    collected. *)
Lemma malformed_page_aborts_the_collection_witness :
  exists notes,
    collect_pages unit listing None "/movie/popular" [3; 4]%Z
      [VInt 1; VInt 2] {| remote := tt; fetch_log := [] |}
    = (Raise AttributeError,
       {| remote := tt;
          fetch_log := [] ++ Request (build_url None "/movie/popular"
                                        (Some 3%Z)) :: notes |})
    /\ requests notes = [].
Proof.
  apply (malformed_page_aborts_the_collection unit listing None
           "/movie/popular" 3 [4%Z] [VInt 1; VInt 2]
           {| remote := tt; fetch_log := [] |} (VList [VInt 1]) tt).
  - reflexivity.
  - reflexivity.
  - exact I.
Defined.

(** Pages 1 to 3, as page 1 and then pages 2 to 3. *)
Lemma collect_data_by_parts_witness :
  exists data1 n1 data2 n2,
    collect_data nat flaky None "/movie/popular" 1 1
      {| remote := 0; fetch_log := [] |} = (Ok data1, n1)
    /\ collect_data nat flaky None "/movie/popular" (1 + 1) 3 n1
       = (Ok data2, n2)
    /\ [VInt 0; VInt 2] = data1 ++ data2
    /\ remote n2
       = remote (snd (collect_data nat flaky None "/movie/popular" 1 3
                        {| remote := 0; fetch_log := [] |}))
    /\ requests (fetch_log n2)
       = requests
           (fetch_log (snd (collect_data nat flaky None "/movie/popular" 1 3
                              {| remote := 0; fetch_log := [] |}))).
Proof.
  apply (collect_data_by_parts nat flaky None "/movie/popular" 1 1 3
           {| remote := 0; fetch_log := [] |}
           (snd (collect_data nat flaky None "/movie/popular" 1 3
                   {| remote := 0; fetch_log := [] |}))
           [VInt 0; VInt 2]).
  - lia.
  - lia.
  - reflexivity.
Defined.

(** The network is down: every page of movies is passed over, then the
    run ends on the genre catalogue. *)
Lemma failed_genre_request_stops_the_run_witness :
  let n := {| remote := tt; fetch_log := [] |} in
  let n1 := snd (collect_data unit unreachable None "/movie/popular" 1 25 n) in
  exists notes,
    extract_stage unit unreachable None n
    = (Raise TypeError,
       {| remote := snd (unreachable (build_url None "/genre/movie/list" None)
                           (remote n1));
          fetch_log := fetch_log n1
                       ++ Request (build_url None "/genre/movie/list" None)
                          :: notes |})
    /\ requests notes = [].
Proof.
  apply (failed_genre_request_stops_the_run unit unreachable None
           {| remote := tt; fetch_log := [] |}
           (snd (collect_data unit unreachable None "/movie/popular" 1 25
                   {| remote := tt; fetch_log := [] |}))
           []).
  - vm_compute. reflexivity.
  - left. reflexivity.
Defined.
